(** * gst-vmbsrc: frame acquisition and buffering of the VimbaX GStreamer source

    Shallow embedding of [src/gstvmbsrc.c].  The element talks to three
    collaborators that are not part of the repository: the VmbC camera SDK,
    GLib's [GAsyncQueue] and the GStreamer element state.  They are modelled
    as an environment:

    - every VmbC call is recorded, together with the answer of the device, in
      a transcript ([sdk_log]); the device itself is an arbitrary function
      from the transcript so far and the call to an answer ([Device]);
    - queue objects live in a store ([queues]) and are referred to by their
      index, so that two pointers to the same queue alias; where a new
      queue object is placed is up to GLib's allocator ([g_allocator]),
      which may hand out the address of an object that has been freed;
    - the streaming thread sees the driver thread and the pipeline state
      once per poll of its wait loop ([Tick]). *)

From Stdlib Require Import ZArith Lia List String Bool.
From stdpp Require Import base decidable option list strings.
Import ListNotations.
Open Scope string_scope.
Open Scope list_scope.
Open Scope Z_scope.

(** ** VmbC types *)

(** The error codes of [VmbError_t] that the element distinguishes, and a
    few more that a device may answer. *)
Inductive VmbError_t :=
| VmbErrorSuccess
| VmbErrorNotFound
| VmbErrorBadParameter
| VmbErrorInvalidValue
| VmbErrorTimeout
| VmbErrorResources
| VmbErrorOther.

#[global] Instance VmbError_eq_dec : EqDecision VmbError_t.
Proof. solve_decision. Defined.

(** [VmbFrameStatus_t]; [VmbFrameStatusComplete] is the value 0, which is
    what [memset] leaves in a descriptor. *)
Inductive VmbFrameStatus_t :=
| VmbFrameStatusComplete
| VmbFrameStatusIncomplete
| VmbFrameStatusTooSmall
| VmbFrameStatusInvalid.

#[global] Instance VmbFrameStatus_eq_dec : EqDecision VmbFrameStatus_t.
Proof. solve_decision. Defined.

(** The fields of [VmbFrame_t] the element reads or writes.  Pointers are
    addresses, [0] is [NULL]; [context0] is the queue pointer stored in
    [context[0]], [None] is [NULL]. *)
Record VmbFrame_t := {
  buffer : Z;
  bufferSize : Z;
  context0 : option nat;
  receiveStatus : VmbFrameStatus_t;
  frameID : Z
}.

#[global] Instance VmbFrame_eq_dec : EqDecision VmbFrame_t.
Proof. solve_decision. Defined.

(** [memset(&frame, 0, sizeof(VmbFrame_t))] *)
Definition zero_frame : VmbFrame_t :=
  {| buffer := 0; bufferSize := 0; context0 := None;
     receiveStatus := VmbFrameStatusComplete; frameID := 0 |}.

(** The VmbC entry points the element calls.  A frame descriptor is
    passed to the SDK by address; the call records its index in
    [frame_buffers], and [VmbFrameAnnounce] also its content at the call. *)
Inductive VmbCall :=
| VmbFeatureIntSet (name : string) (value : Z)
| VmbFeatureIntGet (name : string)
| VmbFeatureIntRangeQuery (name : string)
| VmbFeatureIntIncrementQuery (name : string)
| VmbFeatureEnumSet (name value : string)
| VmbFeatureEnumRangeQuery (name : string) (capacity : option Z)
| VmbFeatureEnumIsAvailable (name : string) (entry : nat)
| VmbFeatureCommandRun (name : string)
| VmbFeatureCommandIsDone (name : string)
| VmbPayloadSizeGet
| VmbAlignedAlloc (alignment size : Z)
| VmbAlignedFree (ptr : Z)
| libc_free (ptr : Z)
| VmbFrameAnnounce (index : nat) (frame : VmbFrame_t)
| VmbFrameRevoke (index : nat)
| VmbCaptureStart
| VmbCaptureEnd
| VmbCaptureQueueFlush
| VmbCaptureFrameQueue (index : nat).

#[global] Instance VmbCall_eq_dec : EqDecision VmbCall.
Proof. solve_decision. Defined.

(** What a call hands back: the error code and up to two output values
    (range queries: minimum and maximum; increment, integer and payload
    queries: the value; [VmbAlignedAlloc]: the pointer; [IsDone]: the
    flag; enum range query: the number of entries).  The values are
    taken to lie in the range of the C type of the output parameter.
    Where the source reads an output variable it did not initialise
    after a failed call ([vmb_width], [new_payload_size]), the value of
    the answer stands for whatever the variable holds. *)
Record VmbResponse := {
  r_err : VmbError_t;
  r_val : Z;
  r_val2 : Z
}.

Definition Transcript := list (VmbCall * VmbResponse).
Definition Device := Transcript -> VmbCall -> VmbResponse.

(** ** GLib and GStreamer types *)

Inductive GstState :=
| GST_STATE_VOID_PENDING
| GST_STATE_NULL
| GST_STATE_READY
| GST_STATE_PAUSED
| GST_STATE_PLAYING.

#[global] Instance GstState_eq_dec : EqDecision GstState.
Proof. solve_decision. Defined.

(** A [GAsyncQueue] object: the frames it holds (as indices into
    [frame_buffers]), oldest first, and whether it has been freed by its
    last [g_async_queue_unref]. *)
Record GAsyncQueue := {
  q_items : list nat;
  q_live : bool
}.

(** The part of [GstVideoInfo] that [gst_vmbsrc_create] reads. *)
Record GstVideoInfo := {
  vi_width : Z;
  vi_height : Z;
  vi_n_planes : nat;
  vi_pixel_stride : list Z
}.

(** The caps handed to [set_caps]: the [format] string of their first
    structure, and what [gst_video_info_from_caps] makes of them ([None]:
    it returns [FALSE]). *)
Record GstCaps := {
  caps_format : string;
  caps_video_info : option GstVideoInfo
}.

(** The output buffer of [gst_vmbsrc_create]: its size, the address the
    payload was copied from, both offsets and the strides of the video
    meta.  The timestamp comes from the pipeline clock and is left out. *)
Record GstBuffer := {
  gb_size : Z;
  gb_data : Z;
  gb_offset : Z;
  gb_offset_end : Z;
  gb_stride : list Z
}.

(** ** Element properties *)

Inductive TriggerSelector :=
| GST_VMBSRC_TRIGGERSELECTOR_UNCHANGED
| GST_VMBSRC_TRIGGERSELECTOR_ACQUISITION_START
| GST_VMBSRC_TRIGGERSELECTOR_ACQUISITION_END
| GST_VMBSRC_TRIGGERSELECTOR_ACQUISITION_ACTIVE
| GST_VMBSRC_TRIGGERSELECTOR_FRAME_START
| GST_VMBSRC_TRIGGERSELECTOR_FRAME_END
| GST_VMBSRC_TRIGGERSELECTOR_FRAME_ACTIVE
| GST_VMBSRC_TRIGGERSELECTOR_FRAME_BURST_START
| GST_VMBSRC_TRIGGERSELECTOR_FRAME_BURST_END
| GST_VMBSRC_TRIGGERSELECTOR_FRAME_BURST_ACTIVE
| GST_VMBSRC_TRIGGERSELECTOR_LINE_START
| GST_VMBSRC_TRIGGERSELECTOR_EXPOSURE_START
| GST_VMBSRC_TRIGGERSELECTOR_EXPOSURE_END
| GST_VMBSRC_TRIGGERSELECTOR_EXPOSURE_ACTIVE.

Inductive TriggerMode :=
| GST_VMBSRC_TRIGGERMODE_UNCHANGED
| GST_VMBSRC_TRIGGERMODE_OFF
| GST_VMBSRC_TRIGGERMODE_ON.

Inductive TriggerSource :=
| GST_VMBSRC_TRIGGERSOURCE_UNCHANGED
| GST_VMBSRC_TRIGGERSOURCE_LINE0
| GST_VMBSRC_TRIGGERSOURCE_LINE1
| GST_VMBSRC_TRIGGERSOURCE_LINE2
| GST_VMBSRC_TRIGGERSOURCE_LINE3
| GST_VMBSRC_TRIGGERSOURCE_ACTION0
| GST_VMBSRC_TRIGGERSOURCE_ACTION1
| GST_VMBSRC_TRIGGERSOURCE_ACTION2
| GST_VMBSRC_TRIGGERSOURCE_ACTION3.

Inductive TriggerActivation :=
| GST_VMBSRC_TRIGGERACTIVATION_UNCHANGED
| GST_VMBSRC_TRIGGERACTIVATION_RISING_EDGE
| GST_VMBSRC_TRIGGERACTIVATION_FALLING_EDGE
| GST_VMBSRC_TRIGGERACTIVATION_ANY_EDGE
| GST_VMBSRC_TRIGGERACTIVATION_LEVEL_HIGH
| GST_VMBSRC_TRIGGERACTIVATION_LEVEL_LOW.

Inductive IncompleteFrameHandling :=
| GST_VMBSRC_INCOMPLETE_FRAME_HANDLING_DROP
| GST_VMBSRC_INCOMPLETE_FRAME_HANDLING_SUBMIT.

Inductive AllocationMode :=
| GST_VMBSRC_ALLOCATION_MODE_ANNOUNCE_FRAME
| GST_VMBSRC_ALLOCATION_MODE_ALLOC_AND_ANNOUNCE_FRAME.

#[global] Instance TriggerSelector_eq_dec : EqDecision TriggerSelector.
Proof. solve_decision. Defined.
#[global] Instance TriggerMode_eq_dec : EqDecision TriggerMode.
Proof. solve_decision. Defined.
#[global] Instance TriggerSource_eq_dec : EqDecision TriggerSource.
Proof. solve_decision. Defined.
#[global] Instance TriggerActivation_eq_dec : EqDecision TriggerActivation.
Proof. solve_decision. Defined.
#[global] Instance IncompleteFrameHandling_eq_dec : EqDecision IncompleteFrameHandling.
Proof. solve_decision. Defined.
#[global] Instance AllocationMode_eq_dec : EqDecision AllocationMode.
Proof. solve_decision. Defined.

(** The nick of each [GEnumValue] table: the string passed on to the
    VimbaX enum feature. *)
Definition triggerselector_nick (v : TriggerSelector) : string :=
  match v with
  | GST_VMBSRC_TRIGGERSELECTOR_UNCHANGED => "UNCHANGED"
  | GST_VMBSRC_TRIGGERSELECTOR_ACQUISITION_START => "AcquisitionStart"
  | GST_VMBSRC_TRIGGERSELECTOR_ACQUISITION_END => "AcquisitionEnd"
  | GST_VMBSRC_TRIGGERSELECTOR_ACQUISITION_ACTIVE => "AcquisitionActive"
  | GST_VMBSRC_TRIGGERSELECTOR_FRAME_START => "FrameStart"
  | GST_VMBSRC_TRIGGERSELECTOR_FRAME_END => "FrameEnd"
  | GST_VMBSRC_TRIGGERSELECTOR_FRAME_ACTIVE => "FrameActive"
  | GST_VMBSRC_TRIGGERSELECTOR_FRAME_BURST_START => "FrameBurstStart"
  | GST_VMBSRC_TRIGGERSELECTOR_FRAME_BURST_END => "FrameBurstEnd"
  | GST_VMBSRC_TRIGGERSELECTOR_FRAME_BURST_ACTIVE => "FrameBurstActive"
  | GST_VMBSRC_TRIGGERSELECTOR_LINE_START => "LineStart"
  | GST_VMBSRC_TRIGGERSELECTOR_EXPOSURE_START => "ExposureStart"
  | GST_VMBSRC_TRIGGERSELECTOR_EXPOSURE_END => "ExposureEnd"
  | GST_VMBSRC_TRIGGERSELECTOR_EXPOSURE_ACTIVE => "ExposureActive"
  end.

Definition triggermode_nick (v : TriggerMode) : string :=
  match v with
  | GST_VMBSRC_TRIGGERMODE_UNCHANGED => "UNCHANGED"
  | GST_VMBSRC_TRIGGERMODE_OFF => "Off"
  | GST_VMBSRC_TRIGGERMODE_ON => "On"
  end.

Definition triggersource_nick (v : TriggerSource) : string :=
  match v with
  | GST_VMBSRC_TRIGGERSOURCE_UNCHANGED => "UNCHANGED"
  | GST_VMBSRC_TRIGGERSOURCE_LINE0 => "Line0"
  | GST_VMBSRC_TRIGGERSOURCE_LINE1 => "Line1"
  | GST_VMBSRC_TRIGGERSOURCE_LINE2 => "Line2"
  | GST_VMBSRC_TRIGGERSOURCE_LINE3 => "Line3"
  | GST_VMBSRC_TRIGGERSOURCE_ACTION0 => "Action0"
  | GST_VMBSRC_TRIGGERSOURCE_ACTION1 => "Action1"
  | GST_VMBSRC_TRIGGERSOURCE_ACTION2 => "Action2"
  | GST_VMBSRC_TRIGGERSOURCE_ACTION3 => "Action3"
  end.

Definition triggeractivation_nick (v : TriggerActivation) : string :=
  match v with
  | GST_VMBSRC_TRIGGERACTIVATION_UNCHANGED => "UNCHANGED"
  | GST_VMBSRC_TRIGGERACTIVATION_RISING_EDGE => "RisingEdge"
  | GST_VMBSRC_TRIGGERACTIVATION_FALLING_EDGE => "FallingEdge"
  | GST_VMBSRC_TRIGGERACTIVATION_ANY_EDGE => "AnyEdge"
  | GST_VMBSRC_TRIGGERACTIVATION_LEVEL_HIGH => "LevelHigh"
  | GST_VMBSRC_TRIGGERACTIVATION_LEVEL_LOW => "LevelLow"
  end.

(** [vmbsrc->properties], without the exposure, gain and white balance
    settings. *)
Record Properties := {
  offsetx : Z;
  offsety : Z;
  width : Z;
  height : Z;
  triggerselector : TriggerSelector;
  triggermode : TriggerMode;
  triggersource : TriggerSource;
  triggeractivation : TriggerActivation;
  incomplete_frame_handling : IncompleteFrameHandling;
  allocation_mode : AllocationMode
}.

(** GLib's allocator, asked for the memory of a new queue object while
    the objects of the store exist: [Some q] is the address of an object
    of the store, to be used again, [None] memory that has not held a
    queue before. *)
Definition GAllocator := list GAsyncQueue -> option nat.

(** An entry of [camera.supported_formats]. *)
Record VimbaXGstFormatMatch_t := {
  vimbax_format_name : string;
  gst_format_name : string
}.

(** ** The element and its environment

    The first seven fields are the [GstVmbSrc] instance; [queues] is the
    store of queue objects, [g_allocator] the allocator that places new
    ones, [device] the camera behind the SDK and [sdk_log] the transcript
    of the calls made so far.  The array
    [frame_buffers] has [NUM_FRAME_BUFFERS] entries; the constant is
    declared in gstvmbsrc.h and is taken to be the length of the array. *)
Record GstVmbSrc := {
  properties : Properties;
  is_acquiring : bool;
  supported_formats : list VimbaXGstFormatMatch_t;
  frame_buffers : list VmbFrame_t;
  filled_frame_queue : option nat;
  num_frames_pushed : Z;
  video_info : GstVideoInfo;
  queues : list GAsyncQueue;
  g_allocator : GAllocator;
  device : Device;
  sdk_log : Transcript
}.

Definition NUM_FRAME_BUFFERS (vmbsrc : GstVmbSrc) : nat :=
  length (frame_buffers vmbsrc).

Definition with_properties (p : Properties) (s : GstVmbSrc) : GstVmbSrc :=
  {| properties := p; is_acquiring := is_acquiring s;
     supported_formats := supported_formats s; frame_buffers := frame_buffers s;
     filled_frame_queue := filled_frame_queue s;
     num_frames_pushed := num_frames_pushed s; video_info := video_info s;
     queues := queues s; g_allocator := g_allocator s;
     device := device s; sdk_log := sdk_log s |}.

Definition with_is_acquiring (b : bool) (s : GstVmbSrc) : GstVmbSrc :=
  {| properties := properties s; is_acquiring := b;
     supported_formats := supported_formats s; frame_buffers := frame_buffers s;
     filled_frame_queue := filled_frame_queue s;
     num_frames_pushed := num_frames_pushed s; video_info := video_info s;
     queues := queues s; g_allocator := g_allocator s;
     device := device s; sdk_log := sdk_log s |}.

Definition with_frame_buffers (fb : list VmbFrame_t) (s : GstVmbSrc) : GstVmbSrc :=
  {| properties := properties s; is_acquiring := is_acquiring s;
     supported_formats := supported_formats s; frame_buffers := fb;
     filled_frame_queue := filled_frame_queue s;
     num_frames_pushed := num_frames_pushed s; video_info := video_info s;
     queues := queues s; g_allocator := g_allocator s;
     device := device s; sdk_log := sdk_log s |}.

Definition with_filled_frame_queue (q : option nat) (s : GstVmbSrc) : GstVmbSrc :=
  {| properties := properties s; is_acquiring := is_acquiring s;
     supported_formats := supported_formats s; frame_buffers := frame_buffers s;
     filled_frame_queue := q;
     num_frames_pushed := num_frames_pushed s; video_info := video_info s;
     queues := queues s; g_allocator := g_allocator s;
     device := device s; sdk_log := sdk_log s |}.

Definition with_num_frames_pushed (n : Z) (s : GstVmbSrc) : GstVmbSrc :=
  {| properties := properties s; is_acquiring := is_acquiring s;
     supported_formats := supported_formats s; frame_buffers := frame_buffers s;
     filled_frame_queue := filled_frame_queue s;
     num_frames_pushed := n; video_info := video_info s;
     queues := queues s; g_allocator := g_allocator s;
     device := device s; sdk_log := sdk_log s |}.

Definition with_video_info (vi : GstVideoInfo) (s : GstVmbSrc) : GstVmbSrc :=
  {| properties := properties s; is_acquiring := is_acquiring s;
     supported_formats := supported_formats s; frame_buffers := frame_buffers s;
     filled_frame_queue := filled_frame_queue s;
     num_frames_pushed := num_frames_pushed s; video_info := vi;
     queues := queues s; g_allocator := g_allocator s;
     device := device s; sdk_log := sdk_log s |}.

Definition with_queues (qs : list GAsyncQueue) (s : GstVmbSrc) : GstVmbSrc :=
  {| properties := properties s; is_acquiring := is_acquiring s;
     supported_formats := supported_formats s; frame_buffers := frame_buffers s;
     filled_frame_queue := filled_frame_queue s;
     num_frames_pushed := num_frames_pushed s; video_info := video_info s;
     queues := qs; g_allocator := g_allocator s;
     device := device s; sdk_log := sdk_log s |}.

Definition with_sdk_log (l : Transcript) (s : GstVmbSrc) : GstVmbSrc :=
  {| properties := properties s; is_acquiring := is_acquiring s;
     supported_formats := supported_formats s; frame_buffers := frame_buffers s;
     filled_frame_queue := filled_frame_queue s;
     num_frames_pushed := num_frames_pushed s; video_info := video_info s;
     queues := queues s; g_allocator := g_allocator s;
     device := device s; sdk_log := l |}.

(** ** Stateful code: a state monad over the element *)

Definition M (A : Type) : Type := GstVmbSrc -> A * GstVmbSrc.

Definition ret {A} (a : A) : M A := fun s => (a, s).

Definition bind {A B} (m : M A) (k : A -> M B) : M B :=
  fun s => let (a, s1) := m s in k a s1.

Notation "'let*' x ':=' m 'in' k" := (bind m (fun x => k))
  (at level 10, x pattern, m at level 100, k at level 200).
Notation "'do*' m 'in' k" := (bind m (fun _ => k))
  (at level 10, m at level 100, k at level 200).

Definition get {A} (f : GstVmbSrc -> A) : M A := fun s => (f s, s).
Definition modify (f : GstVmbSrc -> GstVmbSrc) : M unit := fun s => (tt, f s).

(** One call into the SDK: the device answers, the transcript grows. *)
Definition sdk (c : VmbCall) : M VmbResponse :=
  fun s =>
    let r := device s (sdk_log s) c in
    (r, with_sdk_log (sdk_log s ++ [(c, r)]) s).

(** [vmbsrc->frame_buffers[i]] and the assignment to it. *)
Definition frame_at (i : nat) (s : GstVmbSrc) : VmbFrame_t :=
  nth i (frame_buffers s) zero_frame.

Definition set_frame (i : nat) (f : VmbFrame_t) : M unit :=
  modify (fun s => with_frame_buffers (<[i := f]> (frame_buffers s)) s).

(** Code that may wait for the device forever (the polling loops of
    [start_image_acquisition] and [stop_image_acquisition], the wait loop
    of [gst_vmbsrc_create]) returns [None] when it has not come back
    within the polls it is given. *)
Definition P (A : Type) : Type := GstVmbSrc -> option (A * GstVmbSrc).

(** ** GLib: asynchronous queues and integer properties *)

(** [g_async_queue_new]: an empty queue object, placed where the
    allocator says.  An allocator hands out only memory that is free:
    the address of an object of the store is taken when that object has
    been freed, and the new object then takes its place; in every other
    case the new object gets an address of its own. *)
Definition reused_address (allocator : GAllocator) (store : list GAsyncQueue)
    : option nat :=
  match allocator store with
  | Some q =>
      match store !! q with
      | Some o => if q_live o then None else Some q
      | None => None
      end
  | None => None
  end.

Definition g_async_queue_new : M nat :=
  fun s =>
    let empty := {| q_items := []; q_live := true |} in
    match reused_address (g_allocator s) (queues s) with
    | Some q => (q, with_queues (<[q := empty]> (queues s)) s)
    | None => (length (queues s), with_queues (queues s ++ [empty]) s)
    end.

(** [g_async_queue_unref] of the only reference: the object is freed. *)
Definition g_async_queue_unref (q : nat) : M unit :=
  modify (fun s =>
    with_queues
      (alter (fun o => {| q_items := q_items o; q_live := false |}) q (queues s)) s).

(** [g_async_queue_push]; a [NULL] queue is refused by GLib's argument
    check.  What a push through a pointer to a freed queue does is not
    defined by C; the store keeps the freed object, and the push is
    written there. *)
Definition g_async_queue_push (q : option nat) (frame : nat) : M unit :=
  match q with
  | None => ret tt
  | Some q =>
      modify (fun s =>
        with_queues
          (alter (fun o => {| q_items := q_items o ++ [frame]; q_live := q_live o |})
                 q (queues s)) s)
  end.

(** [g_async_queue_timeout_pop]: the oldest frame, or [NULL] when the
    queue stayed empty for the whole timeout. *)
Definition g_async_queue_timeout_pop (q : option nat) : M (option nat) :=
  fun s =>
    match q with
    | None => (None, s)
    | Some q =>
        match queues s !! q with
        | Some o =>
            match q_items o with
            | [] => (None, s)
            | frame :: rest =>
                (Some frame,
                 with_queues
                   (<[q := {| q_items := rest; q_live := q_live o |}]> (queues s)) s)
            end
        | None => (None, s)
        end
    end.

Definition INT_MAX : Z := 2147483647.
Definition G_MAXINT : Z := 2147483647.

(** The conversions [(int)x] of a 64-bit value and the 64-bit result of
    an arithmetic operation, with their wrap-around. *)
Definition to_int (z : Z) : Z := (z + 2 ^ 31) mod 2 ^ 32 - 2 ^ 31.
Definition to_int64 (z : Z) : Z := (z + 2 ^ 63) mod 2 ^ 64 - 2 ^ 63.

Definition with_offsetx (v : Z) (p : Properties) : Properties :=
  {| offsetx := v; offsety := offsety p; width := width p; height := height p;
     triggerselector := triggerselector p; triggermode := triggermode p;
     triggersource := triggersource p; triggeractivation := triggeractivation p;
     incomplete_frame_handling := incomplete_frame_handling p;
     allocation_mode := allocation_mode p |}.

Definition with_offsety (v : Z) (p : Properties) : Properties :=
  {| offsetx := offsetx p; offsety := v; width := width p; height := height p;
     triggerselector := triggerselector p; triggermode := triggermode p;
     triggersource := triggersource p; triggeractivation := triggeractivation p;
     incomplete_frame_handling := incomplete_frame_handling p;
     allocation_mode := allocation_mode p |}.

Definition with_width (v : Z) (p : Properties) : Properties :=
  {| offsetx := offsetx p; offsety := offsety p; width := v; height := height p;
     triggerselector := triggerselector p; triggermode := triggermode p;
     triggersource := triggersource p; triggeractivation := triggeractivation p;
     incomplete_frame_handling := incomplete_frame_handling p;
     allocation_mode := allocation_mode p |}.

Definition with_height (v : Z) (p : Properties) : Properties :=
  {| offsetx := offsetx p; offsety := offsety p; width := width p; height := v;
     triggerselector := triggerselector p; triggermode := triggermode p;
     triggersource := triggersource p; triggeractivation := triggeractivation p;
     incomplete_frame_handling := incomplete_frame_handling p;
     allocation_mode := allocation_mode p |}.

(** [g_object_set] on an integer property installed with
    [g_param_spec_int (..., minimum, maximum, ...)]: GObject validates
    the value against the range of the param spec and leaves the property
    alone when it is out of range; otherwise [gst_vmbsrc_set_property]
    stores it. *)
Definition g_object_set_int (minimum maximum : Z)
    (store : Z -> Properties -> Properties) (v : Z) : M unit :=
  if decide (minimum <= v <= maximum)
  then modify (fun s => with_properties (store v (properties s)) s)
  else ret tt.

Definition set_property_offsetx : Z -> M unit := g_object_set_int (-1) G_MAXINT with_offsetx.
Definition set_property_offsety : Z -> M unit := g_object_set_int (-1) G_MAXINT with_offsety.
Definition set_property_width : Z -> M unit := g_object_set_int 0 G_MAXINT with_width.
Definition set_property_height : Z -> M unit := g_object_set_int 0 G_MAXINT with_height.

(** ** The driver thread *)

(** [vimbax_frame_callback]: the completed frame goes to the queue its
    [context[0]] points to. *)
Definition vimbax_frame_callback (frame : nat) : M unit :=
  let* f := get (frame_at frame) in
  g_async_queue_push (context0 f) frame.

(** A frame completed by the device: the descriptor it filled, and the
    receive status and frame id it wrote there (the buffer pointer of the
    descriptor is left as it was announced). *)
Record Completion := {
  c_frame : nat;
  c_status : VmbFrameStatus_t;
  c_frameID : Z
}.

(** The device fills the descriptor and fires the callback. *)
Definition device_completes (c : Completion) : M unit :=
  let* f := get (frame_at (c_frame c)) in
  do* set_frame (c_frame c)
        {| buffer := buffer f; bufferSize := bufferSize f; context0 := context0 f;
           receiveStatus := c_status c; frameID := c_frameID c |} in
  vimbax_frame_callback (c_frame c).

Fixpoint device_completes_all (cs : list Completion) : M unit :=
  match cs with
  | [] => ret tt
  | c :: rest => do* device_completes c in device_completes_all rest
  end.

(** ** The buffer pool *)

(** One iteration of the [for] loop of [alloc_and_announce_buffers], for
    the descriptor [i]; [result] is the local variable of that name.  The
    iteration ends in [inl result] when it leaves the loop by [break] and
    in [inr result] when the loop goes on.  [buffer_alignment] keeps its
    initial value 1 when the query for StreamBufferAlignment fails, as
    the comment in the source expects of the SDK.  The [free] of the
    C library is recorded in the transcript like a call to the SDK. *)
Definition alloc_and_announce_frame (payload_size : Z) (i : nat)
    (result : VmbError_t) : M (VmbError_t + VmbError_t) :=
  let* mode := get (fun s => allocation_mode (properties s)) in
  let* allocated :=
    (if decide (mode = GST_VMBSRC_ALLOCATION_MODE_ANNOUNCE_FRAME) then
       let* ra := sdk (VmbFeatureIntGet "StreamBufferAlignment") in
       let buffer_alignment :=
         if decide (r_err ra = VmbErrorSuccess) then r_val ra else 1 in
       let* rp := sdk (VmbAlignedAlloc buffer_alignment payload_size) in
       let* f := get (frame_at i) in
       do* set_frame i
             {| buffer := r_val rp; bufferSize := bufferSize f;
                context0 := context0 f; receiveStatus := receiveStatus f;
                frameID := frameID f |} in
       if decide (r_val rp = 0) then ret (inl VmbErrorResources)
       else ret (inr (r_err ra))
     else
       let* f := get (frame_at i) in
       do* set_frame i
             {| buffer := 0; bufferSize := bufferSize f;
                context0 := context0 f; receiveStatus := receiveStatus f;
                frameID := frameID f |} in
       ret (inr result)) in
  match allocated with
  | inl broken => ret (inl broken)
  | inr _ =>
      let* f := get (frame_at i) in
      let* q := get filled_frame_queue in
      let announced :=
        {| buffer := buffer f; bufferSize := payload_size; context0 := q;
           receiveStatus := receiveStatus f; frameID := frameID f |} in
      do* set_frame i announced in
      let* r := sdk (VmbFrameAnnounce i announced) in
      if decide (r_err r <> VmbErrorSuccess) then
        do* sdk (libc_free (buffer announced)) in
        do* set_frame i zero_frame in
        ret (inl (r_err r))
      else ret (inr (r_err r))
  end.

(** The [for] loop itself, over the indices still to do. *)
Fixpoint alloc_and_announce_loop (payload_size : Z) (indices : list nat)
    (result : VmbError_t) : M VmbError_t :=
  match indices with
  | [] => ret result
  | i :: rest =>
      let* step := alloc_and_announce_frame payload_size i result in
      match step with
      | inl result => ret result
      | inr result => alloc_and_announce_loop payload_size rest result
      end
  end.

Definition alloc_and_announce_buffers : M VmbError_t :=
  let* r := sdk VmbPayloadSizeGet in
  if decide (r_err r = VmbErrorSuccess) then
    let* n := get NUM_FRAME_BUFFERS in
    alloc_and_announce_loop (r_val r) (seq 0 n) (r_err r)
  else ret (r_err r).

(** The body of the [for] loop of [revoke_and_free_buffers]. *)
Fixpoint revoke_and_free_loop (indices : list nat) : M unit :=
  match indices with
  | [] => ret tt
  | i :: rest =>
      let* f := get (frame_at i) in
      do* (if decide (buffer f <> 0) then
             do* sdk (VmbFrameRevoke i) in
             let* mode := get (fun s => allocation_mode (properties s)) in
             do* (if decide (mode = GST_VMBSRC_ALLOCATION_MODE_ANNOUNCE_FRAME)
                  then do* sdk (VmbAlignedFree (buffer f)) in ret tt
                  else ret tt) in
             set_frame i zero_frame
           else ret tt) in
      revoke_and_free_loop rest
  end.

Definition revoke_and_free_buffers : M unit :=
  let* n := get NUM_FRAME_BUFFERS in
  revoke_and_free_loop (seq 0 n).

(** ** The capture session *)

(** The loop [do { if (IsDone(...) != Success) break; } while (!done)];
    [polls] bounds the number of queries. *)
Fixpoint command_is_done_loop (polls : nat) (name : string) (s : GstVmbSrc)
    : option GstVmbSrc :=
  match polls with
  | O => None
  | S polls' =>
      let (r, s1) := sdk (VmbFeatureCommandIsDone name) s in
      if decide (r_err r <> VmbErrorSuccess) then Some s1
      else if decide (r_val r = 0) then command_is_done_loop polls' name s1
      else Some s1
  end.

(** The loop of [start_image_acquisition] that queues every frame. *)
Fixpoint capture_frame_queue_loop (indices : list nat) (result : VmbError_t)
    : M VmbError_t :=
  match indices with
  | [] => ret result
  | i :: rest =>
      let* r := sdk (VmbCaptureFrameQueue i) in
      if decide (VmbErrorSuccess <> r_err r) then ret (r_err r)
      else capture_frame_queue_loop rest (r_err r)
  end.

Definition start_image_acquisition (polls : nat) : P VmbError_t :=
  fun s =>
    let (r, s1) := sdk VmbCaptureStart s in
    let result := r_err r in
    if decide (result = VmbErrorSuccess) then
      let (result, s2) :=
        capture_frame_queue_loop (seq 0 (NUM_FRAME_BUFFERS s1)) result s1 in
      if decide (VmbErrorSuccess = result) then
        let (r3, s3) := sdk (VmbFeatureCommandRun "AcquisitionStart") s2 in
        let result := r_err r3 in
        match command_is_done_loop polls "AcquisitionStart" s3 with
        | None => None
        | Some s4 => Some (result, with_is_acquiring true s4)
        end
      else Some (result, s2)
    else Some (result, s1).

Definition stop_image_acquisition (polls : nat) : P VmbError_t :=
  fun s =>
    let (r, s1) := sdk (VmbFeatureCommandRun "AcquisitionStop") s in
    let result := r_err r in
    match command_is_done_loop polls "AcquisitionStop" s1 with
    | None => None
    | Some s2 =>
        let s3 := with_is_acquiring false s2 in
        let (r4, s4) := sdk VmbCaptureEnd s3 in
        let result := r_err r4 in
        let (_, s5) := sdk VmbCaptureQueueFlush s4 in
        Some (result, s5)
    end.

(** ** Configuration: trigger and region of interest *)

Fixpoint enum_is_available_loop (feat_name : string) (entries : list nat) : M unit :=
  match entries with
  | [] => ret tt
  | i :: rest =>
      do* sdk (VmbFeatureEnumIsAvailable feat_name i) in
      enum_is_available_loop feat_name rest
  end.

(** [log_available_enum_entries]: only queries. *)
Definition log_available_enum_entries (feat_name : string) : M unit :=
  let* rc := sdk (VmbFeatureEnumRangeQuery feat_name None) in
  let trigger_source_count := r_val rc in
  do* sdk (VmbFeatureEnumRangeQuery feat_name (Some trigger_source_count)) in
  enum_is_available_loop feat_name (seq 0 (Z.to_nat trigger_source_count)).

Definition apply_trigger_settings : M VmbError_t :=
  let result := VmbErrorSuccess in
  (* TriggerSelector *)
  let* enum_entry := get (fun s => triggerselector (properties s)) in
  let* result :=
    (if decide (enum_entry = GST_VMBSRC_TRIGGERSELECTOR_UNCHANGED) then ret result
     else
       let* r := sdk (VmbFeatureEnumSet "TriggerSelector" (triggerselector_nick enum_entry)) in
       do* (if decide (r_err r = VmbErrorSuccess) then ret tt
            else if decide (r_err r = VmbErrorInvalidValue)
                 then log_available_enum_entries "TriggerSelector"
                 else ret tt) in
       ret (r_err r)) in
  (* TriggerActivation *)
  let* enum_entry := get (fun s => triggeractivation (properties s)) in
  let* result :=
    (if decide (enum_entry = GST_VMBSRC_TRIGGERACTIVATION_UNCHANGED) then ret result
     else
       let* r := sdk (VmbFeatureEnumSet "TriggerActivation" (triggeractivation_nick enum_entry)) in
       do* (if decide (r_err r = VmbErrorSuccess) then ret tt
            else if decide (r_err r = VmbErrorInvalidValue)
                 then log_available_enum_entries "TriggerActivation"
                 else ret tt) in
       ret (r_err r)) in
  (* TriggerSource *)
  let* enum_entry := get (fun s => triggersource (properties s)) in
  let* result :=
    (if decide (enum_entry = GST_VMBSRC_TRIGGERSOURCE_UNCHANGED) then ret result
     else
       let* r := sdk (VmbFeatureEnumSet "TriggerSource" (triggersource_nick enum_entry)) in
       do* (if decide (r_err r = VmbErrorSuccess) then ret tt
            else if decide (r_err r = VmbErrorInvalidValue)
                 then log_available_enum_entries "TriggerSource"
                 else ret tt) in
       ret (r_err r)) in
  (* TriggerMode *)
  let* enum_entry := get (fun s => triggermode (properties s)) in
  let* result :=
    (if decide (enum_entry = GST_VMBSRC_TRIGGERMODE_UNCHANGED) then ret result
     else
       let* r := sdk (VmbFeatureEnumSet "TriggerMode" (triggermode_nick enum_entry)) in
       ret (r_err r)) in
  ret result.

Section RegionOfInterest.

(** [RoundToNearestValidValue (value, min, max, increment)] is declared
    in helpers.h, which is not part of the sources at hand; [set_roi]
    is embedded over whatever function stands behind that name. *)
Variable RoundToNearestValidValue : Z -> Z -> Z -> Z -> Z.

Definition set_roi : M VmbError_t :=
  do* sdk (VmbFeatureIntSet "OffsetX" 0) in
  do* sdk (VmbFeatureIntSet "OffsetY" 0) in
  (* Width: the range query leaves the maximum in [vmb_width] *)
  let* rw := sdk (VmbFeatureIntRangeQuery "Width") in
  let vmb_width := r_val2 rw in
  let* w := get (fun s => width (properties s)) in
  do* (if decide (w = INT_MAX) then set_property_width (to_int vmb_width) else ret tt) in
  let* w := get (fun s => width (properties s)) in
  do* sdk (VmbFeatureIntSet "Width" w) in
  (* Height *)
  let* rh := sdk (VmbFeatureIntRangeQuery "Height") in
  let vmb_height := r_val2 rh in
  let* h := get (fun s => height (properties s)) in
  do* (if decide (h = INT_MAX) then set_property_height (to_int vmb_height) else ret tt) in
  let* h := get (fun s => height (properties s)) in
  do* sdk (VmbFeatureIntSet "Height" h) in
  (* offsetx *)
  let* ox := get (fun s => offsetx (properties s)) in
  do* (if decide (ox = -1) then
         let* w := get (fun s => width (properties s)) in
         let vmb_offsetx := Z.shiftr (to_int64 (vmb_width - w)) 1 in
         let* rr := sdk (VmbFeatureIntRangeQuery "OffsetX") in
         let* vmb_offsetx :=
           (if decide (r_err rr = VmbErrorSuccess) then
              let offsetx_min := r_val rr in
              let offsetx_max := r_val2 rr in
              let* ri := sdk (VmbFeatureIntIncrementQuery "OffsetX") in
              if decide (r_err ri = VmbErrorSuccess) then
                let offsetx_increment := r_val ri in
                let valid_vmb_offsetx :=
                  RoundToNearestValidValue vmb_offsetx offsetx_min offsetx_max
                                           offsetx_increment in
                if decide (valid_vmb_offsetx <> vmb_offsetx)
                then ret valid_vmb_offsetx
                else ret vmb_offsetx
              else ret vmb_offsetx
            else ret vmb_offsetx) in
         set_property_offsetx (to_int vmb_offsetx)
       else ret tt) in
  let* ox := get (fun s => offsetx (properties s)) in
  do* sdk (VmbFeatureIntSet "OffsetX" ox) in
  (* offsety *)
  let* oy := get (fun s => offsety (properties s)) in
  do* (if decide (oy = -1) then
         let* h := get (fun s => height (properties s)) in
         let vmb_offsety := Z.shiftr (to_int64 (vmb_height - h)) 1 in
         let* rr := sdk (VmbFeatureIntRangeQuery "OffsetY") in
         let* vmb_offsety :=
           (if decide (r_err rr = VmbErrorSuccess) then
              let offsety_min := r_val rr in
              let offsety_max := r_val2 rr in
              let* ri := sdk (VmbFeatureIntIncrementQuery "OffsetY") in
              if decide (r_err ri = VmbErrorSuccess) then
                let offsety_increment := r_val ri in
                let valid_vmb_offsety :=
                  RoundToNearestValidValue vmb_offsety offsety_min offsety_max
                                           offsety_increment in
                if decide (valid_vmb_offsety <> vmb_offsety)
                then ret valid_vmb_offsety
                else ret vmb_offsety
              else ret vmb_offsety
            else ret vmb_offsety) in
         set_property_offsety (to_int vmb_offsety)
       else ret tt) in
  let* oy := get (fun s => offsety (properties s)) in
  let* r := sdk (VmbFeatureIntSet "OffsetY" oy) in
  ret (r_err r).

End RegionOfInterest.

(** ** Caps negotiation *)

(** The lookup loop of [gst_vmbsrc_set_caps]: the VimbaX name of the
    first supported format whose GStreamer name is [gst_format]. *)
Fixpoint find_vimbax_format (gst_format : string)
    (formats : list VimbaXGstFormatMatch_t) : option string :=
  match formats with
  | [] => None
  | f :: rest =>
      if String.eqb gst_format (gst_format_name f)
      then Some (vimbax_format_name f)
      else find_vimbax_format gst_format rest
  end.

(** The block of [gst_vmbsrc_set_caps] that drops the queue of the old
    format and puts a new queue in its place. *)
Definition replace_filled_frame_queue : M unit :=
  let* current := get filled_frame_queue in
  match current with
  | Some q =>
      do* g_async_queue_unref q in
      let* q' := g_async_queue_new in
      modify (with_filled_frame_queue (Some q'))
  | None => ret tt
  end.

Definition gst_vmbsrc_set_caps (polls : nat) (caps : GstCaps) : P bool :=
  fun s =>
    match find_vimbax_format (caps_format caps) (supported_formats s) with
    | None => Some (false, s)
    | Some vimbax_format =>
        match stop_image_acquisition polls s with
        | None => None
        | Some (_, s1) =>
            let (_, s2) := replace_filled_frame_queue s1 in
            let (r, s3) := sdk (VmbFeatureEnumSet "PixelFormat" vimbax_format) s2 in
            if decide (r_err r <> VmbErrorSuccess) then Some (false, s3)
            else
              let (rp, s4) := sdk VmbPayloadSizeGet s3 in
              let new_payload_size := r_val rp in
              let (result, s5) :=
                (if decide (bufferSize (frame_at 0 s4) < new_payload_size
                            \/ r_err rp <> VmbErrorSuccess)
                 then do* revoke_and_free_buffers in alloc_and_announce_buffers
                 else ret (r_err rp)) s4 in
              match (if decide (result = VmbErrorSuccess)
                     then start_image_acquisition polls s5
                     else Some (result, s5)) with
              | None => None
              | Some (result, s6) =>
                  if decide (result = VmbErrorSuccess) then
                    match caps_video_info caps with
                    | Some vi => Some (true, with_video_info vi s6)
                    | None => Some (false, s6)
                    end
                  else Some (false, s6)
              end
        end
    end.

(** ** The frame dispatcher *)

(** What the streaming thread meets at one poll of its wait loop: the
    frames the device completed since the previous poll, and the state
    [gst_element_get_state] reports. *)
Record Tick := {
  completed : list Completion;
  element_state : GstState
}.

(** [GST_FLOW_OK] comes with the buffer stored in [*buf]; the descriptor
    it was filled from (the local [frame]) is kept next to it. *)
Inductive GstFlowReturn :=
| GST_FLOW_FLUSHING
| GST_FLOW_OK (frame : nat) (buf : GstBuffer).

(** The tail of [gst_vmbsrc_create] after the wait loop.  The strides
    are products of two [gint] and are cut down to that type. *)
Definition submit_frame (frame : nat) : M GstFlowReturn :=
  let* f := get (frame_at frame) in
  do* sdk (VmbCaptureFrameQueue frame) in
  let* vi := get video_info in
  let stride :=
    map (fun pixel_stride => to_int (vi_width vi * pixel_stride))
        (take (vi_n_planes vi) (vi_pixel_stride vi)) in
  let* n := get num_frames_pushed in
  do* modify (with_num_frames_pushed (n + 1)) in
  ret (GST_FLOW_OK frame
         {| gb_size := bufferSize f; gb_data := buffer f;
            gb_offset := n; gb_offset_end := n + 1; gb_stride := stride |}).

(** [gst_vmbsrc_create].  Both [do ... while] loops advance by one poll
    of the queue per iteration, so they are unrolled along the list of
    polls; running out of polls while still waiting is [None]. *)
Fixpoint gst_vmbsrc_create (ticks : list Tick) (s : GstVmbSrc)
    : option (GstFlowReturn * GstVmbSrc) :=
  match ticks with
  | [] => None
  | t :: later =>
      let (_, s0) := device_completes_all (completed t) s in
      let (frame, s1) := g_async_queue_timeout_pop (filled_frame_queue s0) s0 in
      if decide (element_state t <> GST_STATE_PLAYING) then
        Some (GST_FLOW_FLUSHING, s1)
      else
        match frame with
        | None => gst_vmbsrc_create later s1
        | Some frame =>
            if decide (receiveStatus (frame_at frame s1) = VmbFrameStatusIncomplete) then
              if decide (incomplete_frame_handling (properties s1)
                         = GST_VMBSRC_INCOMPLETE_FRAME_HANDLING_SUBMIT)
              then Some (submit_frame frame s1)
              else
                let (_, s2) := sdk (VmbCaptureFrameQueue frame) s1 in
                gst_vmbsrc_create later s2
            else Some (submit_frame frame s1)
        end
  end.

(** ** Observing a run *)

(** The calls a run made: what the transcript of [s'] has beyond the
    transcript of [s]. *)
Definition calls_since (s s' : GstVmbSrc) : Transcript :=
  drop (length (sdk_log s)) (sdk_log s').

Definition is_enum_set (c : VmbCall) : bool :=
  match c with VmbFeatureEnumSet _ _ => true | _ => false end.

(** The enum features set on the device, in the order of the calls. *)
Definition enum_sets (evs : Transcript) : list VmbCall :=
  filter (fun c => is_enum_set c = true) (map fst evs).

(** The sets [apply_trigger_settings] is expected to issue for the
    trigger properties [p]. *)
Definition trigger_sets (p : Properties) : list VmbCall :=
  (if decide (triggerselector p = GST_VMBSRC_TRIGGERSELECTOR_UNCHANGED) then []
   else [VmbFeatureEnumSet "TriggerSelector" (triggerselector_nick (triggerselector p))])
  ++ (if decide (triggeractivation p = GST_VMBSRC_TRIGGERACTIVATION_UNCHANGED) then []
      else [VmbFeatureEnumSet "TriggerActivation"
              (triggeractivation_nick (triggeractivation p))])
  ++ (if decide (triggersource p = GST_VMBSRC_TRIGGERSOURCE_UNCHANGED) then []
      else [VmbFeatureEnumSet "TriggerSource" (triggersource_nick (triggersource p))])
  ++ (if decide (triggermode p = GST_VMBSRC_TRIGGERMODE_UNCHANGED) then []
      else [VmbFeatureEnumSet "TriggerMode" (triggermode_nick (triggermode p))]).

(** [r] is reached from [s] by appending [evs] to the transcript,
    without touching the properties. *)
Definition config_run (s r : GstVmbSrc) (evs : Transcript) : Prop :=
  sdk_log r = sdk_log s ++ evs /\ properties r = properties s.

Definition is_int_set (name : string) (c : VmbCall) : bool :=
  match c with VmbFeatureIntSet n _ => String.eqb n name | _ => false end.

(** The sets of the integer feature [name], in the order of the calls. *)
Definition int_sets (name : string) (evs : Transcript) : list VmbCall :=
  filter (fun c => is_int_set name c = true) (map fst evs).

(** ** Reference cameras and elements

    Concrete environments on which the statements below are exercised. *)

Definition answer (v v2 : Z) : VmbResponse :=
  {| r_err := VmbErrorSuccess; r_val := v; r_val2 := v2 |}.

Definition failure (e : VmbError_t) : VmbResponse :=
  {| r_err := e; r_val := 0; r_val2 := 0 |}.

(** A camera with a 1920 x 1080 sensor that accepts every call, confirms
    every command at the first poll, reports a payload of 4096 bytes and
    whose allocator hands out a new address at every call. *)
Definition cooperative_camera : Device :=
  fun history c =>
    match c with
    | VmbFeatureIntRangeQuery name =>
        if String.eqb name "Width" then answer 8 1920
        else if String.eqb name "Height" then answer 8 1080
        else if String.eqb name "OffsetX" then answer 0 1280
        else answer 0 1080
    | VmbFeatureIntIncrementQuery _ => answer 2 0
    | VmbFeatureIntGet _ => answer 1 0
    | VmbPayloadSizeGet => answer 4096 0
    | VmbAlignedAlloc _ _ => answer (4096 * (1 + Z.of_nat (length history))) 0
    | VmbFeatureCommandIsDone _ => answer 1 0
    | _ => answer 0 0
    end.

(** The defaults installed by [gst_vmbsrc_class_init]. *)
Definition default_properties : Properties :=
  {| offsetx := 0; offsety := 0; width := G_MAXINT; height := G_MAXINT;
     triggerselector := GST_VMBSRC_TRIGGERSELECTOR_UNCHANGED;
     triggermode := GST_VMBSRC_TRIGGERMODE_UNCHANGED;
     triggersource := GST_VMBSRC_TRIGGERSOURCE_UNCHANGED;
     triggeractivation := GST_VMBSRC_TRIGGERACTIVATION_UNCHANGED;
     incomplete_frame_handling := GST_VMBSRC_INCOMPLETE_FRAME_HANDLING_DROP;
     allocation_mode := GST_VMBSRC_ALLOCATION_MODE_ANNOUNCE_FRAME |}.

(** An element right after [gst_vmbsrc_start] created its queue: [n]
    zeroed descriptors, nothing said to the camera yet, on an allocator
    that never uses an address twice. *)
Definition started_element (camera : Device) (n : nat) (p : Properties) : GstVmbSrc :=
  {| properties := p;
     is_acquiring := false;
     supported_formats :=
       [ {| vimbax_format_name := "Mono8"; gst_format_name := "GRAY8" |};
         {| vimbax_format_name := "RGB8"; gst_format_name := "RGB" |} ];
     frame_buffers := replicate n zero_frame;
     filled_frame_queue := Some 0%nat;
     num_frames_pushed := 0;
     video_info := {| vi_width := 0; vi_height := 0; vi_n_planes := 0;
                      vi_pixel_stride := [] |};
     queues := [ {| q_items := []; q_live := true |} ];
     g_allocator := fun _ => None;
     device := camera;
     sdk_log := [] |}.

(** The trigger configuration of the specification's example. *)
Definition frame_start_trigger : Properties :=
  {| offsetx := 0; offsety := 0; width := G_MAXINT; height := G_MAXINT;
     triggerselector := GST_VMBSRC_TRIGGERSELECTOR_FRAME_START;
     triggermode := GST_VMBSRC_TRIGGERMODE_ON;
     triggersource := GST_VMBSRC_TRIGGERSOURCE_LINE0;
     triggeractivation := GST_VMBSRC_TRIGGERACTIVATION_RISING_EDGE;
     incomplete_frame_handling := GST_VMBSRC_INCOMPLETE_FRAME_HANDLING_DROP;
     allocation_mode := GST_VMBSRC_ALLOCATION_MODE_ANNOUNCE_FRAME |}.

(** ** Frame conditions

    [keeps R m]: every run of [m] relates the state it starts from to the
    state it ends in by [R]. *)
Definition keeps {A} (R : relation GstVmbSrc) (m : M A) : Prop :=
  forall s, R s (m s).2.

Definition keepsP {A} (R : relation GstVmbSrc) (m : P A) : Prop :=
  forall s a s', m s = Some (a, s') -> R s s'.

(** The run only appended calls that satisfy [allowed]. *)
Definition only_calls (allowed : VmbCall -> Prop) : relation GstVmbSrc :=
  fun s s' =>
    exists evs, sdk_log s' = sdk_log s ++ evs /\ Forall (fun e => allowed e.1) evs.

(** The run left the component [f] of the element alone. *)
Definition same {X} (f : GstVmbSrc -> X) : relation GstVmbSrc :=
  fun s s' => f s' = f s.

(** The calls [revoke_and_free_buffers] is expected to make on a pool
    [frames] whose first descriptor has index [i]. *)
Fixpoint revoke_calls (mode : AllocationMode) (i : nat) (frames : list VmbFrame_t)
    : list VmbCall :=
  match frames with
  | [] => []
  | f :: rest =>
      (if decide (buffer f <> 0) then
         VmbFrameRevoke i ::
           (if decide (mode = GST_VMBSRC_ALLOCATION_MODE_ANNOUNCE_FRAME)
            then [VmbAlignedFree (buffer f)] else [])
       else [])
      ++ revoke_calls mode (S i) rest
  end.

(** What [revoke_and_free_buffers] does to one descriptor. *)
Definition revoked (f : VmbFrame_t) : VmbFrame_t :=
  if decide (buffer f <> 0) then zero_frame else f.

(** Calls that give memory back or take a frame away from the device. *)
Definition is_release (c : VmbCall) : Prop :=
  match c with
  | VmbAlignedFree _ | libc_free _ | VmbFrameRevoke _ => True
  | _ => False
  end.

(** Calls that belong to the buffer pool. *)
Definition is_pool_call (c : VmbCall) : Prop :=
  match c with
  | VmbAlignedAlloc _ _ | VmbAlignedFree _ | libc_free _
  | VmbFrameAnnounce _ _ | VmbFrameRevoke _ => True
  | _ => False
  end.

(** A camera whose allocator is exhausted after the first buffer: the
    second [VmbAlignedAlloc] of [alloc_and_announce_buffers] (the sixth
    call of that function) returns [NULL]. *)
Definition exhausted_allocator : Device :=
  fun history c =>
    match c with
    | VmbAlignedAlloc _ _ =>
        if decide (length history < 5)%nat
        then answer (4096 * (1 + Z.of_nat (length history))) 0
        else answer 0 0
    | _ => cooperative_camera history c
    end.


Definition is_aligned_alloc (c : VmbCall) : Prop :=
  match c with VmbAlignedAlloc _ _ => True | _ => False end.

Definition is_announce (c : VmbCall) : Prop :=
  match c with VmbFrameAnnounce _ _ => True | _ => False end.

(** The caps of the reference elements: [GRAY8], 1920 x 1080. *)
Definition gray8_caps : GstCaps :=
  {| caps_format := "GRAY8";
     caps_video_info :=
       Some {| vi_width := 1920; vi_height := 1080; vi_n_planes := 1;
               vi_pixel_stride := [1] |} |}.

(** An element that is streaming: started, then taken through
    [gst_vmbsrc_set_caps], which allocated and announced the buffers and
    started the acquisition. *)
Definition streaming_element (camera : Device) (n : nat) (p : Properties) : GstVmbSrc :=
  match gst_vmbsrc_set_caps 1 gray8_caps (started_element camera n p) with
  | Some (_, s) => s
  | None => started_element camera n p
  end.

(** A camera whose completion query for commands fails. *)
Definition unconfirming_camera : Device :=
  fun history c =>
    match c with
    | VmbFeatureCommandIsDone _ => failure VmbErrorTimeout
    | _ => cooperative_camera history c
    end.

(** A camera that rejects the acquisition commands and whose completion
    query fails. *)
Definition command_rejecting_camera : Device :=
  fun history c =>
    match c with
    | VmbFeatureCommandRun _ => failure VmbErrorInvalidValue
    | VmbFeatureCommandIsDone _ => failure VmbErrorTimeout
    | _ => cooperative_camera history c
    end.

(** A camera that accepts every command and never reports it done. *)
Definition never_done_camera : Device :=
  fun history c =>
    match c with
    | VmbFeatureCommandIsDone _ => answer 0 0
    | _ => cooperative_camera history c
    end.

(** What a caller sees of a start or stop: the code returned and the
    calls made to the camera. *)
Definition outcome (o : option (VmbError_t * GstVmbSrc)) : option (VmbError_t * Transcript) :=
  match o with
  | Some (r, s') => Some (r, sdk_log s')
  | None => None
  end.

(** A started element whose pool has been allocated and announced. *)
Definition pooled_element (camera : Device) (n : nat) (p : Properties) : GstVmbSrc :=
  (alloc_and_announce_buffers (started_element camera n p)).2.

(** A streaming element in whose queue the device has just put the
    complete frame 0. *)
Definition element_with_filled_frame : GstVmbSrc :=
  (device_completes
     {| c_frame := 0; c_status := VmbFrameStatusComplete; c_frameID := 7 |}
     (streaming_element cooperative_camera 3 default_properties)).2.

(** A poll at which nothing new has arrived and the element is PAUSED. *)
Definition paused_tick : Tick :=
  {| completed := []; element_state := GST_STATE_PAUSED |}.

(** A poll at which the device has completed frame 1 incompletely and
    the element is PLAYING. *)
Definition incomplete_tick : Tick :=
  {| completed := [ {| c_frame := 1; c_status := VmbFrameStatusIncomplete;
                       c_frameID := 8 |} ];
     element_state := GST_STATE_PLAYING |}.

(** The frames waiting in the queue the element drains. *)
Definition filled_frames (s : GstVmbSrc) : list nat :=
  match filled_frame_queue s with
  | Some q => match queues s !! q with Some o => q_items o | None => [] end
  | None => []
  end.

(** Calls that belong to the capture session. *)
Definition is_session_call (c : VmbCall) : Prop :=
  match c with
  | VmbCaptureStart | VmbCaptureEnd | VmbCaptureQueueFlush
  | VmbCaptureFrameQueue _ | VmbFeatureCommandRun _
  | VmbFeatureCommandIsDone _ => True
  | _ => False
  end.

(** What starting and stopping the acquisition leave alone: they only
    make session calls, and touch neither the pool, nor the properties,
    nor the queues, nor the camera. *)
Definition session_step : relation GstVmbSrc :=
  fun s s' =>
    only_calls is_session_call s s'
    /\ frame_buffers s' = frame_buffers s
    /\ properties s' = properties s
    /\ filled_frame_queue s' = filled_frame_queue s
    /\ queues s' = queues s
    /\ device s' = device s
    /\ supported_formats s' = supported_formats s.

(** An element that has been through [gst_vmbsrc_set_caps] twice. *)
Definition renegotiated_element (camera : Device) (n : nat) (p : Properties) : GstVmbSrc :=
  match gst_vmbsrc_set_caps 1 gray8_caps (streaming_element camera n p) with
  | Some (_, s) => s
  | None => streaming_element camera n p
  end.

(** The width [set_roi] works with once it has dealt with the Width
    feature: the explicit property, or, when the property holds
    [INT_MAX], the sensor width the camera reports (which the property
    takes over unless it is out of the range of the property). *)
Definition resolved_width (p : Properties) (sensor_width : Z) : Z :=
  if decide (width p = INT_MAX) then
    if decide (0 <= to_int sensor_width <= G_MAXINT) then to_int sensor_width
    else width p
  else width p.

(** A value the camera accepts for a feature with the given range and
    increment. *)
Definition valid_value (value minimum maximum increment : Z) : Prop :=
  minimum <= value <= maximum /\ (value - minimum) mod increment = 0.

(** Modelled from the spec: [RoundToNearestValidValue] of helpers.h
    (not part of the sources at hand), as "rounded to the nearest valid
    value respecting the device's reported min/max/increment": the value
    is brought into the range, moved to the nearest step above the
    minimum, and taken one step down if that leaves the range. *)
Definition RoundToNearestValidValue_model (value minimum maximum increment : Z) : Z :=
  if decide (increment <= 0) then Z.max minimum (Z.min maximum value)
  else
    let clamped := Z.max minimum (Z.min maximum value) in
    let steps := (clamped - minimum + increment / 2) / increment in
    let rounded := minimum + steps * increment in
    if decide (maximum < rounded) then rounded - increment else rounded.

(** What is left of [set_roi] once OffsetX has been set does not touch
    Width or OffsetX any more. *)
Definition after_offsetx : relation GstVmbSrc :=
  fun s s' =>
    only_calls (fun c => is_int_set "Width" c = false
                         /\ is_int_set "OffsetX" c = false) s s'
    /\ offsetx (properties s') = offsetx (properties s)
    /\ width (properties s') = width (properties s).

(** The region of interest of the specification's example: width 640,
    both offsets centred. *)
Definition centred_roi : Properties :=
  {| offsetx := -1; offsety := -1; width := 640; height := 480;
     triggerselector := GST_VMBSRC_TRIGGERSELECTOR_UNCHANGED;
     triggermode := GST_VMBSRC_TRIGGERMODE_UNCHANGED;
     triggersource := GST_VMBSRC_TRIGGERSOURCE_UNCHANGED;
     triggeractivation := GST_VMBSRC_TRIGGERACTIVATION_UNCHANGED;
     incomplete_frame_handling := GST_VMBSRC_INCOMPLETE_FRAME_HANDLING_DROP;
     allocation_mode := GST_VMBSRC_ALLOCATION_MODE_ANNOUNCE_FRAME |}.

(** ** Stopping the element *)

(** [gst_vmbsrc_stop].  [g_async_queue_unref] refuses a [NULL] queue in
    its argument check. *)
Definition gst_vmbsrc_stop (polls : nat) : P bool :=
  fun s =>
    match stop_image_acquisition polls s with
    | None => None
    | Some (_, s1) =>
        let (_, s2) := revoke_and_free_buffers s1 in
        let (_, s3) :=
          match filled_frame_queue s2 with
          | Some q => g_async_queue_unref q s2
          | None => ret tt s2
          end in
        Some (true, s3)
    end.

(** ** Reading and writing properties

    [gst_vmbsrc_set_property] and [gst_vmbsrc_get_property] for the two
    policies and, for the getter, the integer properties.  An enum value
    travels in its [GValue] as the constant of its enumeration. *)







(** The integer cases of [gst_vmbsrc_get_property]: the feature is read
    from the camera; a value that could be read is cut down to [int] and
    stored, and the stored value is handed out. *)
Definition get_property_int (feature : string) (stored : Properties -> Z)
    (store : Z -> Properties -> Properties) : M Z :=
  let* r := sdk (VmbFeatureIntGet feature) in
  do* (if decide (r_err r = VmbErrorSuccess)
       then modify (fun s => with_properties (store (to_int (r_val r)) (properties s)) s)
       else ret tt) in
  get (fun s => stored (properties s)).

Definition get_property_offsetx : M Z := get_property_int "OffsetX" offsetx with_offsetx.
Definition get_property_offsety : M Z := get_property_int "OffsetY" offsety with_offsety.
Definition get_property_width : M Z := get_property_int "Width" width with_width.
Definition get_property_height : M Z := get_property_int "Height" height with_height.

(** ** Accounting for buffer memory *)

(** The address a call to [VmbAlignedAlloc] handed out; [NULL] is no
    address. *)
Definition allocated_address (ev : VmbCall * VmbResponse) : option Z :=
  match ev.1 with
  | VmbAlignedAlloc _ _ => if decide (r_val ev.2 = 0) then None else Some (r_val ev.2)
  | _ => None
  end.

(** The address a call gives back, through [VmbAlignedFree] or through
    [free]; freeing [NULL] gives nothing back. *)
Definition released_address (c : VmbCall) : option Z :=
  match c with
  | VmbAlignedFree ptr | libc_free ptr => if decide (ptr = 0) then None else Some ptr
  | _ => None
  end.

(** The addresses handed out, and the addresses given back, in the
    order of the calls. *)
Definition allocated (evs : Transcript) : list Z := omap allocated_address evs.

Definition released (evs : Transcript) : list Z :=
  omap (fun ev => released_address ev.1) evs.

(** The addresses the descriptors of a pool hold. *)
Definition held_by (frames : list VmbFrame_t) : list Z :=
  filter (fun ptr => ptr <> 0) (map buffer frames).

(** The descriptor [alloc_and_announce_buffers] announces for the index
    [i] once it has the buffer address [ptr]. *)
Definition announced_frame (payload_size ptr : Z) (i : nat) (s : GstVmbSrc) : VmbFrame_t :=
  {| buffer := ptr; bufferSize := payload_size; context0 := filled_frame_queue s;
     receiveStatus := receiveStatus (frame_at i s); frameID := frameID (frame_at i s) |}.

(** The descriptors handed to [VmbFrameAnnounce], with their index, in
    the order of the calls. *)
Definition announced (evs : Transcript) : list (nat * VmbFrame_t) :=
  omap (fun ev => match ev.1 with
                  | VmbFrameAnnounce i f => Some (i, f)
                  | _ => None
                  end) evs.

(** ** More observations of a run *)

(** The codes the device answered to the enum features set in a run, in
    the order of the calls. *)
Definition enum_set_codes (evs : Transcript) : list VmbError_t :=
  omap (fun ev => if is_enum_set ev.1 then Some (r_err ev.2) else None) evs.

(** No enum feature set in the run was answered with
    [VmbErrorInvalidValue]. *)
Definition no_invalid_value (evs : Transcript) : Prop :=
  Forall (fun ev => is_enum_set ev.1 = true -> r_err ev.2 <> VmbErrorInvalidValue) evs.

(** A run of a configuration step that ends by setting OffsetY to the
    value of the offsety property and returns the code of that call. *)
Definition ends_with_offsety (s0 : GstVmbSrc) (run : VmbError_t * GstVmbSrc) : Prop :=
  exists mid r_last,
    sdk_log run.2
    = sdk_log s0 ++ mid
      ++ [(VmbFeatureIntSet "OffsetY" (offsety (properties run.2)), r_last)]
    /\ run.1 = r_err r_last.

(** The height [set_roi] works with once it has dealt with the Height
    feature, as [resolved_width] for the width. *)
Definition resolved_height (p : Properties) (sensor_height : Z) : Z :=
  if decide (height p = INT_MAX) then
    if decide (0 <= to_int sensor_height <= G_MAXINT) then to_int sensor_height
    else height p
  else height p.

(** Every descriptor of the pool hands its frames to the queue the
    element drains, and that queue exists. *)
Definition routed (s : GstVmbSrc) : Prop :=
  exists q, filled_frame_queue s = Some q
            /\ (q < length (queues s))%nat
            /\ Forall (fun f => context0 f = Some q) (frame_buffers s).

(** ** More reference cameras and elements *)

(** A poll at which the device has completed the frames 2 and 0, in this
    order, and the element is PLAYING. *)
Definition complete_tick : Tick :=
  {| completed := [ {| c_frame := 2; c_status := VmbFrameStatusComplete;
                       c_frameID := 9 |};
                    {| c_frame := 0; c_status := VmbFrameStatusComplete;
                       c_frameID := 10 |} ];
     element_state := GST_STATE_PLAYING |}.

(** A poll at which nothing has arrived and the element is PLAYING. *)
Definition idle_tick : Tick :=
  {| completed := []; element_state := GST_STATE_PLAYING |}.

(** The defaults, with incomplete frames passed on. *)
Definition submit_properties : Properties :=
  {| offsetx := 0; offsety := 0; width := G_MAXINT; height := G_MAXINT;
     triggerselector := GST_VMBSRC_TRIGGERSELECTOR_UNCHANGED;
     triggermode := GST_VMBSRC_TRIGGERMODE_UNCHANGED;
     triggersource := GST_VMBSRC_TRIGGERSOURCE_UNCHANGED;
     triggeractivation := GST_VMBSRC_TRIGGERACTIVATION_UNCHANGED;
     incomplete_frame_handling := GST_VMBSRC_INCOMPLETE_FRAME_HANDLING_SUBMIT;
     allocation_mode := GST_VMBSRC_ALLOCATION_MODE_ANNOUNCE_FRAME |}.

(** A camera that refuses to have the frame 1 announced. *)
Definition announce_refusing_camera : Device :=
  fun history c =>
    match c with
    | VmbFrameAnnounce 1 _ => failure VmbErrorBadParameter
    | _ => cooperative_camera history c
    end.

(** A camera that reports 16 for every integer feature. *)
Definition offset_reporting_camera : Device :=
  fun history c =>
    match c with
    | VmbFeatureIntGet _ => answer 16 0
    | _ => cooperative_camera history c
    end.

(** A camera that cannot deliver RGB8. *)
Definition rgb_rejecting_camera : Device :=
  fun history c =>
    match c with
    | VmbFeatureEnumSet name value =>
        if String.eqb name "PixelFormat" && String.eqb value "RGB8"
        then failure VmbErrorInvalidValue
        else cooperative_camera history c
    | _ => cooperative_camera history c
    end.

(** Caps of the second format of the reference elements: [RGB],
    1920 x 1080. *)
Definition rgb_caps : GstCaps :=
  {| caps_format := "RGB";
     caps_video_info :=
       Some {| vi_width := 1920; vi_height := 1080; vi_n_planes := 1;
               vi_pixel_stride := [3] |} |}.

(** Caps in a format the reference elements do not list. *)
Definition bgr_caps : GstCaps :=
  {| caps_format := "BGR";
     caps_video_info :=
       Some {| vi_width := 1920; vi_height := 1080; vi_n_planes := 1;
               vi_pixel_stride := [3] |} |}.

(** The region of interest with every value explicit. *)
Definition explicit_roi : Properties :=
  {| offsetx := 16; offsety := 8; width := 640; height := 480;
     triggerselector := GST_VMBSRC_TRIGGERSELECTOR_UNCHANGED;
     triggermode := GST_VMBSRC_TRIGGERMODE_UNCHANGED;
     triggersource := GST_VMBSRC_TRIGGERSOURCE_UNCHANGED;
     triggeractivation := GST_VMBSRC_TRIGGERACTIVATION_UNCHANGED;
     incomplete_frame_handling := GST_VMBSRC_INCOMPLETE_FRAME_HANDLING_DROP;
     allocation_mode := GST_VMBSRC_ALLOCATION_MODE_ANNOUNCE_FRAME |}.

(** ** The lifetime of the VmbC API

    [vmb_open_count] is a global of the plugin, shared by all its
    elements; it is an [unsigned int] and wraps around.  The calls that
    concern the API as a whole are kept in a transcript of their own. *)

Inductive VmbApiCall :=
| VmbStartup
| VmbVersionQuery
| VmbCameraClose
| VmbShutdown.

Record VmbApi := {
  vmb_open_count : Z;
  api_log : list VmbApiCall
}.

Definition to_uint (z : Z) : Z := z mod 2 ^ 32.

(** The part of [gst_vmbsrc_init] that looks after the API: the test
    [0 == vmb_open_count++] and the query for the version.  The
    defaults it goes on to install are [default_properties]. *)
Definition gst_vmbsrc_init (api : VmbApi) : VmbApi :=
  let count := vmb_open_count api in
  {| vmb_open_count := to_uint (count + 1);
     api_log := (api_log api ++ (if decide (0 = count) then [VmbStartup] else []))
                ++ [VmbVersionQuery] |}.

(** [gst_vmbsrc_finalize] of an element whose [camera.is_connected] is
    [is_connected]: the test is [0 == --vmb_open_count]. *)
Definition gst_vmbsrc_finalize (is_connected : bool) (api : VmbApi) : VmbApi :=
  let count := to_uint (vmb_open_count api - 1) in
  {| vmb_open_count := count;
     api_log := (api_log api ++ (if is_connected then [VmbCameraClose] else []))
                ++ (if decide (0 = count) then [VmbShutdown] else []) |}.

(** Elements come and go. *)
Inductive Lifecycle :=
| element_created
| element_finalized (is_connected : bool).

Definition lifecycle_step (api : VmbApi) (e : Lifecycle) : VmbApi :=
  match e with
  | element_created => gst_vmbsrc_init api
  | element_finalized is_connected => gst_vmbsrc_finalize is_connected api
  end.

Definition lifecycle (events : list Lifecycle) (api : VmbApi) : VmbApi :=
  fold_left lifecycle_step events api.

(** The plugin when it is loaded. *)
Definition loaded_plugin : VmbApi := {| vmb_open_count := 0; api_log := [] |}.

(** The number of elements alive after [events], on top of [alive]. *)
Fixpoint live_elements (alive : Z) (events : list Lifecycle) : Z :=
  match events with
  | [] => alive
  | element_created :: rest => live_elements (alive + 1) rest
  | element_finalized _ :: rest => live_elements (alive - 1) rest
  end.

(** Only elements that exist are finalized, and there are never more
    than [UINT_MAX] of them. *)
Fixpoint balanced (alive : Z) (events : list Lifecycle) : bool :=
  match events with
  | [] => true
  | e :: rest =>
      let alive' := live_elements alive [e] in
      (0 <=? alive') && (alive' <? 2 ^ 32) && balanced alive' rest
  end.

(** The discipline of the API: it is started only when it is down, shut
    down only when it is up, and nothing else is asked of it while it is
    down.  [Some up] says that the transcript keeps to it and whether
    the API is up in the end. *)
Fixpoint api_protocol (up : bool) (log : list VmbApiCall) : option bool :=
  match log with
  | [] => Some up
  | VmbStartup :: rest => if up then None else api_protocol true rest
  | VmbShutdown :: rest => if up then api_protocol false rest else None
  | _ :: rest => if up then api_protocol true rest else None
  end.

(** ** Allocators that use an address twice *)

Definition with_g_allocator (allocator : GAllocator) (s : GstVmbSrc) : GstVmbSrc :=
  {| properties := properties s; is_acquiring := is_acquiring s;
     supported_formats := supported_formats s; frame_buffers := frame_buffers s;
     filled_frame_queue := filled_frame_queue s;
     num_frames_pushed := num_frames_pushed s; video_info := video_info s;
     queues := queues s; g_allocator := allocator;
     device := device s; sdk_log := sdk_log s |}.

(** The highest address, from [q] on, of a freed object of the store. *)
Fixpoint last_freed (q : nat) (store : list GAsyncQueue) : option nat :=
  match store with
  | [] => None
  | o :: rest =>
      match last_freed (S q) rest with
      | Some q' => Some q'
      | None => if q_live o then None else Some q
      end
  end.

(** An allocator that hands out freed memory again, as the allocator of
    the C library does with a block of the size just freed. *)
Definition reusing_allocator : GAllocator := last_freed 0.

(** A streaming element on that allocator, and the element after a
    second negotiation of the same caps. *)
Definition streaming_on_reused_memory : GstVmbSrc :=
  with_g_allocator reusing_allocator
    (streaming_element cooperative_camera 3 default_properties).

Definition renegotiated_on_reused_memory : GstVmbSrc :=
  match gst_vmbsrc_set_caps 1 gray8_caps streaming_on_reused_memory with
  | Some (_, s) => s
  | None => streaming_on_reused_memory
  end.

(** The object a queue pointer of the element points to has been
    freed. *)
Definition dangling (q : nat) (s : GstVmbSrc) : Prop :=
  exists o, queues s !! q = Some o /\ q_live o = false.

(** ** The frames that come and go *)

(** The frames the device completes in the course of the polls, in the
    order of their completion. *)
Definition arrivals (ticks : list Tick) : list nat :=
  concat (map (fun t => map c_frame (completed t)) ticks).

(** The frames handed back to the camera by [VmbCaptureFrameQueue], in
    the order of the calls. *)
Definition requeued (evs : Transcript) : list nat :=
  omap (fun ev => match ev.1 with
                  | VmbCaptureFrameQueue i => Some i
                  | _ => None
                  end) evs.

(** ** Centring the region of interest *)

(** The value [set_roi] centres an offset on: half of what the sensor
    has beyond the region, computed in 64 bits. *)
Definition centred_offset (sensor size : Z) : Z :=
  Z.shiftr (to_int64 (sensor - size)) 1.

(** What [g_object_set] leaves in an offset property that holds -1 when
    it is handed the 64-bit value [v], cut down to [int]. *)
Definition stored_offset (v : Z) : Z :=
  if decide (-1 <= to_int v <= G_MAXINT) then to_int v else -1.

(** How [set_roi] arrives at the value of an offset: [property] is what
    the property holds at the start, [wanted] the value it centres on,
    [queries] the calls it makes for the offset before it sets the
    feature, and [value] what the property holds afterwards.  The
    rounding helper is [round]. *)
Definition centring (round : Z -> Z -> Z -> Z -> Z) (feature : string)
    (property wanted : Z) (queries : Transcript) (value : Z) : Prop :=
  if decide (property = -1) then
    exists rr,
      (r_err rr <> VmbErrorSuccess
       /\ queries = [(VmbFeatureIntRangeQuery feature, rr)]
       /\ value = stored_offset wanted)
      \/ (r_err rr = VmbErrorSuccess
          /\ exists ri,
               queries = [(VmbFeatureIntRangeQuery feature, rr);
                          (VmbFeatureIntIncrementQuery feature, ri)]
               /\ value = stored_offset
                            (if decide (r_err ri = VmbErrorSuccess)
                             then round wanted (r_val rr) (r_val2 rr) (r_val ri)
                             else wanted))
  else queries = [] /\ value = property.

(** A camera with a 1920 x 1080 sensor on which the range of an offset
    is what the width or height in force leaves of the sensor. *)
Fixpoint last_int_set (name : string) (default : Z) (history : Transcript) : Z :=
  match history with
  | [] => default
  | (c, _) :: later =>
      last_int_set name
        (match c with
         | VmbFeatureIntSet n v => if String.eqb n name then v else default
         | _ => default
         end) later
  end.

Definition sensor_camera : Device :=
  fun history c =>
    match c with
    | VmbFeatureIntRangeQuery name =>
        if String.eqb name "Width" then answer 8 1920
        else if String.eqb name "Height" then answer 8 1080
        else if String.eqb name "OffsetX"
             then answer 0 (1920 - last_int_set "Width" 1920 history)
             else answer 0 (1080 - last_int_set "Height" 1080 history)
    | _ => cooperative_camera history c
    end.

(** * Properties of the embedding *)

(** ** Stepping through monadic code *)

Lemma bind_run {A B} (m : M A) (k : A -> M B) (s : GstVmbSrc) :
  bind m k s = k (m s).1 (m s).2.
Proof. unfold bind. destruct (m s); reflexivity. Qed.

Lemma calls_since_app (s s' : GstVmbSrc) (evs : Transcript) :
  sdk_log s' = sdk_log s ++ evs -> calls_since s s' = evs.
Proof.
  intros H. unfold calls_since. rewrite H. apply drop_app_length.
Qed.

Lemma enum_sets_app (a b : Transcript) :
  enum_sets (a ++ b) = enum_sets a ++ enum_sets b.
Proof. unfold enum_sets. rewrite map_app. apply filter_app. Qed.

Lemma config_run_refl (s : GstVmbSrc) : config_run s s [].
Proof. split; [by rewrite app_nil_r | done]. Qed.

Lemma config_run_trans (s1 s2 s3 : GstVmbSrc) (e1 e2 : Transcript) :
  config_run s1 s2 e1 -> config_run s2 s3 e2 -> config_run s1 s3 (e1 ++ e2).
Proof.
  intros [L1 P1] [L2 P2]. split.
  - rewrite L2, L1. by rewrite app_assoc.
  - congruence.
Qed.

Lemma config_run_sdk (c : VmbCall) (s : GstVmbSrc) :
  config_run s (sdk c s).2 [(c, (sdk c s).1)].
Proof. split; reflexivity. Qed.

Lemma enum_is_available_loop_run (name : string) (entries : list nat) (s : GstVmbSrc) :
  exists evs, config_run s (enum_is_available_loop name entries s).2 evs
              /\ enum_sets evs = [].
Proof.
  revert s. induction entries as [|i rest IH]; intros s; simpl.
  - exists []. split; [apply config_run_refl | done].
  - rewrite bind_run.
    destruct (IH (sdk (VmbFeatureEnumIsAvailable name i) s).2) as (evs & Hrun & Hsets).
    eexists. split.
    + eapply config_run_trans; [apply config_run_sdk | exact Hrun].
    + rewrite enum_sets_app, Hsets. reflexivity.
Qed.

Lemma log_available_enum_entries_run (name : string) (s : GstVmbSrc) :
  exists evs, config_run s (log_available_enum_entries name s).2 evs
              /\ enum_sets evs = [].
Proof.
  unfold log_available_enum_entries. rewrite !bind_run.
  match goal with |- context [enum_is_available_loop ?n ?l ?s0] =>
    destruct (enum_is_available_loop_run n l s0) as (evs & Hrun & Hsets) end.
  eexists. split.
  - eapply config_run_trans; [apply config_run_sdk |].
    eapply config_run_trans; [apply config_run_sdk | exact Hrun].
  - rewrite !enum_sets_app, Hsets. reflexivity.
Qed.

(** One block of [apply_trigger_settings]: the set of an enum feature
    followed, when the device rejects the value, by the listing of the
    available entries. *)
Lemma trigger_block_run (skip : bool) (name nick : string) (result : VmbError_t)
    (s : GstVmbSrc) :
  let m : M VmbError_t :=
    if skip then ret result
    else
      let* r := sdk (VmbFeatureEnumSet name nick) in
      do* (if decide (r_err r = VmbErrorSuccess) then ret tt
           else if decide (r_err r = VmbErrorInvalidValue)
                then log_available_enum_entries name
                else ret tt) in
      ret (r_err r) in
  exists evs, config_run s (m s).2 evs
              /\ enum_sets evs = if skip then [] else [VmbFeatureEnumSet name nick].
Proof.
  destruct skip; simpl.
  - exists []. split; [apply config_run_refl | done].
  - rewrite !bind_run. simpl.
    set (r := device s (sdk_log s) (VmbFeatureEnumSet name nick)).
    set (s1 := (sdk (VmbFeatureEnumSet name nick) s).2).
    destruct (decide (r_err r = VmbErrorSuccess)) as [?|?];
      [| destruct (decide (r_err r = VmbErrorInvalidValue)) as [?|?]].
    + eexists. split; [apply config_run_sdk | reflexivity].
    + destruct (log_available_enum_entries_run name s1) as (evs & Hrun & Hsets).
      eexists. split.
      * eapply config_run_trans; [apply config_run_sdk | exact Hrun].
      * rewrite enum_sets_app, Hsets. reflexivity.
    + eexists. split; [apply config_run_sdk | reflexivity].
Qed.

Lemma trigger_block_decide {E} `{EqDecision E} (e u : E) (name nick : string)
    (result : VmbError_t) (s : GstVmbSrc) :
  let m : M VmbError_t :=
    if decide (e = u) then ret result
    else
      let* r := sdk (VmbFeatureEnumSet name nick) in
      do* (if decide (r_err r = VmbErrorSuccess) then ret tt
           else if decide (r_err r = VmbErrorInvalidValue)
                then log_available_enum_entries name
                else ret tt) in
      ret (r_err r) in
  exists evs, config_run s (m s).2 evs
              /\ enum_sets evs = if decide (e = u) then [] else [VmbFeatureEnumSet name nick].
Proof.
  destruct (decide (e = u)).
  - exact (trigger_block_run true name nick result s).
  - exact (trigger_block_run false name nick result s).
Qed.

(** The last block, [TriggerMode], does not list the entries. *)
Lemma trigger_mode_block {E} `{EqDecision E} (e u : E) (name nick : string)
    (result : VmbError_t) (s : GstVmbSrc) :
  let m : M VmbError_t :=
    if decide (e = u) then ret result
    else let* r := sdk (VmbFeatureEnumSet name nick) in ret (r_err r) in
  exists evs, config_run s (m s).2 evs
              /\ enum_sets evs = if decide (e = u) then [] else [VmbFeatureEnumSet name nick].
Proof.
  destruct (decide (e = u)); cbv beta iota zeta.
  - exists []. split; [apply config_run_refl | done].
  - rewrite bind_run. eexists. split; [apply config_run_sdk | reflexivity].
Qed.

Ltac step_get :=
  match goal with
  | |- context [bind (get ?f) ?k ?s] =>
      change (bind (get f) k s) with (k (f s) s); cbv beta
  end.

Ltac step_trigger_block evs Hrun Hsets :=
  match goal with
  | |- context [bind ?m ?k ?s0] =>
      rewrite (bind_run m k s0);
      first
        [ destruct (trigger_block_decide _ _ _ _ _ s0
                    : exists evs, config_run s0 (m s0).2 evs /\ _)
            as (evs & Hrun & Hsets)
        | destruct (trigger_mode_block _ _ _ _ _ s0
                    : exists evs, config_run s0 (m s0).2 evs /\ _)
            as (evs & Hrun & Hsets) ];
      let r := fresh "result" in
      let s1 := fresh "s" in
      destruct (m s0) as [r s1]; cbn [fst snd] in *
  end.

(** C5.  Whatever the camera answers, the enum features that
    [apply_trigger_settings] sets are, in this order, TriggerSelector,
    TriggerActivation, TriggerSource and TriggerMode, each one exactly
    once when its property is explicit and not at all when the property
    is UNCHANGED; so four explicit properties give exactly four sets in
    that order. *)
Theorem apply_trigger_settings_order (s : GstVmbSrc) :
  enum_sets (calls_since s (apply_trigger_settings s).2) = trigger_sets (properties s).
Proof.
  unfold apply_trigger_settings.
  step_get. step_trigger_block e1 R1 S1.
  step_get. step_trigger_block e2 R2 S2.
  step_get. step_trigger_block e3 R3 S3.
  step_get. step_trigger_block e4 R4 S4.
  cbn [ret snd].
  pose proof (config_run_trans _ _ _ _ _ R1 R2) as R12.
  pose proof (config_run_trans _ _ _ _ _ R12 R3) as R123.
  pose proof (config_run_trans _ _ _ _ _ R123 R4) as [L _].
  rewrite (calls_since_app _ _ _ L).
  destruct R1 as [_ P1], R12 as [_ P2], R123 as [_ P3].
  rewrite P3 in S4. rewrite P2 in S3. rewrite P1 in S2.
  rewrite !enum_sets_app, S1, S2, S3, S4.
  unfold trigger_sets. by rewrite <- !app_assoc.
Qed.

(** The example of the specification: selector FrameStart, activation
    RisingEdge, source Line0, mode On. *)
Lemma apply_trigger_settings_order_witness :
  let s := started_element cooperative_camera 3 frame_start_trigger in
  enum_sets (calls_since s (apply_trigger_settings s).2)
  = [ VmbFeatureEnumSet "TriggerSelector" "FrameStart";
      VmbFeatureEnumSet "TriggerActivation" "RisingEdge";
      VmbFeatureEnumSet "TriggerSource" "Line0";
      VmbFeatureEnumSet "TriggerMode" "On" ].
Proof.
  intros s.
  exact (eq_trans (apply_trigger_settings_order s) eq_refl).
Defined.

(** ** Frame conditions, compositionally *)

Section Keeps.
Context (R : relation GstVmbSrc) `{!PreOrder R}.

Lemma keeps_ret {A} (a : A) : keeps R (ret a).
Proof. intros s. simpl. reflexivity. Qed.

Lemma keeps_get {A} (f : GstVmbSrc -> A) : keeps R (get f).
Proof. intros s. simpl. reflexivity. Qed.

Lemma keeps_bind {A B} (m : M A) (k : A -> M B) :
  keeps R m -> (forall a, keeps R (k a)) -> keeps R (bind m k).
Proof.
  intros Hm Hk s. rewrite bind_run. etransitivity; [apply Hm | apply Hk].
Qed.

End Keeps.

#[global] Instance only_calls_preorder (allowed : VmbCall -> Prop) :
  PreOrder (only_calls allowed).
Proof.
  split.
  - intros s. exists []. split; [by rewrite app_nil_r | constructor].
  - intros s1 s2 s3 (e1 & L1 & F1) (e2 & L2 & F2).
    exists (e1 ++ e2). split.
    + rewrite L2, L1. by rewrite app_assoc.
    + apply Forall_app. done.
Qed.

#[global] Instance same_preorder {X} (f : GstVmbSrc -> X) : PreOrder (same f).
Proof.
  split.
  - intros s. reflexivity.
  - intros s1 s2 s3 H1 H2. unfold same in *. congruence.
Qed.

Lemma keeps_sdk_calls (allowed : VmbCall -> Prop) (c : VmbCall) :
  allowed c -> keeps (only_calls allowed) (sdk c).
Proof.
  intros Hc s. exists [(c, (sdk c s).1)]. split; [reflexivity |].
  constructor; [exact Hc | constructor].
Qed.

(** ** The buffer pool: revocation *)

Lemma frame_at_middle (pre rest : list VmbFrame_t) (f : VmbFrame_t) (s : GstVmbSrc) :
  frame_buffers s = pre ++ f :: rest -> frame_at (length pre) s = f.
Proof.
  intros H. unfold frame_at. rewrite H.
  rewrite app_nth2 by lia. by rewrite Nat.sub_diag.
Qed.

Lemma insert_middle (pre rest : list VmbFrame_t) (f g : VmbFrame_t) :
  <[length pre := g]> (pre ++ f :: rest) = (pre ++ [g]) ++ rest.
Proof.
  rewrite insert_app_r_alt by lia. rewrite Nat.sub_diag. simpl.
  by rewrite <- app_assoc.
Qed.

Lemma revoke_and_free_loop_spec (rest : list VmbFrame_t) :
  forall (pre : list VmbFrame_t) (s : GstVmbSrc),
    frame_buffers s = pre ++ rest ->
    exists evs,
      map fst evs = revoke_calls (allocation_mode (properties s)) (length pre) rest
      /\ (revoke_and_free_loop (seq (length pre) (length rest)) s).2
         = with_sdk_log (sdk_log s ++ evs)
             (with_frame_buffers (pre ++ map revoked rest) s).
Proof.
  induction rest as [|f rest IH]; intros pre s Hfb.
  - exists []. split; [reflexivity |]. simpl.
    rewrite !app_nil_r in *. rewrite <- Hfb. by destruct s.
  - cbn [length seq revoke_and_free_loop map revoke_calls].
    step_get. rewrite (frame_at_middle _ _ _ _ Hfb).
    rewrite bind_run. unfold revoked at 1.
    destruct (decide (buffer f <> 0)) as [Hnz|Hz].
    + rewrite !bind_run. cbn [get fst snd].
      set (mode := allocation_mode (properties s)).
      change (allocation_mode (properties (sdk (VmbFrameRevoke (length pre)) s).2))
        with mode.
      destruct (decide (mode = GST_VMBSRC_ALLOCATION_MODE_ANNOUNCE_FRAME)) as [Hm|Hm].
      * rewrite !bind_run. cbn [ret fst snd].
        match goal with |- context [revoke_and_free_loop _ ?s1] =>
          destruct (IH (pre ++ [zero_frame]) s1) as (evs & Hc & Hs) end.
        { cbn. rewrite Hfb. apply insert_middle. }
        rewrite length_app, Nat.add_1_r in Hc, Hs.
        eexists ((_, _) :: (_, _) :: evs). split.
        { cbn [map fst]. rewrite Hc. reflexivity. }
        rewrite Hs. cbn. rewrite <- !app_assoc. reflexivity.
      * cbn [ret fst snd].
        match goal with |- context [revoke_and_free_loop _ ?s1] =>
          destruct (IH (pre ++ [zero_frame]) s1) as (evs & Hc & Hs) end.
        { cbn. rewrite Hfb. apply insert_middle. }
        rewrite length_app, Nat.add_1_r in Hc, Hs.
        eexists ((_, _) :: evs). split.
        { cbn [map fst]. rewrite Hc. reflexivity. }
        rewrite Hs. cbn. rewrite <- !app_assoc. reflexivity.
    + cbn [ret fst snd].
      destruct (IH (pre ++ [f]) s) as (evs & Hc & Hs).
      { rewrite Hfb. by rewrite <- app_assoc. }
      rewrite length_app, Nat.add_1_r in Hc, Hs.
      exists evs. split; [exact Hc |].
      rewrite Hs. by rewrite <- !app_assoc.
Qed.

Lemma revoked_idempotent (f : VmbFrame_t) : revoked (revoked f) = revoked f.
Proof.
  unfold revoked. destruct (decide (buffer f <> 0)) as [H|H].
  - reflexivity.
  - by rewrite decide_False.
Qed.

Lemma revoke_calls_revoked (mode : AllocationMode) (frames : list VmbFrame_t) :
  forall i, revoke_calls mode i (map revoked frames) = [].
Proof.
  induction frames as [|f rest IH]; intros i; [reflexivity |].
  cbn [map revoke_calls]. rewrite IH, app_nil_r.
  unfold revoked. destruct (decide (buffer f <> 0)) as [H|H].
  - reflexivity.
  - by rewrite decide_False.
Qed.

Lemma revoke_and_free_buffers_spec (s : GstVmbSrc) :
  exists evs,
    map fst evs = revoke_calls (allocation_mode (properties s)) 0 (frame_buffers s)
    /\ (revoke_and_free_buffers s).2
       = with_sdk_log (sdk_log s ++ evs)
           (with_frame_buffers (map revoked (frame_buffers s)) s).
Proof.
  unfold revoke_and_free_buffers. step_get.
  exact (revoke_and_free_loop_spec (frame_buffers s) [] s eq_refl).
Qed.

(** X25.  [revoke_and_free_buffers] always returns, and a second call
    in a row makes no call to the camera and changes nothing.  A
    descriptor whose buffer pointer is not [NULL] is revoked at the
    camera, its memory is freed when the allocation mode is
    AnnounceFrame, and it is zeroed, in the order of the pool; the loop
    passes over a descriptor whose buffer pointer is [NULL].  All
    descriptors are zero afterwards as soon as every descriptor was zero
    or had a buffer pointer, which covers the pool that was never
    allocated and the pool the element allocated itself. *)
Theorem revoke_and_free_buffers_idempotent (s : GstVmbSrc) :
  let s1 := (revoke_and_free_buffers s).2 in
  revoke_and_free_buffers s1 = (tt, s1)
  /\ map fst (calls_since s s1)
     = revoke_calls (allocation_mode (properties s)) 0 (frame_buffers s)
  /\ frame_buffers s1 = map revoked (frame_buffers s)
  /\ ((forall f, f ∈ frame_buffers s -> buffer f = 0 -> f = zero_frame) ->
      forall f, f ∈ frame_buffers s1 -> f = zero_frame).
Proof.
  intros s1.
  destruct (revoke_and_free_buffers_spec s) as (evs & Hc & Hs).
  assert (Hfb : frame_buffers s1 = map revoked (frame_buffers s)).
  { subst s1. rewrite Hs. reflexivity. }
  assert (Hlog : sdk_log s1 = sdk_log s ++ evs).
  { subst s1. rewrite Hs. reflexivity. }
  repeat split.
  - destruct (revoke_and_free_buffers_spec s1) as (evs1 & Hc1 & Hs1).
    rewrite Hfb, revoke_calls_revoked in Hc1.
    apply map_eq_nil in Hc1. subst evs1.
    rewrite app_nil_r, Hfb in Hs1.
    destruct (revoke_and_free_buffers s1) as [[] s2]. cbn [snd] in Hs1.
    f_equal. rewrite Hs1.
    replace (map revoked (map revoked (frame_buffers s))) with (frame_buffers s1).
    + by destruct s1.
    + rewrite Hfb. rewrite map_map. symmetry. apply map_ext. intros f.
      apply revoked_idempotent.
  - by rewrite (calls_since_app _ _ _ Hlog).
  - exact Hfb.
  - intros Hpool f Hf. rewrite Hfb in Hf.
    apply list_elem_of_In, in_map_iff in Hf. destruct Hf as (g & <- & Hg).
    unfold revoked. destruct (decide (buffer g <> 0)) as [H|H]; [reflexivity |].
    apply Hpool; [by apply list_elem_of_In | lia].
Qed.

(** A pool the element allocated itself is zeroed by the revocation. *)
Lemma revoke_and_free_buffers_idempotent_witness :
  let s := (alloc_and_announce_buffers
              (started_element cooperative_camera 3 default_properties)).2 in
  let s1 := (revoke_and_free_buffers s).2 in
  revoke_and_free_buffers s1 = (tt, s1)
  /\ map fst (calls_since s s1)
     = revoke_calls (allocation_mode (properties s)) 0 (frame_buffers s)
  /\ frame_buffers s1 = map revoked (frame_buffers s)
  /\ forall f, f ∈ frame_buffers s1 -> f = zero_frame.
Proof.
  intros s s1.
  destruct (revoke_and_free_buffers_idempotent s) as (H1 & H2 & H3 & H4).
  split; [exact H1 |]. split; [exact H2 |]. split; [exact H3 |].
  apply H4. intros f Hf Hb.
  vm_compute in Hf. apply list_elem_of_In in Hf. simpl in Hf.
  destruct Hf as [<-|[<-|[<-|[]]]]; vm_compute in Hb; discriminate.
Defined.


Lemma frame_at_insert_eq (i : nat) (f : VmbFrame_t) (l : list VmbFrame_t) :
  (i < length l)%nat -> nth i (<[i := f]> l) zero_frame = f.
Proof. intros H. rewrite nth_lookup. by rewrite list_lookup_insert_eq. Qed.

Lemma frame_at_insert_ne (i j : nat) (f : VmbFrame_t) (l : list VmbFrame_t) :
  i <> j -> nth j (<[i := f]> l) zero_frame = nth j l zero_frame.
Proof. intros H. rewrite !nth_lookup. by rewrite list_lookup_insert_ne. Qed.

Lemma alloc_and_announce_frame_spec (payload_size : Z) (i : nat)
    (result : VmbError_t) (s : GstVmbSrc) :
  (i < length (frame_buffers s))%nat ->
  let run := alloc_and_announce_frame payload_size i result s in
  exists evs,
    sdk_log run.2 = sdk_log s ++ evs
    /\ length (frame_buffers run.2) = length (frame_buffers s)
    /\ (forall j, j <> i -> frame_at j run.2 = frame_at j s)
    /\ properties run.2 = properties s
    /\ filled_frame_queue run.2 = filled_frame_queue s
    /\ match run.1 with
       | inl e =>
           e <> VmbErrorSuccess
           /\ ((exists ev, last evs = Some ev /\ is_aligned_alloc ev.1) ->
           e = VmbErrorResources
           /\ Forall (fun ev => ~ is_release ev.1 /\ ~ is_announce ev.1
                                /\ (is_aligned_alloc ev.1 -> r_val ev.2 = 0)) evs)
       | inr e =>
           exists pre f resp,
             evs = pre ++ [(VmbFrameAnnounce i f, resp)]
             /\ r_err resp = VmbErrorSuccess /\ e = VmbErrorSuccess
             /\ frame_at i run.2 = f
             /\ context0 f = filled_frame_queue s
             /\ bufferSize f = payload_size
             /\ Forall (fun ev => ~ is_release ev.1 /\ ~ is_announce ev.1
                                  /\ (is_aligned_alloc ev.1 ->
                                      r_val ev.2 = buffer f /\ buffer f <> 0)) pre
       end.
Proof.
  intros Hi run. subst run. unfold alloc_and_announce_frame.
  step_get.
  destruct (decide (allocation_mode (properties s)
                    = GST_VMBSRC_ALLOCATION_MODE_ANNOUNCE_FRAME)) as [Hmode|Hmode].
  - rewrite !bind_run. cbn [get fst snd].
    set (ra := (sdk (VmbFeatureIntGet "StreamBufferAlignment") s).1).
    set (s1 := (sdk (VmbFeatureIntGet "StreamBufferAlignment") s).2).
    set (al := if decide (r_err ra = VmbErrorSuccess) then r_val ra else 1).
    set (rp := (sdk (VmbAlignedAlloc al payload_size) s1).1).
    set (s2 := (sdk (VmbAlignedAlloc al payload_size) s1).2).
    destruct (decide (r_val rp = 0)) as [Hnull|Hptr].
    + cbn [ret fst snd].
      exists [(VmbFeatureIntGet "StreamBufferAlignment", ra);
              (VmbAlignedAlloc al payload_size, rp)].
      split; [cbn; by rewrite <- app_assoc |].
      split; [cbn; by rewrite length_insert |].
      split; [intros j Hj; unfold frame_at; cbn; by apply frame_at_insert_ne |].
      split; [reflexivity |]. split; [reflexivity |].
      split; [discriminate |].
      intros _. split; [reflexivity |].
      repeat constructor; cbn; tauto.
    + cbn [ret fst snd]. rewrite !bind_run. cbn [get fst snd].
      match goal with |- context [set_frame i ?f s2] => set (f1 := f) end.
      set (s3 := (set_frame i f1 s2).2).
      assert (E3 : frame_at i s3 = f1)
        by (unfold frame_at; cbn; by apply frame_at_insert_eq).
      rewrite E3.
      match goal with |- context [set_frame i ?f s3] => set (f2 := f) end.
      set (s4 := (set_frame i f2 s3).2).
      set (r := (sdk (VmbFrameAnnounce i f2) s4).1).
      set (s5 := (sdk (VmbFrameAnnounce i f2) s4).2).
      assert (Hlen : length (<[i:=f2]> (<[i:=f1]> (frame_buffers s)))
                     = length (frame_buffers s))
        by (by rewrite !length_insert).
      destruct (decide (r_err r <> VmbErrorSuccess)) as [Hfail|Hok].
      * rewrite !bind_run. cbn [ret fst snd].
        eexists [(VmbFeatureIntGet "StreamBufferAlignment", ra);
                 (VmbAlignedAlloc al payload_size, rp);
                 (VmbFrameAnnounce i f2, r); (libc_free (buffer f2), _)].
        split; [cbn; rewrite <- !app_assoc; reflexivity |].
        split; [cbn; by rewrite !length_insert |].
        split; [intros j Hj; unfold frame_at; cbn;
                rewrite !frame_at_insert_ne by done; reflexivity |].
        split; [reflexivity |]. split; [reflexivity |].
        split; [exact Hfail |].
        intros (ev & Hl & Ha). cbn in Hl. injection Hl as <-. destruct Ha.
      * cbn [ret fst snd].
        exists [(VmbFeatureIntGet "StreamBufferAlignment", ra);
                (VmbAlignedAlloc al payload_size, rp);
                (VmbFrameAnnounce i f2, r)].
        split; [cbn; rewrite <- !app_assoc; reflexivity |].
        split; [cbn; by rewrite !length_insert |].
        split; [intros j Hj; unfold frame_at; cbn;
                rewrite !frame_at_insert_ne by done; reflexivity |].
        split; [reflexivity |]. split; [reflexivity |].
        exists [(VmbFeatureIntGet "StreamBufferAlignment", ra);
                (VmbAlignedAlloc al payload_size, rp)], f2, r.
        split; [reflexivity |].
        assert (Hr : r_err r = VmbErrorSuccess)
          by (destruct (decide (r_err r = VmbErrorSuccess)); [done | contradiction]).
        split; [exact Hr |]. split; [exact Hr |].
        split; [unfold frame_at; cbn; apply frame_at_insert_eq;
                by rewrite length_insert |].
        split; [reflexivity |]. split; [reflexivity |].
        repeat constructor; cbn; try tauto.
  - rewrite !bind_run. cbn [get ret fst snd].
    match goal with |- context [set_frame i ?f s] => set (f1 := f) end.
    set (s3 := (set_frame i f1 s).2).
    assert (E3 : frame_at i s3 = f1)
      by (unfold frame_at; cbn; by apply frame_at_insert_eq).
    rewrite !bind_run. cbn [get fst snd].
    rewrite E3.
    match goal with |- context [set_frame i ?f s3] => set (f2 := f) end.
    set (s4 := (set_frame i f2 s3).2).
    set (r := (sdk (VmbFrameAnnounce i f2) s4).1).
    set (s5 := (sdk (VmbFrameAnnounce i f2) s4).2).
    destruct (decide (r_err r <> VmbErrorSuccess)) as [Hfail|Hok].
    + rewrite !bind_run. cbn [ret fst snd].
      eexists [(VmbFrameAnnounce i f2, r); (libc_free (buffer f2), _)].
      split; [cbn; rewrite <- !app_assoc; reflexivity |].
      split; [cbn; by rewrite !length_insert |].
      split; [intros j Hj; unfold frame_at; cbn;
              rewrite !frame_at_insert_ne by done; reflexivity |].
      split; [reflexivity |]. split; [reflexivity |].
      split; [exact Hfail |].
      intros (ev & Hl & Ha). cbn in Hl. injection Hl as <-. destruct Ha.
    + cbn [ret fst snd].
      exists [(VmbFrameAnnounce i f2, r)].
      split; [cbn; reflexivity |].
      split; [cbn; by rewrite !length_insert |].
      split; [intros j Hj; unfold frame_at; cbn;
              rewrite !frame_at_insert_ne by done; reflexivity |].
      split; [reflexivity |]. split; [reflexivity |].
      exists [], f2, r.
      split; [reflexivity |].
      assert (Hr : r_err r = VmbErrorSuccess)
        by (destruct (decide (r_err r = VmbErrorSuccess)); [done | contradiction]).
      split; [exact Hr |]. split; [exact Hr |].
      split; [unfold frame_at; cbn; apply frame_at_insert_eq;
              by rewrite length_insert |].
      split; [reflexivity |]. split; [reflexivity |].
      constructor.
Qed.

Lemma alloc_and_announce_loop_spec (payload_size : Z) (indices : list nat) :
  forall (result : VmbError_t) (s : GstVmbSrc),
    NoDup indices ->
    (forall i, i ∈ indices -> (i < length (frame_buffers s))%nat) ->
    let run := alloc_and_announce_loop payload_size indices result s in
    exists evs,
      sdk_log run.2 = sdk_log s ++ evs
      /\ length (frame_buffers run.2) = length (frame_buffers s)
      /\ (forall j, j ∉ indices -> frame_at j run.2 = frame_at j s)
      /\ properties run.2 = properties s
      /\ filled_frame_queue run.2 = filled_frame_queue s
      /\ ((exists ev, last evs = Some ev /\ is_aligned_alloc ev.1) ->
          run.1 = VmbErrorResources
          /\ Forall (fun ev => ~ is_release ev.1) evs
          /\ (forall ev, ev ∈ evs -> is_aligned_alloc ev.1 -> r_val ev.2 <> 0 ->
              exists i, i ∈ indices /\ buffer (frame_at i run.2) = r_val ev.2)
          /\ (forall i f resp, (VmbFrameAnnounce i f, resp) ∈ evs ->
              i ∈ indices /\ frame_at i run.2 = f /\ r_err resp = VmbErrorSuccess))
      /\ (run.1 = VmbErrorSuccess ->
          forall i, i ∈ indices ->
            context0 (frame_at i run.2) = filled_frame_queue s
            /\ bufferSize (frame_at i run.2) = payload_size).
Proof.
  induction indices as [|i rest IH]; intros result s Hnd Hrange run.
  - exists []. subst run. cbn. rewrite app_nil_r.
    split; [done|]. split; [done|]. split; [done|]. split; [done|]. split; [done|].
    split.
    + intros (e & He & _). discriminate.
    + intros _ i Hi. by apply elem_of_nil in Hi.
  - subst run. cbn [alloc_and_announce_loop]. rewrite bind_run.
    assert (Hi : (i < length (frame_buffers s))%nat) by (apply Hrange; left).
    apply NoDup_cons in Hnd as [Hnotin Hnd].
    destruct (alloc_and_announce_frame_spec payload_size i result s Hi)
      as (e1 & L1 & Len1 & Fr1 & P1 & Q1 & Hcase).
    destruct (alloc_and_announce_frame payload_size i result s) as [[e|e] s1];
      cbn [fst snd] in *.
    + (* the loop was left by [break] *)
      exists e1. destruct Hcase as [Hne Hcase].
      split; [done|]. split; [done|].
      split; [intros j Hj; apply Fr1; intros ->; apply Hj; left |].
      split; [done|]. split; [done|]. split.
      * intros Hlast. destruct (Hcase Hlast) as [-> Hall].
        split; [done|]. split; [| split].
        -- eapply Forall_impl; [exact Hall |]. cbn. tauto.
        -- intros ev Hev Ha Hnz. rewrite Forall_forall in Hall.
           destruct (Hall ev Hev) as (_ & _ & Hz). by specialize (Hz Ha).
        -- intros i' f resp Hev. rewrite Forall_forall in Hall.
           destruct (Hall _ Hev) as (_ & Hann & _). by destruct Hann.
      * intros Hs. contradiction.
    + (* the iteration went through *)
      destruct Hcase as (pre & f & resp & -> & Hresp & -> & Ff & Fq & Fsz & Hpre).
      destruct (IH VmbErrorSuccess s1 Hnd) as (e2 & L2 & Len2 & Fr2 & P2 & Q2 & Hlast2 & Hsucc2).
      { intros i' Hi'. rewrite Len1. apply Hrange. by right. }
      set (run := alloc_and_announce_loop payload_size rest VmbErrorSuccess s1) in *.
      exists ((pre ++ [(VmbFrameAnnounce i f, resp)]) ++ e2).
      assert (Fi : frame_at i run.2 = f) by (rewrite Fr2 by done; exact Ff).
      split; [rewrite L2, L1, <- !app_assoc; reflexivity |].
      split; [congruence |].
      split.
      { intros j Hj. rewrite Fr2, Fr1; [done | |].
        - intros ->. apply Hj. left.
        - intros Hin. apply Hj. by right. }
      split; [congruence |]. split; [congruence |]. split.
      * intros (ev & Hl & Ha). rewrite last_app in Hl.
        destruct (last e2) as [y|] eqn:Hle2.
        -- injection Hl as ->.
           destruct Hlast2 as (Hr & Hnorel & Hallocs & Hanns); [by exists ev |].
           split; [exact Hr |]. split; [| split].
           ++ apply Forall_app. split; [| exact Hnorel].
              apply Forall_app. split.
              ** eapply Forall_impl; [exact Hpre |]. cbn. tauto.
              ** repeat constructor. cbn. tauto.
           ++ intros ev' Hev' Ha' Hnz'.
              apply elem_of_app in Hev' as [Hev'|Hev'].
              ** apply elem_of_app in Hev' as [Hev'|Hev'].
                 --- rewrite Forall_forall in Hpre.
                     destruct (Hpre _ Hev') as (_ & _ & Hb).
                     destruct (Hb Ha') as [Hb1 _].
                     exists i. split; [left |]. by rewrite Fi.
                 --- apply list_elem_of_singleton in Hev'. subst ev'. destruct Ha'.
              ** destruct (Hallocs _ Hev' Ha' Hnz') as (i' & Hi' & Hb).
                 exists i'. split; [by right | exact Hb].
           ++ intros i' f' resp' Hev'.
              apply elem_of_app in Hev' as [Hev'|Hev'].
              ** apply elem_of_app in Hev' as [Hev'|Hev'].
                 --- rewrite Forall_forall in Hpre.
                     destruct (Hpre _ Hev') as (_ & Hann & _). by destruct Hann.
                 --- apply list_elem_of_singleton in Hev'.
                     injection Hev' as -> -> ->.
                     split; [left |]. split; [exact Fi | exact Hresp].
              ** destruct (Hanns _ _ _ Hev') as (Hi' & Hf' & Hr').
                 split; [by right | done].
        -- rewrite last_snoc in Hl. injection Hl as <-. destruct Ha.
      * intros Hs i' Hi'. apply elem_of_cons in Hi' as [->|Hi'].
        -- rewrite Fi. done.
        -- rewrite <- Q1. by apply Hsucc2.
Qed.

(** C4, as the code has it.  When a [VmbAlignedAlloc] of
    [alloc_and_announce_buffers] returns [NULL] (it is then the last call
    of the function), the function fails with [VmbErrorResources], but it
    has released nothing: no buffer was freed and no frame revoked, every
    buffer allocated earlier in the call is still held by a descriptor,
    and every frame announced earlier is still announced as it was. *)
Theorem alloc_failure_keeps_earlier_buffers (s : GstVmbSrc) :
  let run := alloc_and_announce_buffers s in
  let evs := calls_since s run.2 in
  (exists ev, last evs = Some ev /\ is_aligned_alloc ev.1) ->
  run.1 = VmbErrorResources
  /\ Forall (fun ev => ~ is_release ev.1) evs
  /\ (forall ev, ev ∈ evs -> is_aligned_alloc ev.1 -> r_val ev.2 <> 0 ->
      exists i, (i < NUM_FRAME_BUFFERS s)%nat
                /\ buffer (frame_at i run.2) = r_val ev.2)
  /\ (forall i f resp, (VmbFrameAnnounce i f, resp) ∈ evs ->
      frame_at i run.2 = f /\ r_err resp = VmbErrorSuccess).
Proof.
  intros run evs. subst run evs. unfold alloc_and_announce_buffers.
  rewrite bind_run.
  set (r0 := (sdk VmbPayloadSizeGet s).1). set (s0 := (sdk VmbPayloadSizeGet s).2).
  destruct (decide (r_err r0 = VmbErrorSuccess)) as [Hok|Hfail].
  - step_get.
    destruct (alloc_and_announce_loop_spec (r_val r0) (seq 0 (NUM_FRAME_BUFFERS s0))
                (r_err r0) s0) as (evs & L & _ & _ & _ & _ & Hlast & _).
    { apply NoDup_seq. }
    { intros i Hi. apply elem_of_seq in Hi. unfold NUM_FRAME_BUFFERS in Hi. lia. }
    set (run := alloc_and_announce_loop _ _ _ s0) in *.
    assert (Hlog : sdk_log run.2 = sdk_log s ++ (VmbPayloadSizeGet, r0) :: evs).
    { rewrite L. cbn. by rewrite <- app_assoc. }
    rewrite (calls_since_app _ _ _ Hlog).
    intros (ev & Hl & Ha).
    destruct evs as [|ev0 evs'].
    { cbn in Hl. injection Hl as <-. destruct Ha. }
    rewrite last_cons_cons in Hl.
    destruct Hlast as (Hr & Hnorel & Hallocs & Hanns); [by exists ev |].
    split; [exact Hr |]. split; [| split].
    + constructor; [cbn; tauto | exact Hnorel].
    + intros ev' Hev' Ha' Hnz. apply elem_of_cons in Hev' as [->|Hev'].
      { destruct Ha'. }
      destruct (Hallocs _ Hev' Ha' Hnz) as (i & Hi & Hb).
      exists i. split; [| exact Hb].
      apply elem_of_seq in Hi. unfold NUM_FRAME_BUFFERS in *. cbn in Hi. lia.
    + intros i f resp Hev. apply elem_of_cons in Hev as [Hev|Hev].
      { discriminate. }
      destruct (Hanns _ _ _ Hev) as (_ & Hf & Hr'). done.
  - cbn [ret fst snd].
    rewrite (calls_since_app s s0 [(VmbPayloadSizeGet, r0)] eq_refl).
    intros (ev & Hl & Ha). cbn in Hl. injection Hl as <-. destruct Ha.
Qed.

(** On a camera whose allocator gives out after the first buffer. *)
Lemma alloc_failure_keeps_earlier_buffers_witness :
  let s := started_element exhausted_allocator 3 default_properties in
  let run := alloc_and_announce_buffers s in
  let evs := calls_since s run.2 in
  run.1 = VmbErrorResources
  /\ Forall (fun ev => ~ is_release ev.1) evs
  /\ (forall ev, ev ∈ evs -> is_aligned_alloc ev.1 -> r_val ev.2 <> 0 ->
      exists i, (i < NUM_FRAME_BUFFERS s)%nat
                /\ buffer (frame_at i run.2) = r_val ev.2)
  /\ (forall i f resp, (VmbFrameAnnounce i f, resp) ∈ evs ->
      frame_at i run.2 = f /\ r_err resp = VmbErrorSuccess).
Proof.
  intros s.
  apply (alloc_failure_keeps_earlier_buffers s).
  eexists. split; [vm_compute; reflexivity | exact I].
Defined.

(** C4 fails as stated: the second allocation fails, the function
    returns [VmbErrorResources], and the first buffer is neither freed
    nor revoked; its descriptor still holds the memory. *)
Lemma alloc_failure_releases_nothing :
  let s := started_element exhausted_allocator 3 default_properties in
  let run := alloc_and_announce_buffers s in
  run.1 = VmbErrorResources
  /\ map fst (calls_since s run.2)
     = [ VmbPayloadSizeGet;
         VmbFeatureIntGet "StreamBufferAlignment"; VmbAlignedAlloc 1 4096;
         VmbFrameAnnounce 0
           {| buffer := 12288; bufferSize := 4096; context0 := Some 0%nat;
              receiveStatus := VmbFrameStatusComplete; frameID := 0 |};
         VmbFeatureIntGet "StreamBufferAlignment"; VmbAlignedAlloc 1 4096 ]
  /\ buffer (frame_at 0 run.2) = 12288.
Proof. vm_compute. repeat split. Qed.

(** ** The capture session *)

Lemma sdk_with_is_acquiring (c : VmbCall) (b : bool) (s : GstVmbSrc) :
  sdk c (with_is_acquiring b s)
  = ((sdk c s).1, with_is_acquiring b (sdk c s).2).
Proof. reflexivity. Qed.

Lemma command_is_done_loop_with_is_acquiring (polls : nat) (name : string) (b : bool) :
  forall s,
    command_is_done_loop polls name (with_is_acquiring b s)
    = with_is_acquiring b <$> command_is_done_loop polls name s.
Proof.
  induction polls as [|polls IH]; intros s; [reflexivity |].
  cbn [command_is_done_loop]. rewrite sdk_with_is_acquiring.
  destruct (sdk (VmbFeatureCommandIsDone name) s) as [r s1]. cbn [fst snd].
  destruct (decide (r_err r <> VmbErrorSuccess)); [reflexivity |].
  destruct (decide (r_val r = 0)); [apply IH | reflexivity].
Qed.

Lemma capture_frame_queue_loop_with_is_acquiring (indices : list nat) (b : bool) :
  forall result s,
    capture_frame_queue_loop indices result (with_is_acquiring b s)
    = ((capture_frame_queue_loop indices result s).1,
       with_is_acquiring b (capture_frame_queue_loop indices result s).2).
Proof.
  induction indices as [|i rest IH]; intros result s; [reflexivity |].
  cbn [capture_frame_queue_loop]. rewrite !bind_run, sdk_with_is_acquiring.
  cbn [fst snd].
  destruct (decide (VmbErrorSuccess <> r_err (sdk (VmbCaptureFrameQueue i) s).1));
    [reflexivity | apply IH].
Qed.

(** C7, as the code has it.  Neither [start_image_acquisition] nor
    [stop_image_acquisition] looks at the acquisition state: whatever
    [is_acquiring] says, they make the same calls to the camera and
    return the same code, which is the one the camera reports. *)
Theorem acquisition_state_is_not_checked (polls : nat) (b : bool) (s : GstVmbSrc) :
  outcome (start_image_acquisition polls (with_is_acquiring b s))
  = outcome (start_image_acquisition polls s)
  /\ outcome (stop_image_acquisition polls (with_is_acquiring b s))
     = outcome (stop_image_acquisition polls s).
Proof.
  split.
  - unfold start_image_acquisition. rewrite sdk_with_is_acquiring.
    destruct (sdk VmbCaptureStart s) as [r s1]. cbn [fst snd].
    destruct (decide (r_err r = VmbErrorSuccess)); [| reflexivity].
    change (NUM_FRAME_BUFFERS (with_is_acquiring b s1)) with (NUM_FRAME_BUFFERS s1).
    rewrite capture_frame_queue_loop_with_is_acquiring.
    destruct (capture_frame_queue_loop _ _ s1) as [result s2]. cbn [fst snd].
    destruct (decide (VmbErrorSuccess = result)); [| reflexivity].
    rewrite sdk_with_is_acquiring.
    destruct (sdk (VmbFeatureCommandRun "AcquisitionStart") s2) as [r3 s3].
    cbn [fst snd]. rewrite command_is_done_loop_with_is_acquiring.
    destruct (command_is_done_loop polls "AcquisitionStart" s3); reflexivity.
  - unfold stop_image_acquisition. rewrite sdk_with_is_acquiring.
    destruct (sdk (VmbFeatureCommandRun "AcquisitionStop") s) as [r s1].
    cbn [fst snd]. rewrite command_is_done_loop_with_is_acquiring.
    destruct (command_is_done_loop polls "AcquisitionStop" s1); reflexivity.
Qed.

(** C7 fails as stated: on a cooperative camera, a start while the
    element is acquiring succeeds and starts the capture engine, queues
    the frames and runs AcquisitionStart again; a stop while it is idle
    succeeds and runs AcquisitionStop, ends the capture and flushes the
    queue. *)
Lemma start_and_stop_in_the_wrong_state :
  let acquiring := streaming_element cooperative_camera 3 default_properties in
  let idle := started_element cooperative_camera 3 default_properties in
  is_acquiring acquiring = true
  /\ is_acquiring idle = false
  /\ (exists s', start_image_acquisition 1 acquiring = Some (VmbErrorSuccess, s')
                 /\ map fst (calls_since acquiring s')
                    = [ VmbCaptureStart; VmbCaptureFrameQueue 0;
                        VmbCaptureFrameQueue 1; VmbCaptureFrameQueue 2;
                        VmbFeatureCommandRun "AcquisitionStart";
                        VmbFeatureCommandIsDone "AcquisitionStart" ])
  /\ (exists s', stop_image_acquisition 1 idle = Some (VmbErrorSuccess, s')
                 /\ map fst (calls_since idle s')
                    = [ VmbFeatureCommandRun "AcquisitionStop";
                        VmbFeatureCommandIsDone "AcquisitionStop";
                        VmbCaptureEnd; VmbCaptureQueueFlush ]).
Proof.
  intros acquiring idle.
  split; [vm_compute; reflexivity |]. split; [vm_compute; reflexivity |].
  split; eexists; (split; [vm_compute; reflexivity | vm_compute; reflexivity]).
Qed.

Lemma command_is_done_loop_never_done (name : string) (polls : nat) :
  forall s,
    (forall h, r_err (device s h (VmbFeatureCommandIsDone name)) = VmbErrorSuccess
               /\ r_val (device s h (VmbFeatureCommandIsDone name)) = 0) ->
    command_is_done_loop polls name s = None.
Proof.
  induction polls as [|polls IH]; intros s Hdev; [reflexivity |].
  cbn [command_is_done_loop]. unfold sdk at 1.
  destruct (Hdev (sdk_log s)) as [He Hv].
  rewrite decide_False by (intros Hne; by apply Hne).
  rewrite decide_True by exact Hv.
  apply IH. intros h. apply Hdev.
Qed.

Lemma capture_frame_queue_loop_accepted (indices : list nat) :
  forall result s,
    result = VmbErrorSuccess ->
    (forall h i, r_err (device s h (VmbCaptureFrameQueue i)) = VmbErrorSuccess) ->
    (capture_frame_queue_loop indices result s).1 = VmbErrorSuccess
    /\ device (capture_frame_queue_loop indices result s).2 = device s.
Proof.
  induction indices as [|i rest IH]; intros result s Hr Hdev; [done |].
  cbn [capture_frame_queue_loop]. rewrite bind_run.
  destruct (decide (VmbErrorSuccess <> r_err (sdk (VmbCaptureFrameQueue i) s).1))
    as [Hne|_].
  - exfalso. apply Hne. symmetry. apply Hdev.
  - apply (IH _ (sdk (VmbCaptureFrameQueue i) s).2); [apply Hdev | exact Hdev].
Qed.

(** A camera that accepts the start of the capture and the frames, and
    never reports AcquisitionStart done, keeps [start_image_acquisition]
    in its polling loop however long one waits. *)
Lemma start_image_acquisition_never_returns (s : GstVmbSrc) :
  (forall h, r_err (device s h VmbCaptureStart) = VmbErrorSuccess) ->
  (forall h i, r_err (device s h (VmbCaptureFrameQueue i)) = VmbErrorSuccess) ->
  (forall h, r_err (device s h (VmbFeatureCommandIsDone "AcquisitionStart"))
             = VmbErrorSuccess
             /\ r_val (device s h (VmbFeatureCommandIsDone "AcquisitionStart")) = 0) ->
  forall polls, start_image_acquisition polls s = None.
Proof.
  intros Hstart Hqueue Hdone polls. unfold start_image_acquisition.
  unfold sdk at 1. rewrite decide_True by apply Hstart.
  match goal with |- context [capture_frame_queue_loop ?l ?r ?s1] =>
    destruct (capture_frame_queue_loop_accepted l r s1) as [Hres Hdev];
      [apply Hstart | exact Hqueue |];
      destruct (capture_frame_queue_loop l r s1) as [result s2] end.
  cbn [fst snd] in Hres, Hdev. subst result.
  rewrite decide_True by reflexivity.
  destruct (sdk (VmbFeatureCommandRun "AcquisitionStart") s2) as [r3 s3] eqn:E3.
  assert (Hdev3 : device s3 = device s).
  { unfold sdk in E3. injection E3 as _ <-. exact Hdev. }
  rewrite command_is_done_loop_never_done; [reflexivity |].
  intros h. rewrite Hdev3. apply Hdone.
Qed.

(** C8 is not met by the code.  When the completion query of
    AcquisitionStart fails, [start_image_acquisition] leaves its polling
    loop, marks the element as acquiring and returns
    [VmbErrorSuccess].  When AcquisitionStop is rejected and its
    completion query fails, [stop_image_acquisition] returns the code
    of [VmbCaptureEnd], here [VmbErrorSuccess].  When the camera never
    reports AcquisitionStart done, [start_image_acquisition] does not
    return at all. *)
Theorem acquisition_command_failure_is_not_reported :
  (exists s',
     start_image_acquisition 1 (pooled_element unconfirming_camera 3 default_properties)
     = Some (VmbErrorSuccess, s')
     /\ is_acquiring s' = true
     /\ last (sdk_log s')
        = Some (VmbFeatureCommandIsDone "AcquisitionStart", failure VmbErrorTimeout))
  /\ (exists s',
        stop_image_acquisition 1
          (streaming_element command_rejecting_camera 3 default_properties)
        = Some (VmbErrorSuccess, s')
        /\ calls_since (streaming_element command_rejecting_camera 3 default_properties) s'
           = [ (VmbFeatureCommandRun "AcquisitionStop", failure VmbErrorInvalidValue);
               (VmbFeatureCommandIsDone "AcquisitionStop", failure VmbErrorTimeout);
               (VmbCaptureEnd, answer 0 0); (VmbCaptureQueueFlush, answer 0 0) ])
  /\ (forall polls,
        start_image_acquisition polls
          (pooled_element never_done_camera 3 default_properties) = None).
Proof.
  split; [| split].
  - eexists. split; [vm_compute; reflexivity |].
    split; vm_compute; reflexivity.
  - eexists. split; vm_compute; reflexivity.
  - apply start_image_acquisition_never_returns.
    + intros h. reflexivity.
    + intros h i. reflexivity.
    + intros h. split; reflexivity.
Qed.

(** ** The frame dispatcher *)

Lemma keeps_same_set_frame {X} (f : GstVmbSrc -> X) (i : nat) (fr : VmbFrame_t) :
  (forall l s, f (with_frame_buffers l s) = f s) -> keeps (same f) (set_frame i fr).
Proof. intros H s. apply H. Qed.

Lemma keeps_same_push {X} (f : GstVmbSrc -> X) (q : option nat) (i : nat) :
  (forall l s, f (with_queues l s) = f s) -> keeps (same f) (g_async_queue_push q i).
Proof. intros H s. destruct q; [apply H | reflexivity]. Qed.

Lemma keeps_same_pop {X} (f : GstVmbSrc -> X) (q : option nat) :
  (forall l s, f (with_queues l s) = f s) -> keeps (same f) (g_async_queue_timeout_pop q).
Proof.
  intros H s. unfold g_async_queue_timeout_pop, same.
  destruct q as [q|]; [| reflexivity].
  destruct (queues s !! q) as [o|]; [| reflexivity].
  destruct (q_items o); [reflexivity | apply H].
Qed.

Lemma keeps_same_device_completes_all {X} (f : GstVmbSrc -> X) (cs : list Completion) :
  (forall l s, f (with_frame_buffers l s) = f s) ->
  (forall l s, f (with_queues l s) = f s) ->
  keeps (same f) (device_completes_all cs).
Proof.
  intros Hfb Hq. induction cs as [|c rest IH]; [apply keeps_ret; apply _ |].
  cbn [device_completes_all]. apply keeps_bind; [apply _ | | intros _; exact IH].
  unfold device_completes, vimbax_frame_callback.
  apply keeps_bind; [apply _ | apply keeps_get; apply _ | intros fr].
  apply keeps_bind; [apply _ | by apply keeps_same_set_frame | intros _].
  apply keeps_bind; [apply _ | apply keeps_get; apply _ | intros fr'].
  by apply keeps_same_push.
Qed.




(** C2 is not met by the code.  The wait loop takes a frame from the
    queue before it looks at the state of the element.  With frame 0
    waiting in the queue and the element PAUSED at the first poll, the
    call returns FLUSHING, the frame has left the queue, and it has not
    been queued at the camera again. *)
Theorem create_flushing_loses_the_popped_frame :
  let s := element_with_filled_frame in
  filled_frames s = [0%nat]
  /\ exists s',
       gst_vmbsrc_create [paused_tick] s = Some (GST_FLOW_FLUSHING, s')
       /\ filled_frames s' = []
       /\ calls_since s s' = [].
Proof.
  intros s. split; [vm_compute; reflexivity |].
  eexists. split; [vm_compute; reflexivity |].
  split; vm_compute; reflexivity.
Qed.

(** ** Caps negotiation *)

#[global] Instance session_step_preorder : PreOrder session_step.
Proof.
  split.
  - intros s. unfold session_step. split; [reflexivity | done].
  - intros s1 s2 s3 (C1 & F1 & P1 & Q1 & U1 & D1 & S1) (C2 & F2 & P2 & Q2 & U2 & D2 & S2).
    split; [etransitivity; eauto |]. repeat split; congruence.
Qed.

Lemma session_step_sdk (c : VmbCall) (s : GstVmbSrc) :
  is_session_call c -> session_step s (sdk c s).2.
Proof.
  intros Hc. split; [by apply keeps_sdk_calls |]. done.
Qed.

Lemma session_step_with_is_acquiring (b : bool) (s : GstVmbSrc) :
  session_step s (with_is_acquiring b s).
Proof.
  split; [| done]. exists []. split; [cbn; by rewrite app_nil_r | constructor].
Qed.

Lemma command_is_done_loop_session (polls : nat) (name : string) :
  forall s s', command_is_done_loop polls name s = Some s' -> session_step s s'.
Proof.
  induction polls as [|polls IH]; intros s s' H; [discriminate |].
  cbn [command_is_done_loop] in H.
  pose proof (session_step_sdk (VmbFeatureCommandIsDone name) s I) as Hsdk.
  destruct (sdk (VmbFeatureCommandIsDone name) s) as [r s1]. cbn [snd] in Hsdk.
  destruct (decide (r_err r <> VmbErrorSuccess)).
  - injection H as <-. exact Hsdk.
  - destruct (decide (r_val r = 0)).
    + etransitivity; [exact Hsdk | by apply IH].
    + injection H as <-. exact Hsdk.
Qed.

Lemma capture_frame_queue_loop_session (indices : list nat) :
  forall result, keeps session_step (capture_frame_queue_loop indices result).
Proof.
  induction indices as [|i rest IH]; intros result.
  - apply keeps_ret. apply _.
  - cbn [capture_frame_queue_loop]. apply keeps_bind; [apply _ | | intros r].
    + intros s. by apply session_step_sdk.
    + destruct (decide (VmbErrorSuccess <> r_err r)); [apply keeps_ret; apply _ | apply IH].
Qed.

Lemma start_image_acquisition_session (polls : nat) :
  keepsP session_step (start_image_acquisition polls).
Proof.
  intros s r s' H. unfold start_image_acquisition in H.
  pose proof (session_step_sdk VmbCaptureStart s I) as H1.
  destruct (sdk VmbCaptureStart s) as [r1 s1]. cbn [snd] in H1.
  destruct (decide (r_err r1 = VmbErrorSuccess)); [| by injection H as _ <-].
  pose proof (capture_frame_queue_loop_session (seq 0 (NUM_FRAME_BUFFERS s1))
                (r_err r1) s1) as H2.
  destruct (capture_frame_queue_loop _ _ s1) as [result s2]. cbn [snd] in H2.
  destruct (decide (VmbErrorSuccess = result));
    [| injection H as _ <-; by etransitivity].
  pose proof (session_step_sdk (VmbFeatureCommandRun "AcquisitionStart") s2 I) as H3.
  destruct (sdk (VmbFeatureCommandRun "AcquisitionStart") s2) as [r3 s3].
  cbn [snd] in H3.
  destruct (command_is_done_loop polls "AcquisitionStart" s3) as [s4|] eqn:E4;
    [| discriminate].
  apply command_is_done_loop_session in E4. injection H as _ <-.
  etransitivity; [exact H1 |]. etransitivity; [exact H2 |].
  etransitivity; [exact H3 |]. etransitivity; [exact E4 |].
  apply session_step_with_is_acquiring.
Qed.

Lemma stop_image_acquisition_session (polls : nat) :
  keepsP session_step (stop_image_acquisition polls).
Proof.
  intros s r s' H. unfold stop_image_acquisition in H.
  pose proof (session_step_sdk (VmbFeatureCommandRun "AcquisitionStop") s I) as H1.
  destruct (sdk (VmbFeatureCommandRun "AcquisitionStop") s) as [r1 s1].
  cbn [snd] in H1.
  destruct (command_is_done_loop polls "AcquisitionStop" s1) as [s2|] eqn:E2;
    [| discriminate].
  apply command_is_done_loop_session in E2.
  pose proof (session_step_with_is_acquiring false s2) as H3.
  pose proof (session_step_sdk VmbCaptureEnd (with_is_acquiring false s2) I) as H4.
  destruct (sdk VmbCaptureEnd (with_is_acquiring false s2)) as [r4 s4].
  cbn [snd] in H4.
  pose proof (session_step_sdk VmbCaptureQueueFlush s4 I) as H5.
  destruct (sdk VmbCaptureQueueFlush s4) as [r5 s5]. cbn [snd] in H5.
  injection H as _ <-.
  etransitivity; [exact H1 |]. etransitivity; [exact E2 |].
  etransitivity; [exact H3 |]. etransitivity; [exact H4 | exact H5].
Qed.

Lemma keeps_only_calls_modify (allowed : VmbCall -> Prop) (f : GstVmbSrc -> GstVmbSrc) :
  (forall s, sdk_log (f s) = sdk_log s) -> keeps (only_calls allowed) (modify f).
Proof.
  intros H s. exists []. split; [cbn; rewrite H; by rewrite app_nil_r | constructor].
Qed.

Ltac keeps_step :=
  lazymatch goal with
  | |- keeps _ (bind _ _) => apply keeps_bind; [apply _ | | intros ?]
  | |- keeps _ (ret _) => apply keeps_ret; apply _
  | |- keeps _ (get _) => apply keeps_get; apply _
  | |- keeps _ (if ?d then _ else _) => destruct d
  | |- keeps _ (match ?x with inl _ => _ | inr _ => _ end) => destruct x
  | |- keeps (only_calls _) (sdk _) => apply keeps_sdk_calls; cbn; tauto
  | |- keeps (only_calls _) (set_frame _ _) =>
      apply keeps_only_calls_modify; reflexivity
  end.

Lemma alloc_and_announce_buffers_calls :
  keeps (only_calls (fun c => ~ is_session_call c)) alloc_and_announce_buffers.
Proof.
  unfold alloc_and_announce_buffers.
  keeps_step; [keeps_step |]. keeps_step; [| keeps_step].
  keeps_step; [keeps_step |].
  match goal with |- keeps _ (alloc_and_announce_loop _ ?l ?r) =>
    generalize r; generalize l end.
  intros indices.
  induction indices as [|i rest IH]; intros result; cbn [alloc_and_announce_loop].
  - keeps_step.
  - keeps_step; [| keeps_step; [keeps_step | apply IH]].
    unfold alloc_and_announce_frame. repeat keeps_step.
Qed.

Lemma let_pair {A B C} (p : A * B) (f : A -> B -> C) :
  (let (a, b) := p in f a b) = f p.1 p.2.
Proof. by destruct p. Qed.

Lemma revoke_calls_no_session (mode : AllocationMode) (frames : list VmbFrame_t) :
  forall i, Forall (fun c => ~ is_session_call c) (revoke_calls mode i frames).
Proof.
  induction frames as [|f rest IH]; intros i; cbn [revoke_calls]; [constructor |].
  apply Forall_app. split; [| apply IH].
  destruct (decide (buffer f <> 0)); [| constructor].
  constructor; [cbn; tauto |].
  destruct (decide (mode = _)); repeat constructor; cbn; tauto.
Qed.

Lemma replace_filled_frame_queue_spec (s : GstVmbSrc) :
  let s2 := (replace_filled_frame_queue s).2 in
  sdk_log s2 = sdk_log s
  /\ frame_buffers s2 = frame_buffers s
  /\ properties s2 = properties s
  /\ device s2 = device s
  /\ g_allocator s2 = g_allocator s
  /\ match filled_frame_queue s with
     | Some q =>
         let freed :=
           alter (fun o => {| q_items := q_items o; q_live := false |}) q (queues s) in
         match reused_address (g_allocator s) freed with
         | Some q' =>
             filled_frame_queue s2 = Some q'
             /\ queues s2 = <[q' := {| q_items := []; q_live := true |}]> freed
         | None =>
             filled_frame_queue s2 = Some (length (queues s))
             /\ queues s2 = freed ++ [{| q_items := []; q_live := true |}]
         end
     | None => filled_frame_queue s2 = None /\ queues s2 = queues s
     end.
Proof.
  unfold replace_filled_frame_queue. step_get.
  destruct (filled_frame_queue s) as [q|] eqn:E.
  - rewrite !bind_run. unfold g_async_queue_new. cbn.
    destruct (reused_address (g_allocator s) _); cbn; [done |].
    rewrite length_alter. done.
  - cbn. done.
Qed.

(** The end of [gst_vmbsrc_set_caps]: the acquisition is started again
    only when [result] is a success. *)
Lemma set_caps_resume (polls : nat) (caps : GstCaps) (result : VmbError_t)
    (s5 s' : GstVmbSrc) (ok : bool) :
  match (if decide (result = VmbErrorSuccess)
         then start_image_acquisition polls s5
         else Some (result, s5)) with
  | Some (result, s6) =>
      if decide (result = VmbErrorSuccess) then
        match caps_video_info caps with
        | Some vi => Some (true, with_video_info vi s6)
        | None => Some (false, s6)
        end
      else Some (false, s6)
  | None => None
  end = Some (ok, s') ->
  exists start_evs,
    sdk_log s' = sdk_log s5 ++ start_evs
    /\ Forall (fun ev => is_session_call ev.1) start_evs
    /\ (result <> VmbErrorSuccess -> start_evs = [])
    /\ frame_buffers s' = frame_buffers s5
    /\ filled_frame_queue s' = filled_frame_queue s5
    /\ queues s' = queues s5.
Proof.
  intros H.
  assert (Hstep : exists s6, session_step s5 s6
            /\ (result <> VmbErrorSuccess -> s6 = s5)
            /\ (s' = s6 \/ exists vi, s' = with_video_info vi s6)).
  { destruct (decide (result = VmbErrorSuccess)) as [Hr|Hr].
    - destruct (start_image_acquisition polls s5) as [[r6 s6]|] eqn:E; [| discriminate].
      apply start_image_acquisition_session in E.
      exists s6. split; [exact E |]. split; [intros Hne; contradiction |].
      destruct (decide (r6 = VmbErrorSuccess)).
      + destruct (caps_video_info caps) as [vi|]; injection H as _ <-; eauto.
      + injection H as _ <-. eauto.
    - exists s5. split; [reflexivity |]. split; [done |].
      rewrite decide_False in H by exact Hr. injection H as _ <-. eauto. }
  destruct Hstep as (s6 & ((evs & L & C) & F & _ & Q & U & _ & _) & Hsame & Hs').
  assert (Hnil : result <> VmbErrorSuccess -> evs = []).
  { intros Hne. rewrite (Hsame Hne) in L.
    apply (f_equal length) in L. rewrite length_app in L.
    destruct evs; [done | cbn in L; lia]. }
  exists evs. destruct Hs' as [->|(vi & ->)]; cbn; done.
Qed.

(** C3.  Let [gst_vmbsrc_set_caps] return on a supported format whose
    pixel format the camera accepted.  Then it asked the camera for the
    payload size, got the answer [rp], and until then made no call that
    belongs to the buffer pool.  If the first buffer is smaller than the
    payload size, or the size could not be read, the calls that follow
    are those of [revoke_and_free_buffers] on the old pool, then those of
    [alloc_and_announce_buffers] on the revoked pool, then, and only if
    the allocation succeeded, those that start the acquisition again; the
    pool of the element is the one the allocation left.  If the size was
    read and fits, only the calls that start the acquisition follow and
    the pool is untouched. *)
Theorem set_caps_reallocates_iff (polls : nat) (caps : GstCaps) (s s' : GstVmbSrc)
    (ok : bool) (vimbax_format : string) (accepted : VmbResponse) :
  gst_vmbsrc_set_caps polls caps s = Some (ok, s') ->
  find_vimbax_format (caps_format caps) (supported_formats s) = Some vimbax_format ->
  (VmbFeatureEnumSet "PixelFormat" vimbax_format, accepted) ∈ calls_since s s' ->
  r_err accepted = VmbErrorSuccess ->
  exists pre rp post,
    calls_since s s' = pre ++ (VmbPayloadSizeGet, rp) :: post
    /\ Forall (fun ev => ~ is_pool_call ev.1 /\ ev.1 <> VmbPayloadSizeGet) pre
    /\ (bufferSize (frame_at 0 s) < r_val rp \/ r_err rp <> VmbErrorSuccess ->
        exists revoke_evs alloc_evs start_evs revoked_pool,
          post = revoke_evs ++ alloc_evs ++ start_evs
          /\ map fst revoke_evs
             = revoke_calls (allocation_mode (properties s)) 0 (frame_buffers s)
          /\ frame_buffers revoked_pool = map revoked (frame_buffers s)
          /\ sdk_log revoked_pool
             = sdk_log s ++ pre ++ (VmbPayloadSizeGet, rp) :: revoke_evs
          /\ alloc_evs
             = calls_since revoked_pool (alloc_and_announce_buffers revoked_pool).2
          /\ frame_buffers s' = frame_buffers (alloc_and_announce_buffers revoked_pool).2
          /\ Forall (fun ev => ~ is_session_call ev.1) (revoke_evs ++ alloc_evs)
          /\ Forall (fun ev => is_session_call ev.1) start_evs
          /\ ((alloc_and_announce_buffers revoked_pool).1 <> VmbErrorSuccess ->
              start_evs = []))
    /\ (r_err rp = VmbErrorSuccess -> r_val rp <= bufferSize (frame_at 0 s) ->
        Forall (fun ev => is_session_call ev.1) post
        /\ frame_buffers s' = frame_buffers s).
Proof.
  intros Hrun Hfind Hin Hacc.
  unfold gst_vmbsrc_set_caps in Hrun. rewrite Hfind in Hrun.
  destruct (stop_image_acquisition polls s) as [[r0 s1]|] eqn:Estop; [| discriminate].
  apply stop_image_acquisition_session in Estop.
  destruct Estop as ((stop_evs & L1 & C1) & F1 & P1 & Q1 & U1 & D1 & S1).
  destruct (replace_filled_frame_queue_spec s1) as (L2 & F2 & P2 & D2 & _).
  destruct (replace_filled_frame_queue s1) as [[] s2]. cbn [snd] in L2, F2, P2, D2.
  rewrite (let_pair (sdk _ s2)) in Hrun.
  set (r3 := (sdk (VmbFeatureEnumSet "PixelFormat" vimbax_format) s2).1) in *.
  set (s3 := (sdk (VmbFeatureEnumSet "PixelFormat" vimbax_format) s2).2) in *.
  assert (L3 : sdk_log s3 = sdk_log s2 ++ [(VmbFeatureEnumSet "PixelFormat" vimbax_format, r3)])
    by reflexivity.
  assert (F3 : frame_buffers s3 = frame_buffers s2) by reflexivity.
  assert (P3 : properties s3 = properties s2) by reflexivity.
  clearbody r3 s3.
  destruct (decide (r_err r3 <> VmbErrorSuccess)) as [Hrej|Hpf].
  { (* the camera turned the pixel format down *)
    injection Hrun as _ <-. exfalso.
    rewrite (calls_since_app s s3 (stop_evs ++ [(VmbFeatureEnumSet "PixelFormat" vimbax_format, r3)])) in Hin
      by (rewrite L3, L2, L1; by rewrite <- app_assoc).
    apply elem_of_app in Hin as [Hin|Hin].
    - rewrite Forall_forall in C1. by apply C1 in Hin.
    - apply list_elem_of_singleton in Hin. injection Hin as ->. contradiction. }
  rewrite (let_pair (sdk _ s3)) in Hrun.
  set (rp := (sdk VmbPayloadSizeGet s3).1) in *.
  set (s4 := (sdk VmbPayloadSizeGet s3).2) in *.
  assert (L4 : sdk_log s4 = sdk_log s3 ++ [(VmbPayloadSizeGet, rp)]) by reflexivity.
  assert (F4 : frame_buffers s4 = frame_buffers s3) by reflexivity.
  assert (P4 : properties s4 = properties s3) by reflexivity.
  clearbody rp s4.
  assert (Hcap : frame_at 0 s4 = frame_at 0 s) by (unfold frame_at; congruence).
  rewrite Hcap in Hrun.
  assert (Lpre : sdk_log s4 = sdk_log s ++ (stop_evs ++ [(VmbFeatureEnumSet "PixelFormat" vimbax_format, r3)]) ++ [(VmbPayloadSizeGet, rp)]).
  { rewrite L4, L3, L2, L1. by rewrite <- !app_assoc. }
  assert (Hpre : Forall (fun ev : VmbCall * VmbResponse =>
                            ~ is_pool_call ev.1 /\ ev.1 <> VmbPayloadSizeGet)
                   (stop_evs ++ [(VmbFeatureEnumSet "PixelFormat" vimbax_format, r3)])).
  { apply Forall_app. split.
    - eapply Forall_impl; [exact C1 |]. intros [c r] Hc. cbn in *.
      destruct c; cbn in *; try tauto; split; (tauto || discriminate).
    - repeat constructor; cbn; (tauto || discriminate). }
  exists (stop_evs ++ [(VmbFeatureEnumSet "PixelFormat" vimbax_format, r3)]), rp.
  destruct (decide (bufferSize (frame_at 0 s) < r_val rp \/ r_err rp <> VmbErrorSuccess))
    as [Hgrow|Hfits].
  - (* the pool is revoked and allocated again *)
    rewrite bind_run in Hrun.
    destruct (revoke_and_free_buffers_spec s4) as (revoke_evs & Hrc & Hrs).
    set (sR := (revoke_and_free_buffers s4).2) in *.
    destruct (alloc_and_announce_buffers_calls sR) as (alloc_evs & La & Ca).
    rewrite (let_pair (alloc_and_announce_buffers sR)) in Hrun.
    apply set_caps_resume in Hrun.
    destruct Hrun as (start_evs & Ls & Cs & Hnil & Fs & _).
    assert (LR : sdk_log sR = sdk_log s4 ++ revoke_evs) by (rewrite Hrs; reflexivity).
    assert (FR : frame_buffers sR = map revoked (frame_buffers s)).
    { rewrite Hrs. cbn. congruence. }
    exists (revoke_evs ++ alloc_evs ++ start_evs).
    split.
    { apply calls_since_app. rewrite Ls, La, LR, Lpre.
      rewrite <- !app_assoc. reflexivity. }
    split; [exact Hpre |]. split.
    + intros _. exists revoke_evs, alloc_evs, start_evs, sR.
      split; [reflexivity |].
      split; [rewrite Hrc; congruence |].
      split; [exact FR |].
      split; [rewrite LR, Lpre; rewrite <- !app_assoc; reflexivity |].
      split; [symmetry; by apply calls_since_app |].
      split; [exact Fs |].
      split; [| split; [exact Cs | exact Hnil]].
      apply Forall_app. split; [| exact Ca].
      apply Forall_forall. intros ev Hev.
      pose proof (revoke_calls_no_session (allocation_mode (properties s4)) (frame_buffers s4) 0) as Hno.
      rewrite <- Hrc in Hno. rewrite Forall_forall in Hno. apply Hno.
      apply list_elem_of_fmap. by exists ev.
    + intros He Hle. exfalso. destruct Hgrow; [lia | contradiction].
  - (* the buffers are large enough *)
    cbn [ret] in Hrun.
    apply set_caps_resume in Hrun.
    destruct Hrun as (start_evs & Ls & Cs & _ & Fs & _).
    exists start_evs.
    split.
    { apply calls_since_app. rewrite Ls, Lpre. rewrite <- !app_assoc. reflexivity. }
    split; [exact Hpre |]. split.
    + intros Hgrow. contradiction.
    + intros _ _. split; [exact Cs | congruence].
Qed.

(** The first negotiation of a started element (empty pool, so the
    buffers are allocated) and a second negotiation of the same format
    (the buffers fit). *)
Lemma set_caps_reallocates_iff_witness :
  let first := started_element cooperative_camera 3 default_properties in
  let second := streaming_element cooperative_camera 3 default_properties in
  let third := renegotiated_element cooperative_camera 3 default_properties in
  (exists pre rp post,
     calls_since first second = pre ++ (VmbPayloadSizeGet, rp) :: post
     /\ Forall (fun ev => ~ is_pool_call ev.1 /\ ev.1 <> VmbPayloadSizeGet) pre
     /\ (bufferSize (frame_at 0 first) < r_val rp \/ r_err rp <> VmbErrorSuccess ->
         exists revoke_evs alloc_evs start_evs revoked_pool,
           post = revoke_evs ++ alloc_evs ++ start_evs
           /\ map fst revoke_evs
              = revoke_calls (allocation_mode (properties first)) 0 (frame_buffers first)
           /\ frame_buffers revoked_pool = map revoked (frame_buffers first)
           /\ sdk_log revoked_pool
              = sdk_log first ++ pre ++ (VmbPayloadSizeGet, rp) :: revoke_evs
           /\ alloc_evs
              = calls_since revoked_pool (alloc_and_announce_buffers revoked_pool).2
           /\ frame_buffers second
              = frame_buffers (alloc_and_announce_buffers revoked_pool).2
           /\ Forall (fun ev => ~ is_session_call ev.1) (revoke_evs ++ alloc_evs)
           /\ Forall (fun ev => is_session_call ev.1) start_evs
           /\ ((alloc_and_announce_buffers revoked_pool).1 <> VmbErrorSuccess ->
               start_evs = []))
     /\ (r_err rp = VmbErrorSuccess -> r_val rp <= bufferSize (frame_at 0 first) ->
         Forall (fun ev => is_session_call ev.1) post
         /\ frame_buffers second = frame_buffers first))
  /\ (exists pre rp post,
        calls_since second third = pre ++ (VmbPayloadSizeGet, rp) :: post
        /\ r_err rp = VmbErrorSuccess
        /\ r_val rp <= bufferSize (frame_at 0 second)
        /\ Forall (fun ev => is_session_call ev.1) post
        /\ frame_buffers third = frame_buffers second).
Proof.
  intros first second third. split.
  - apply (set_caps_reallocates_iff 1 gray8_caps first second true "Mono8" (answer 0 0)).
    + vm_compute. reflexivity.
    + reflexivity.
    + vm_compute. do 4 right. left.
    + reflexivity.
  - destruct (set_caps_reallocates_iff 1 gray8_caps second third true "Mono8" (answer 0 0))
      as (pre & rp & post & Hsplit & Hpre & _ & Hfit).
    + vm_compute. reflexivity.
    + reflexivity.
    + vm_compute. do 4 right. left.
    + reflexivity.
    + exists pre, rp, post.
      assert (Hrp : (VmbPayloadSizeGet, rp) ∈ calls_since second third)
        by (rewrite Hsplit; apply elem_of_app; right; left).
      assert (Hans : rp = answer 4096 0).
      { vm_compute in Hrp. apply list_elem_of_In in Hrp. simpl in Hrp.
        repeat (destruct Hrp as [Hrp|Hrp]; [try discriminate Hrp; by injection Hrp |]).
        destruct Hrp. }
      subst rp. destruct Hfit as [Hs Hf]; [reflexivity | vm_compute; discriminate |].
      split; [exact Hsplit |]. split; [reflexivity |].
      split; [vm_compute; discriminate |]. split; [exact Hs | exact Hf].
Defined.

Lemma alloc_and_announce_buffers_routes_to_current_queue (s : GstVmbSrc) :
  (alloc_and_announce_buffers s).1 = VmbErrorSuccess ->
  forall i, (i < NUM_FRAME_BUFFERS s)%nat ->
    context0 (frame_at i (alloc_and_announce_buffers s).2) = filled_frame_queue s.
Proof.
  unfold alloc_and_announce_buffers. rewrite bind_run.
  set (r0 := (sdk VmbPayloadSizeGet s).1). set (s0 := (sdk VmbPayloadSizeGet s).2).
  destruct (decide (r_err r0 = VmbErrorSuccess)) as [Hok|Hfail]; [| by intros ?].
  step_get.
  destruct (alloc_and_announce_loop_spec (r_val r0) (seq 0 (NUM_FRAME_BUFFERS s0))
              (r_err r0) s0) as (evs & _ & _ & _ & _ & _ & _ & Hsucc).
  { apply NoDup_seq. }
  { intros i Hi. apply elem_of_seq in Hi. unfold NUM_FRAME_BUFFERS in Hi. lia. }
  intros Hr i Hi. apply Hsucc; [exact Hr |].
  apply elem_of_seq. unfold NUM_FRAME_BUFFERS in *. cbn. lia.
Qed.

(** ** The region of interest *)

Lemma int_sets_app (name : string) (a b : Transcript) :
  int_sets name (a ++ b) = int_sets name a ++ int_sets name b.
Proof. unfold int_sets. rewrite map_app. apply filter_app. Qed.

Lemma int_sets_none (name : string) (evs : Transcript) :
  Forall (fun e => is_int_set name e.1 = false) evs -> int_sets name evs = [].
Proof.
  induction 1 as [|e evs He _ IH]; [reflexivity |].
  unfold int_sets in *. cbn [map]. rewrite filter_cons_False; [exact IH |].
  rewrite He. discriminate.
Qed.

Lemma to_int_small (z : Z) : - 2 ^ 31 <= z < 2 ^ 31 -> to_int z = z.
Proof. intros H. unfold to_int. rewrite Z.mod_small by lia. lia. Qed.

Lemma to_int64_small (z : Z) : - 2 ^ 63 <= z < 2 ^ 63 -> to_int64 z = z.
Proof. intros H. unfold to_int64. rewrite Z.mod_small by lia. lia. Qed.

Ltac step_get_at s0 :=
  match goal with
  | |- context [bind (get ?f) ?k s0] =>
      change (bind (get f) k s0) with (k (f s0) s0); cbv beta
  end.

Ltac step_sdk s0 r s1 R L D P :=
  match goal with
  | |- context [bind (sdk ?c) ?k s0] =>
      rewrite (bind_run (sdk c) k s0); cbv beta;
      assert (R : (sdk c s0).1 = device s0 (sdk_log s0) c) by reflexivity;
      assert (L : sdk_log (sdk c s0).2 = sdk_log s0 ++ [(c, (sdk c s0).1)])
        by reflexivity;
      assert (D : device (sdk c s0).2 = device s0) by reflexivity;
      assert (P : properties (sdk c s0).2 = properties s0) by reflexivity;
      set (r := (sdk c s0).1) in *; set (s1 := (sdk c s0).2) in *;
      clearbody r s1
  end.

(** The Width step of [set_roi]. *)
Lemma roi_width_step (v : Z) (s : GstVmbSrc) :
  let m : M unit :=
    if decide (width (properties s) = INT_MAX)
    then set_property_width (to_int v) else ret tt in
  sdk_log (m s).2 = sdk_log s
  /\ device (m s).2 = device s
  /\ width (properties (m s).2) = resolved_width (properties s) v
  /\ offsetx (properties (m s).2) = offsetx (properties s).
Proof.
  unfold resolved_width, set_property_width, g_object_set_int.
  destruct (decide (width (properties s) = INT_MAX)); [| done].
  destruct (decide (0 <= to_int v <= G_MAXINT)); done.
Qed.

(** The Height step of [set_roi]. *)
Lemma roi_height_step (v : Z) (s : GstVmbSrc) :
  let m : M unit :=
    if decide (height (properties s) = INT_MAX)
    then set_property_height (to_int v) else ret tt in
  sdk_log (m s).2 = sdk_log s
  /\ device (m s).2 = device s
  /\ width (properties (m s).2) = width (properties s)
  /\ offsetx (properties (m s).2) = offsetx (properties s).
Proof.
  unfold set_property_height, g_object_set_int.
  destruct (decide (height (properties s) = INT_MAX)); [| done].
  destruct (decide (0 <= to_int v <= G_MAXINT)); done.
Qed.

#[global] Instance after_offsetx_preorder : PreOrder after_offsetx.
Proof.
  split.
  - intros s. split; [reflexivity | done].
  - intros s1 s2 s3 (C1 & X1 & W1) (C2 & X2 & W2).
    split; [etransitivity; eauto |]. split; congruence.
Qed.

Lemma after_offsetx_sdk (c : VmbCall) :
  is_int_set "Width" c = false -> is_int_set "OffsetX" c = false ->
  keeps after_offsetx (sdk c).
Proof.
  intros Hw Hx s. split; [by apply keeps_sdk_calls | done].
Qed.

Lemma after_offsetx_set_property_offsety (v : Z) :
  keeps after_offsetx (set_property_offsety v).
Proof.
  intros s. unfold set_property_offsety, g_object_set_int.
  destruct (decide (-1 <= v <= G_MAXINT)); cbn.
  - split; [| done]. exists []. split; [cbn; by rewrite app_nil_r | constructor].
  - reflexivity.
Qed.

Ltac after_offsetx_step :=
  lazymatch goal with
  | |- keeps _ (bind _ _) => apply keeps_bind; [apply _ | | intros ?]
  | |- keeps _ (ret _) => apply keeps_ret; apply _
  | |- keeps _ (get _) => apply keeps_get; apply _
  | |- keeps _ (if ?d then _ else _) => destruct d
  | |- keeps _ (sdk _) => apply after_offsetx_sdk; reflexivity
  | |- keeps _ (set_property_offsety _) => apply after_offsetx_set_property_offsety
  end.

(** * More of the element *)

(** ** The buffer pool, call by call *)

Lemma alloc_and_announce_frame_cases (payload_size : Z) (i : nat)
    (result : VmbError_t) (s : GstVmbSrc) :
  (i < length (frame_buffers s))%nat ->
  let run := alloc_and_announce_frame payload_size i result s in
  let mode := allocation_mode (properties s) in
  exists alloc_evs ptr,
    (if decide (mode = GST_VMBSRC_ALLOCATION_MODE_ANNOUNCE_FRAME)
     then exists ra rp alignment,
            alloc_evs = [ (VmbFeatureIntGet "StreamBufferAlignment", ra);
                          (VmbAlignedAlloc alignment payload_size, rp) ]
            /\ ptr = r_val rp
     else alloc_evs = [] /\ ptr = 0)
    /\ ((mode = GST_VMBSRC_ALLOCATION_MODE_ANNOUNCE_FRAME /\ ptr = 0
         /\ run.1 = inl VmbErrorResources
         /\ sdk_log run.2 = sdk_log s ++ alloc_evs
         /\ frame_buffers run.2
            = <[i := {| buffer := 0; bufferSize := bufferSize (frame_at i s);
                        context0 := context0 (frame_at i s);
                        receiveStatus := receiveStatus (frame_at i s);
                        frameID := frameID (frame_at i s) |}]> (frame_buffers s))
        \/ (exists r rf,
              r_err r <> VmbErrorSuccess
              /\ (mode = GST_VMBSRC_ALLOCATION_MODE_ANNOUNCE_FRAME -> ptr <> 0)
              /\ run.1 = inl (r_err r)
              /\ sdk_log run.2
                 = sdk_log s ++ alloc_evs
                   ++ [ (VmbFrameAnnounce i (announced_frame payload_size ptr i s), r);
                        (libc_free ptr, rf) ]
              /\ frame_buffers run.2 = <[i := zero_frame]> (frame_buffers s))
        \/ (exists r,
              r_err r = VmbErrorSuccess
              /\ (mode = GST_VMBSRC_ALLOCATION_MODE_ANNOUNCE_FRAME -> ptr <> 0)
              /\ run.1 = inr VmbErrorSuccess
              /\ sdk_log run.2
                 = sdk_log s ++ alloc_evs
                   ++ [ (VmbFrameAnnounce i (announced_frame payload_size ptr i s), r) ]
              /\ frame_buffers run.2
                 = <[i := announced_frame payload_size ptr i s]> (frame_buffers s)))
    /\ properties run.2 = properties s
    /\ filled_frame_queue run.2 = filled_frame_queue s
    /\ queues run.2 = queues s
    /\ device run.2 = device s
    /\ is_acquiring run.2 = is_acquiring s.
Proof.
  intros Hi run mode. subst run mode. unfold alloc_and_announce_frame.
  step_get.
  destruct (decide (allocation_mode (properties s)
                    = GST_VMBSRC_ALLOCATION_MODE_ANNOUNCE_FRAME)) as [Hmode|Hmode].
  - rewrite !bind_run. cbn [get fst snd].
    set (ra := (sdk (VmbFeatureIntGet "StreamBufferAlignment") s).1).
    set (s1 := (sdk (VmbFeatureIntGet "StreamBufferAlignment") s).2).
    set (al := if decide (r_err ra = VmbErrorSuccess) then r_val ra else 1).
    set (rp := (sdk (VmbAlignedAlloc al payload_size) s1).1).
    set (s2 := (sdk (VmbAlignedAlloc al payload_size) s1).2).
    exists [(VmbFeatureIntGet "StreamBufferAlignment", ra);
            (VmbAlignedAlloc al payload_size, rp)], (r_val rp).
    split; [by exists ra, rp, al |].
    destruct (decide (r_val rp = 0)) as [Hnull|Hptr].
    + cbn [ret fst snd].
      split; [| by repeat split].
      left. split; [exact Hmode |]. split; [exact Hnull |]. split; [reflexivity |].
      split; [cbn; by rewrite <- app_assoc |].
      transitivity (<[i := {| buffer := r_val rp; bufferSize := bufferSize (frame_at i s);
                              context0 := context0 (frame_at i s);
                              receiveStatus := receiveStatus (frame_at i s);
                              frameID := frameID (frame_at i s) |}]> (frame_buffers s));
        [reflexivity | by rewrite Hnull].
    + cbn [ret fst snd]. rewrite !bind_run. cbn [get fst snd].
      match goal with |- context [set_frame i ?f s2] => set (f1 := f) end.
      set (s3 := (set_frame i f1 s2).2).
      assert (E3 : frame_at i s3 = f1)
        by (unfold frame_at; cbn; by apply frame_at_insert_eq).
      rewrite E3.
      match goal with |- context [set_frame i ?f s3] => set (f2 := f) end.
      set (s4 := (set_frame i f2 s3).2).
      set (r := (sdk (VmbFrameAnnounce i f2) s4).1).
      set (s5 := (sdk (VmbFrameAnnounce i f2) s4).2).
      assert (Ef : f2 = announced_frame payload_size (r_val rp) i s) by reflexivity.
      destruct (decide (r_err r <> VmbErrorSuccess)) as [Hfail|Hok].
      * rewrite !bind_run. cbn [ret fst snd].
        split; [| by repeat split].
        right. left. exists r. eexists. split; [exact Hfail |].
        split; [done |]. split; [reflexivity |].
        split; [cbn; rewrite <- !app_assoc; reflexivity |].
        cbn. by rewrite !list_insert_insert_eq.
      * cbn [ret fst snd].
        split; [| by repeat split].
        right. right. exists r.
        assert (Hr : r_err r = VmbErrorSuccess)
          by (destruct (decide (r_err r = VmbErrorSuccess)); [done | contradiction]).
        split; [exact Hr |]. split; [done |]. split; [by rewrite Hr |].
        split; [cbn; rewrite <- !app_assoc; reflexivity |].
        cbn. by rewrite !list_insert_insert_eq.
  - rewrite !bind_run. cbn [get ret fst snd].
    exists [], 0. split; [done |].
    match goal with |- context [set_frame i ?f s] => set (f1 := f) end.
    set (s3 := (set_frame i f1 s).2).
    assert (E3 : frame_at i s3 = f1)
      by (unfold frame_at; cbn; by apply frame_at_insert_eq).
    rewrite !bind_run. cbn [get fst snd].
    rewrite E3.
    match goal with |- context [set_frame i ?f s3] => set (f2 := f) end.
    set (s4 := (set_frame i f2 s3).2).
    set (r := (sdk (VmbFrameAnnounce i f2) s4).1).
    set (s5 := (sdk (VmbFrameAnnounce i f2) s4).2).
    destruct (decide (r_err r <> VmbErrorSuccess)) as [Hfail|Hok].
    + rewrite !bind_run. cbn [ret fst snd].
      split; [| by repeat split].
      right. left. exists r. eexists. split; [exact Hfail |].
      split; [done |]. split; [reflexivity |].
      split; [cbn; rewrite <- !app_assoc; reflexivity |].
      cbn. by rewrite !list_insert_insert_eq.
    + cbn [ret fst snd].
      split; [| by repeat split].
      right. right. exists r.
      assert (Hr : r_err r = VmbErrorSuccess)
        by (destruct (decide (r_err r = VmbErrorSuccess)); [done | contradiction]).
      split; [exact Hr |]. split; [done |]. split; [by rewrite Hr |].
      split; [cbn; reflexivity |].
      cbn. by rewrite !list_insert_insert_eq.
Qed.

Lemma allocated_app (a b : Transcript) : allocated (a ++ b) = allocated a ++ allocated b.
Proof. apply omap_app. Qed.

Lemma released_app (a b : Transcript) : released (a ++ b) = released a ++ released b.
Proof. apply omap_app. Qed.

Lemma announced_app (a b : Transcript) : announced (a ++ b) = announced a ++ announced b.
Proof. apply omap_app. Qed.

Lemma held_by_clean (frames : list VmbFrame_t) :
  Forall (fun f => buffer f = 0) frames -> held_by frames = [].
Proof.
  induction 1 as [|f rest Hf _ IH]; [reflexivity |].
  unfold held_by in *. cbn [map].
  rewrite filter_cons_False; [exact IH | intros H; by apply H].
Qed.

Lemma held_by_cons (f : VmbFrame_t) (frames : list VmbFrame_t) :
  held_by (f :: frames) = held_by [f] ++ held_by frames.
Proof. unfold held_by. cbn. by destruct (decide (buffer f <> 0)). Qed.

Lemma alloc_and_announce_loop_cases (payload_size : Z) (rest : list VmbFrame_t) :
  forall (pre : list VmbFrame_t) (result : VmbError_t) (s : GstVmbSrc),
    frame_buffers s = pre ++ rest ->
    let run :=
      alloc_and_announce_loop payload_size (seq (length pre) (length rest)) result s in
    let mode := allocation_mode (properties s) in
    exists evs rest',
      sdk_log run.2 = sdk_log s ++ evs
      /\ frame_buffers run.2 = pre ++ rest'
      /\ length rest' = length rest
      /\ properties run.2 = properties s
      /\ (Forall (fun f => buffer f = 0) rest ->
          allocated evs = held_by rest' ++ released evs)
      /\ (forall i f resp,
            (VmbFrameAnnounce i f, resp) ∈ evs -> r_err resp <> VmbErrorSuccess ->
            exists before rf,
              evs = before ++ [(VmbFrameAnnounce i f, resp); (libc_free (buffer f), rf)]
              /\ run.1 = r_err resp
              /\ frame_at i run.2 = zero_frame
              /\ (mode = GST_VMBSRC_ALLOCATION_MODE_ANNOUNCE_FRAME ->
                  buffer f <> 0
                  /\ exists before' alignment ra,
                       before = before' ++ [(VmbAlignedAlloc alignment payload_size, ra)]
                       /\ r_val ra = buffer f))
      /\ (run.1 = VmbErrorSuccess ->
          announced evs = zip (seq (length pre) (length rest')) rest'
          /\ Forall (fun f => bufferSize f = payload_size
                              /\ context0 f = filled_frame_queue s
                              /\ (buffer f = 0
                                  <-> mode <> GST_VMBSRC_ALLOCATION_MODE_ANNOUNCE_FRAME))
                    rest')
      /\ (mode <> GST_VMBSRC_ALLOCATION_MODE_ANNOUNCE_FRAME ->
          Forall (fun ev => is_announce ev.1 \/ ev.1 = libc_free 0) evs).
Proof.
  induction rest as [|f0 rest IH]; intros pre result s Hfb run mode.
  - exists [], []. subst run. cbn. rewrite app_nil_r.
    split; [done |]. split; [by rewrite Hfb, app_nil_r |].
    split; [done |]. split; [done |]. split; [done |].
    split; [intros i f resp Hin; by apply elem_of_nil in Hin |].
    split; [done |]. intros _. constructor.
  - subst run. cbn [length seq alloc_and_announce_loop]. rewrite bind_run.
    assert (Hi : (length pre < length (frame_buffers s))%nat)
      by (rewrite Hfb, length_app; cbn; lia).
    assert (Hf0 : frame_at (length pre) s = f0) by (by apply (frame_at_middle pre rest)).
    destruct (alloc_and_announce_frame_cases payload_size (length pre) result s Hi)
      as (alloc_evs & ptr & Halloc & Hcase & P1 & Q1 & _ & _ & _).
    fold mode in Halloc, Hcase.
    rewrite Hfb, !insert_middle in Hcase.
    assert (Hacc : allocated alloc_evs = (if decide (ptr = 0) then [] else [ptr])
                   /\ released alloc_evs = []
                   /\ announced alloc_evs = []
                   /\ (forall i f resp, (VmbFrameAnnounce i f, resp) ∉ alloc_evs)).
    { destruct (decide (mode = GST_VMBSRC_ALLOCATION_MODE_ANNOUNCE_FRAME)).
      - destruct Halloc as (ra & rp & al & -> & ->).
        split; [unfold allocated; cbn; by destruct (decide (r_val rp = 0)) |].
        split; [reflexivity |]. split; [reflexivity |].
        intros i f resp Hin. apply elem_of_cons in Hin as [Hin|Hin]; [discriminate |].
        apply list_elem_of_singleton in Hin. discriminate.
      - destruct Halloc as [-> ->].
        split; [reflexivity |]. split; [reflexivity |]. split; [reflexivity |].
        intros i f resp Hin. by apply elem_of_nil in Hin. }
    destruct Hacc as (Aalloc & Ralloc & Nalloc & Noann).
    destruct Hcase as [(Hmode & Hnull & Hres & Hlog & Hframes)
                      |[(r & rf & Hfail & Hptr & Hres & Hlog & Hframes)
                       |(r & Hok & Hptr & Hres & Hlog & Hframes)]].
    + (* the allocation failed *)
      destruct (alloc_and_announce_frame payload_size (length pre) result s)
        as [step s1]; cbn [fst snd] in *. subst step. cbn [ret fst snd].
      eexists alloc_evs, (_ :: rest).
      split; [exact Hlog |].
      split; [rewrite Hframes, <- app_assoc; reflexivity |].
      split; [reflexivity |]. split; [exact P1 |].
      split.
      { intros Hclean. apply Forall_cons in Hclean as [_ Hclean].
        rewrite Aalloc, Ralloc, held_by_cons, (held_by_clean rest Hclean), Hnull.
        reflexivity. }
      split; [intros i f resp Hin; by apply Noann in Hin |].
      split; [discriminate |].
      intros Hm. contradiction.
    + (* the frame was refused *)
      destruct (alloc_and_announce_frame payload_size (length pre) result s)
        as [step s1]; cbn [fst snd] in *. subst step. cbn [ret fst snd].
      exists (alloc_evs
              ++ [ (VmbFrameAnnounce (length pre)
                      (announced_frame payload_size ptr (length pre) s), r);
                   (libc_free ptr, rf) ]), (zero_frame :: rest).
      split; [exact Hlog |].
      split; [rewrite Hframes, <- app_assoc; reflexivity |].
      split; [reflexivity |]. split; [exact P1 |].
      split.
      { intros Hclean. apply Forall_cons in Hclean as [_ Hclean].
        rewrite allocated_app, released_app, Aalloc, Ralloc.
        rewrite held_by_cons, (held_by_clean rest Hclean).
        unfold allocated, released. cbn.
        by destruct (decide (ptr = 0)). }
      split.
      { intros i f resp Hin Hbad.
        apply elem_of_app in Hin as [Hin|Hin]; [by apply Noann in Hin |].
        apply elem_of_cons in Hin as [Hin|Hin].
        - injection Hin as -> -> ->. exists alloc_evs, rf.
          split; [reflexivity |]. split; [reflexivity |].
          split.
          { unfold frame_at. rewrite Hframes, <- app_assoc. cbn.
            rewrite nth_lookup, lookup_app_r by lia.
            by rewrite Nat.sub_diag. }
          intros Hm. split; [by apply Hptr |].
          destruct (decide (mode = GST_VMBSRC_ALLOCATION_MODE_ANNOUNCE_FRAME));
            [| contradiction].
          destruct Halloc as (ra & rp & al & -> & ->).
          by exists [(VmbFeatureIntGet "StreamBufferAlignment", ra)], al, rp.
        - apply list_elem_of_singleton in Hin. discriminate. }
      split; [intros Hs; by rewrite Hs in Hfail |].
      intros Hm.
      destruct (decide (mode = GST_VMBSRC_ALLOCATION_MODE_ANNOUNCE_FRAME));
        [contradiction |].
      destruct Halloc as [-> ->]. cbn [app].
      apply Forall_cons. split; [by left |].
      apply Forall_cons. split; [by right | constructor].
    + (* the frame was announced *)
      destruct (alloc_and_announce_frame payload_size (length pre) result s)
        as [step s1]; cbn [fst snd] in *. subst step.
      set (f := announced_frame payload_size ptr (length pre) s) in *.
      assert (Hlen : length (pre ++ [f]) = S (length pre))
        by (rewrite length_app; cbn; lia).
      pose proof (IH (pre ++ [f]) VmbErrorSuccess s1 Hframes) as IH'.
      rewrite Hlen in IH'. cbv zeta in IH'.
      destruct IH' as (evs2 & rest2 & L2 & F2 & Len2 & P2 & Acc2 & Bad2 & Good2 & Del2).
      set (run := alloc_and_announce_loop payload_size
                    (seq (S (length pre)) (length rest)) VmbErrorSuccess s1) in *.
      rewrite P1 in *. fold mode in Bad2, Del2, Good2.
      exists ((alloc_evs ++ [(VmbFrameAnnounce (length pre) f, r)]) ++ evs2), (f :: rest2).
      split; [rewrite L2, Hlog, <- !app_assoc; reflexivity |].
      split; [rewrite F2, <- app_assoc; reflexivity |].
      split; [cbn; by rewrite Len2 |]. split; [exact P2 |].
      split.
      { intros Hclean. apply Forall_cons in Hclean as [_ Hclean].
        rewrite !allocated_app, !released_app, Aalloc, Ralloc, (Acc2 Hclean).
        rewrite held_by_cons. unfold held_by at 1. cbn.
        destruct (decide (ptr = 0)), (decide (ptr <> 0)); done. }
      split.
      { intros i f' resp Hin Hbad.
        apply elem_of_app in Hin as [Hin|Hin].
        - apply elem_of_app in Hin as [Hin|Hin]; [by apply Noann in Hin |].
          apply list_elem_of_singleton in Hin. injection Hin as -> -> ->.
          contradiction.
        - destruct (Bad2 i f' resp Hin Hbad) as (before & rf & -> & Hr & Hz & Hm).
          exists ((alloc_evs ++ [(VmbFrameAnnounce (length pre) f, r)]) ++ before), rf.
          split; [by rewrite <- !app_assoc |]. split; [exact Hr |].
          split; [exact Hz |].
          intros Hmode. destruct (Hm Hmode) as (Hnz & before' & al & ra & -> & Hra).
          split; [exact Hnz |].
          exists ((alloc_evs ++ [(VmbFrameAnnounce (length pre) f, r)]) ++ before'), al, ra.
          split; [by rewrite <- !app_assoc |]. exact Hra. }
      split.
      { intros Hs. destruct (Good2 Hs) as [Hann Hall]. split.
        - rewrite !announced_app, Nalloc, Hann. cbn. reflexivity.
        - constructor.
          + split; [reflexivity |]. split; [reflexivity |]. cbn. split.
            * intros -> Hm. by apply Hptr in Hm.
            * intros Hm. destruct (decide (mode = GST_VMBSRC_ALLOCATION_MODE_ANNOUNCE_FRAME));
                [contradiction |]. by destruct Halloc as [_ ->].
          + eapply Forall_impl; [exact Hall |]. cbn. intros x (? & ? & ?).
            split; [done |]. split; [congruence | done]. }
      intros Hm. apply Forall_app. split; [| by apply Del2].
      destruct (decide (mode = GST_VMBSRC_ALLOCATION_MODE_ANNOUNCE_FRAME));
        [contradiction |].
      destruct Halloc as [-> _]. cbn [app].
      apply Forall_cons. split; [by left | constructor].
Qed.

Lemma alloc_and_announce_buffers_cases (s : GstVmbSrc) :
  let run := alloc_and_announce_buffers s in
  let mode := allocation_mode (properties s) in
  exists rp evs,
    sdk_log run.2 = sdk_log s ++ (VmbPayloadSizeGet, rp) :: evs
    /\ length (frame_buffers run.2) = length (frame_buffers s)
    /\ properties run.2 = properties s
    /\ (r_err rp <> VmbErrorSuccess ->
        evs = [] /\ frame_buffers run.2 = frame_buffers s /\ run.1 = r_err rp)
    /\ (Forall (fun f => buffer f = 0) (frame_buffers s) ->
        allocated evs = held_by (frame_buffers run.2) ++ released evs)
    /\ (forall i f resp,
          (VmbFrameAnnounce i f, resp) ∈ evs -> r_err resp <> VmbErrorSuccess ->
          exists before rf,
            evs = before ++ [(VmbFrameAnnounce i f, resp); (libc_free (buffer f), rf)]
            /\ run.1 = r_err resp
            /\ frame_at i run.2 = zero_frame
            /\ (mode = GST_VMBSRC_ALLOCATION_MODE_ANNOUNCE_FRAME ->
                buffer f <> 0
                /\ exists before' alignment ra,
                     before = before' ++ [(VmbAlignedAlloc alignment (r_val rp), ra)]
                     /\ r_val ra = buffer f))
    /\ (run.1 = VmbErrorSuccess ->
        r_err rp = VmbErrorSuccess
        /\ announced evs
           = zip (seq 0 (length (frame_buffers run.2))) (frame_buffers run.2)
        /\ Forall (fun f => bufferSize f = r_val rp
                            /\ context0 f = filled_frame_queue s
                            /\ (buffer f = 0
                                <-> mode <> GST_VMBSRC_ALLOCATION_MODE_ANNOUNCE_FRAME))
                  (frame_buffers run.2))
    /\ (mode <> GST_VMBSRC_ALLOCATION_MODE_ANNOUNCE_FRAME ->
        Forall (fun ev => is_announce ev.1 \/ ev.1 = libc_free 0) evs).
Proof.
  intros run mode. subst run mode. unfold alloc_and_announce_buffers.
  rewrite bind_run.
  set (rp := (sdk VmbPayloadSizeGet s).1).
  set (s0 := (sdk VmbPayloadSizeGet s).2).
  assert (L0 : sdk_log s0 = sdk_log s ++ [(VmbPayloadSizeGet, rp)]) by reflexivity.
  assert (F0 : frame_buffers s0 = [] ++ frame_buffers s) by reflexivity.
  assert (P0 : properties s0 = properties s) by reflexivity.
  assert (Q0 : filled_frame_queue s0 = filled_frame_queue s) by reflexivity.
  exists rp.
  destruct (decide (r_err rp = VmbErrorSuccess)) as [Hok|Hbad].
  - step_get. unfold NUM_FRAME_BUFFERS.
    change (length (frame_buffers s0)) with (length (frame_buffers s)).
    destruct (alloc_and_announce_loop_cases (r_val rp) (frame_buffers s) []
                (r_err rp) s0 F0)
      as (evs & rest' & L & F & Len & Pr & Acc & Bad & Good & Del).
    cbn [length app] in *. rewrite P0, Q0 in *.
    set (run := alloc_and_announce_loop (r_val rp) (seq 0 (length (frame_buffers s)))
                  (r_err rp) s0) in *.
    exists evs.
    split; [rewrite L, L0, <- app_assoc; reflexivity |].
    split; [by rewrite F |]. split; [exact Pr |].
    split; [intros Hne; contradiction |].
    split; [rewrite F; exact Acc |].
    split; [exact Bad |].
    split; [| exact Del].
    intros Hs. destruct (Good Hs) as [Hann Hall].
    split; [exact Hok |]. rewrite F.
    split; [exact Hann | exact Hall].
  - cbn [ret fst snd]. exists [].
    split; [exact L0 |]. split; [reflexivity |]. split; [reflexivity |].
    split; [done |].
    split; [intros Hclean; change ([] = held_by (frame_buffers s) ++ []);
            by rewrite (held_by_clean _ Hclean) |].
    split; [intros i f resp Hin; by apply elem_of_nil in Hin |].
    split; [intros Hs; contradiction |].
    intros _. constructor.
Qed.

Lemma released_calls (evs : Transcript) :
  released evs = omap released_address (map fst evs).
Proof.
  induction evs as [|ev evs IH]; [reflexivity |].
  unfold released in *. cbn. by rewrite IH.
Qed.

Lemma allocated_none (evs : Transcript) :
  Forall (fun c => ~ is_aligned_alloc c) (map fst evs) -> allocated evs = [].
Proof.
  induction evs as [|[c r] evs IH]; [reflexivity |].
  cbn [map fst]. intros H. apply Forall_cons in H as [Hc H].
  unfold allocated in *. cbn. rewrite (IH H).
  unfold allocated_address. cbn. destruct c; try reflexivity. by destruct Hc.
Qed.

Lemma revoke_calls_no_alloc (mode : AllocationMode) (frames : list VmbFrame_t) :
  forall i, Forall (fun c => ~ is_aligned_alloc c) (revoke_calls mode i frames).
Proof.
  induction frames as [|f rest IH]; intros i; [constructor |].
  cbn [revoke_calls]. apply Forall_app. split; [| apply IH].
  destruct (decide (buffer f <> 0)); [| constructor].
  constructor; [cbn; tauto |].
  destruct (decide (mode = GST_VMBSRC_ALLOCATION_MODE_ANNOUNCE_FRAME));
    repeat constructor; cbn; tauto.
Qed.

Lemma revoke_calls_release_the_pool (frames : list VmbFrame_t) :
  forall i,
    omap released_address (revoke_calls GST_VMBSRC_ALLOCATION_MODE_ANNOUNCE_FRAME i frames)
    = held_by frames.
Proof.
  induction frames as [|f rest IH]; intros i; [reflexivity |].
  cbn [revoke_calls]. rewrite omap_app, IH, held_by_cons. f_equal.
  destruct (decide (GST_VMBSRC_ALLOCATION_MODE_ANNOUNCE_FRAME
                    = GST_VMBSRC_ALLOCATION_MODE_ANNOUNCE_FRAME)); [| contradiction].
  unfold held_by. cbn.
  destruct (decide (buffer f <> 0)) as [Hnz|Hz]; [| reflexivity].
  cbn. destruct (decide (buffer f = 0)); [contradiction | reflexivity].
Qed.

Lemma held_by_revoked (frames : list VmbFrame_t) : held_by (map revoked frames) = [].
Proof.
  apply held_by_clean. apply Forall_forall. intros f Hf.
  apply list_elem_of_fmap in Hf as (g & -> & _). unfold revoked.
  destruct (decide (buffer g <> 0)) as [|Hz]; [reflexivity |].
  destruct (decide (buffer g = 0)); [done | contradiction].
Qed.

(** X8.  No buffer is lost between [alloc_and_announce_buffers] and the
    next [revoke_and_free_buffers].  On a pool that holds no memory, in
    the allocation mode AnnounceFrame and whatever the camera answers,
    the addresses [VmbAlignedAlloc] handed out are those the pool holds
    after the allocation, followed by those already given back on the
    error path; [revoke_and_free_buffers] then allocates nothing, gives
    back exactly the addresses the pool holds and leaves a pool without
    memory.  So the addresses given back over both calls are those handed
    out, each as often as it was handed out. *)
Theorem alloc_then_revoke_leaks_nothing (s : GstVmbSrc) :
  (forall f, f ∈ frame_buffers s -> buffer f = 0) ->
  allocation_mode (properties s) = GST_VMBSRC_ALLOCATION_MODE_ANNOUNCE_FRAME ->
  let s1 := (alloc_and_announce_buffers s).2 in
  let s2 := (revoke_and_free_buffers s1).2 in
  allocated (calls_since s s1)
  = held_by (frame_buffers s1) ++ released (calls_since s s1)
  /\ allocated (calls_since s1 s2) = []
  /\ released (calls_since s1 s2) = held_by (frame_buffers s1)
  /\ held_by (frame_buffers s2) = []
  /\ allocated (calls_since s s2) ≡ₚ released (calls_since s s2).
Proof.
  intros Hclean Hmode s1 s2.
  destruct (alloc_and_announce_buffers_cases s)
    as (rp & evs & L & _ & Pr & _ & Acc & _).
  fold s1 in L, Pr, Acc.
  apply Forall_forall in Hclean. specialize (Acc Hclean).
  destruct (revoke_and_free_buffers_spec s1) as (evs2 & Hcalls & Hs2).
  fold s2 in Hs2. rewrite Pr, Hmode in Hcalls.
  assert (L2 : sdk_log s2 = sdk_log s1 ++ evs2) by (by rewrite Hs2).
  assert (F2 : frame_buffers s2 = map revoked (frame_buffers s1)) by (by rewrite Hs2).
  assert (A1 : allocated (calls_since s s1)
               = held_by (frame_buffers s1) ++ released (calls_since s s1)).
  { rewrite (calls_since_app s s1 _ L).
    change ((VmbPayloadSizeGet, rp) :: evs) with ([(VmbPayloadSizeGet, rp)] ++ evs).
    rewrite allocated_app, released_app. exact Acc. }
  assert (A2 : allocated (calls_since s1 s2) = []).
  { rewrite (calls_since_app s1 s2 _ L2). apply allocated_none.
    rewrite Hcalls. apply revoke_calls_no_alloc. }
  assert (R2 : released (calls_since s1 s2) = held_by (frame_buffers s1)).
  { rewrite (calls_since_app s1 s2 _ L2), released_calls, Hcalls.
    apply revoke_calls_release_the_pool. }
  split; [exact A1 |]. split; [exact A2 |]. split; [exact R2 |].
  split; [rewrite F2; apply held_by_revoked |].
  assert (L02 : sdk_log s2 = sdk_log s ++ calls_since s s1 ++ calls_since s1 s2).
  { rewrite (calls_since_app s s1 _ L), (calls_since_app s1 s2 _ L2), L2, L.
    by rewrite <- app_assoc. }
  rewrite (calls_since_app s s2 _ L02), allocated_app, released_app, A1, A2, R2.
  rewrite app_nil_r. apply Permutation_app_comm.
Qed.

(** An allocator that gives out one buffer and then [NULL]. *)
Lemma alloc_then_revoke_leaks_nothing_witness :
  let s := started_element exhausted_allocator 3 default_properties in
  let s1 := (alloc_and_announce_buffers s).2 in
  let s2 := (revoke_and_free_buffers s1).2 in
  allocated (calls_since s s1)
  = held_by (frame_buffers s1) ++ released (calls_since s s1)
  /\ allocated (calls_since s1 s2) = []
  /\ released (calls_since s1 s2) = held_by (frame_buffers s1)
  /\ held_by (frame_buffers s2) = []
  /\ allocated (calls_since s s2) ≡ₚ released (calls_since s s2).
Proof.
  apply (alloc_then_revoke_leaks_nothing
           (started_element exhausted_allocator 3 default_properties)).
  - intros f Hf. apply elem_of_replicate in Hf as [-> _]. reflexivity.
  - reflexivity.
Defined.

(** X6.  When the camera refuses a [VmbFrameAnnounce],
    [alloc_and_announce_buffers] ends right there: the last two calls are
    the refused announce and a [free] of the buffer of that frame, the
    code of the announce is returned and the descriptor is zeroed.  When
    the element allocates the buffers itself, the buffer passed to [free]
    is the one [VmbAlignedAlloc] handed out in the call just before; it
    does not go through [VmbAlignedFree]. *)
Theorem announce_failure_frees_with_libc_free (s : GstVmbSrc) (i : nat)
    (f : VmbFrame_t) (resp : VmbResponse) :
  let run := alloc_and_announce_buffers s in
  (VmbFrameAnnounce i f, resp) ∈ calls_since s run.2 ->
  r_err resp <> VmbErrorSuccess ->
  exists before rf,
    calls_since s run.2
    = before ++ [(VmbFrameAnnounce i f, resp); (libc_free (buffer f), rf)]
    /\ run.1 = r_err resp
    /\ frame_at i run.2 = zero_frame
    /\ (allocation_mode (properties s) = GST_VMBSRC_ALLOCATION_MODE_ANNOUNCE_FRAME ->
        buffer f <> 0
        /\ exists before' alignment size ra,
             before = before' ++ [(VmbAlignedAlloc alignment size, ra)]
             /\ r_val ra = buffer f).
Proof.
  intros run Hin Hbad. subst run.
  destruct (alloc_and_announce_buffers_cases s)
    as (rp & evs & L & _ & _ & _ & _ & Bad & _).
  rewrite (calls_since_app _ _ _ L) in Hin |- *.
  apply elem_of_cons in Hin as [Hin|Hin]; [discriminate |].
  destruct (Bad i f resp Hin Hbad) as (before & rf & -> & Hr & Hz & Hm).
  exists ((VmbPayloadSizeGet, rp) :: before), rf.
  split; [reflexivity |]. split; [exact Hr |]. split; [exact Hz |].
  intros Hmode. destruct (Hm Hmode) as (Hnz & before' & al & ra & -> & Hra).
  split; [exact Hnz |].
  by exists ((VmbPayloadSizeGet, rp) :: before'), al, (r_val rp), ra.
Qed.

(** The camera refuses frame 1; its buffer at 24576 goes to [free]. *)
Lemma announce_failure_frees_with_libc_free_witness :
  let s := started_element announce_refusing_camera 3 default_properties in
  let run := alloc_and_announce_buffers s in
  let f := {| buffer := 24576; bufferSize := 4096; context0 := Some 0%nat;
              receiveStatus := VmbFrameStatusComplete; frameID := 0 |} in
  exists before rf,
    calls_since s run.2
    = before ++ [(VmbFrameAnnounce 1 f, failure VmbErrorBadParameter);
                 (libc_free 24576, rf)]
    /\ run.1 = VmbErrorBadParameter
    /\ frame_at 1 run.2 = zero_frame
    /\ (allocation_mode (properties s) = GST_VMBSRC_ALLOCATION_MODE_ANNOUNCE_FRAME ->
        24576 <> 0
        /\ exists before' alignment size ra,
             before = before' ++ [(VmbAlignedAlloc alignment size, ra)]
             /\ r_val ra = 24576).
Proof.
  apply (announce_failure_frees_with_libc_free
           (started_element announce_refusing_camera 3 default_properties) 1
           {| buffer := 24576; bufferSize := 4096; context0 := Some 0%nat;
              receiveStatus := VmbFrameStatusComplete; frameID := 0 |}
           (failure VmbErrorBadParameter)).
  - apply (list_elem_of_lookup_2 _ 6%nat). vm_compute. reflexivity.
  - discriminate.
Defined.





(** ** The capture session, call by call *)

Lemma command_is_done_loop_calls (polls : nat) (name : string) :
  forall s s',
    command_is_done_loop polls name s = Some s' ->
    exists evs,
      s' = with_sdk_log (sdk_log s ++ evs) s
      /\ Forall (fun ev => ev.1 = VmbFeatureCommandIsDone name) evs
      /\ (0 < length evs <= polls)%nat.
Proof.
  induction polls as [|polls IH]; intros s s' Hrun; [discriminate |].
  cbn [command_is_done_loop] in Hrun. rewrite (let_pair (sdk _ s)) in Hrun.
  set (r := (sdk (VmbFeatureCommandIsDone name) s).1) in *.
  set (s1 := (sdk (VmbFeatureCommandIsDone name) s).2) in *.
  assert (E1 : s1 = with_sdk_log (sdk_log s ++ [(VmbFeatureCommandIsDone name, r)]) s)
    by reflexivity.
  assert (Hone : exists evs,
             s1 = with_sdk_log (sdk_log s ++ evs) s
             /\ Forall (fun ev => ev.1 = VmbFeatureCommandIsDone name) evs
             /\ (0 < length evs <= S polls)%nat).
  { exists [(VmbFeatureCommandIsDone name, r)].
    split; [exact E1 |]. split; [by repeat constructor | cbn; lia]. }
  destruct (decide (r_err r <> VmbErrorSuccess)); [by injection Hrun as <- |].
  destruct (decide (r_val r = 0)); [| by injection Hrun as <-].
  destruct (IH s1 s' Hrun) as (evs & -> & Hall & Hlen).
  exists ((VmbFeatureCommandIsDone name, r) :: evs).
  split.
  - rewrite E1. unfold with_sdk_log. cbn. by rewrite <- app_assoc.
  - split; [by constructor | cbn; lia].
Qed.

Lemma capture_frame_queue_loop_calls (indices : list nat) :
  forall s,
    let run := capture_frame_queue_loop indices VmbErrorSuccess s in
    exists evs,
      run.2 = with_sdk_log (sdk_log s ++ evs) s
      /\ ((run.1 = VmbErrorSuccess
           /\ map fst evs = map VmbCaptureFrameQueue indices
           /\ Forall (fun ev => r_err ev.2 = VmbErrorSuccess) evs)
          \/ (exists queued bad,
                evs = queued ++ [bad]
                /\ (length queued < length indices)%nat
                /\ map fst evs
                   = map VmbCaptureFrameQueue (take (S (length queued)) indices)
                /\ Forall (fun ev => r_err ev.2 = VmbErrorSuccess) queued
                /\ r_err bad.2 <> VmbErrorSuccess
                /\ run.1 = r_err bad.2)).
Proof.
  induction indices as [|i rest IH]; intros s run; subst run.
  - exists []. cbn. split; [destruct s; cbn; by rewrite app_nil_r |].
    left. by repeat split.
  - cbn [capture_frame_queue_loop]. rewrite bind_run.
    set (r := (sdk (VmbCaptureFrameQueue i) s).1).
    set (s1 := (sdk (VmbCaptureFrameQueue i) s).2).
    assert (E1 : s1 = with_sdk_log (sdk_log s ++ [(VmbCaptureFrameQueue i, r)]) s)
      by reflexivity.
    destruct (decide (VmbErrorSuccess <> r_err r)) as [Hbad|Hok].
    + exists [(VmbCaptureFrameQueue i, r)]. split; [exact E1 |].
      right. exists [], (VmbCaptureFrameQueue i, r). cbn.
      split; [reflexivity |]. split; [lia |]. split; [reflexivity |].
      split; [constructor |].
      split; [intros E; apply Hbad; symmetry; exact E | reflexivity].
    + assert (Hr : r_err r = VmbErrorSuccess)
        by (destruct (decide (r_err r = VmbErrorSuccess)); [done |];
            exfalso; apply Hok; intros E; symmetry in E; contradiction).
      rewrite Hr.
      destruct (IH s1) as (evs & Hs & Hcase).
      exists ((VmbCaptureFrameQueue i, r) :: evs).
      split.
      { rewrite Hs, E1. unfold with_sdk_log. cbn. by rewrite <- app_assoc. }
      destruct Hcase as [(Hres & Hcalls & Hall)
                        |(queued & bad & -> & Hlen & Hcalls & Hall & Hb & Hres)].
      * left. split; [exact Hres |]. split; [cbn; by rewrite Hcalls |].
        by constructor.
      * right. exists ((VmbCaptureFrameQueue i, r) :: queued), bad.
        split; [reflexivity |]. split; [cbn; lia |].
        split; [cbn; by rewrite Hcalls |].
        split; [by constructor |]. split; [exact Hb | exact Hres].
Qed.

Lemma start_image_acquisition_run (polls : nat) (s s' : GstVmbSrc)
    (result : VmbError_t) :
  start_image_acquisition polls s = Some (result, s') ->
  exists evs,
    sdk_log s' = sdk_log s ++ evs
    /\ ((exists r0,
           evs = [(VmbCaptureStart, r0)]
           /\ r_err r0 <> VmbErrorSuccess
           /\ result = r_err r0
           /\ s' = with_sdk_log (sdk_log s ++ evs) s)
        \/ (exists r0 queued bad,
              evs = (VmbCaptureStart, r0) :: queued ++ [bad]
              /\ r_err r0 = VmbErrorSuccess
              /\ (length queued < NUM_FRAME_BUFFERS s)%nat
              /\ map fst (queued ++ [bad])
                 = map VmbCaptureFrameQueue (seq 0 (S (length queued)))
              /\ Forall (fun ev => r_err ev.2 = VmbErrorSuccess) queued
              /\ r_err bad.2 <> VmbErrorSuccess
              /\ result = r_err bad.2
              /\ s' = with_sdk_log (sdk_log s ++ evs) s)
        \/ (exists r0 queued rrun waited,
              evs = (VmbCaptureStart, r0) :: queued
                    ++ (VmbFeatureCommandRun "AcquisitionStart", rrun) :: waited
              /\ r_err r0 = VmbErrorSuccess
              /\ map fst queued = map VmbCaptureFrameQueue (seq 0 (NUM_FRAME_BUFFERS s))
              /\ Forall (fun ev => r_err ev.2 = VmbErrorSuccess) queued
              /\ Forall (fun ev => ev.1 = VmbFeatureCommandIsDone "AcquisitionStart")
                        waited
              /\ (0 < length waited <= polls)%nat
              /\ result = r_err rrun
              /\ s' = with_is_acquiring true (with_sdk_log (sdk_log s ++ evs) s))).
Proof.
  intros Hrun. unfold start_image_acquisition in Hrun.
  rewrite (let_pair (sdk VmbCaptureStart s)) in Hrun.
  set (r0 := (sdk VmbCaptureStart s).1) in *.
  set (s1 := (sdk VmbCaptureStart s).2) in *.
  assert (E1 : s1 = with_sdk_log (sdk_log s ++ [(VmbCaptureStart, r0)]) s) by reflexivity.
  destruct (decide (r_err r0 = VmbErrorSuccess)) as [Hok|Hbad].
  - rewrite (let_pair (capture_frame_queue_loop _ _ s1)) in Hrun.
    rewrite Hok in Hrun.
    destruct (capture_frame_queue_loop_calls (seq 0 (NUM_FRAME_BUFFERS s1)) s1)
      as (qevs & E2 & Hcase).
    change (NUM_FRAME_BUFFERS s1) with (NUM_FRAME_BUFFERS s) in *.
    set (run := capture_frame_queue_loop (seq 0 (NUM_FRAME_BUFFERS s)) VmbErrorSuccess s1)
      in *.
    destruct Hcase as [(Hres & Hcalls & Hall)
                      |(queued & bad & -> & Hlen & Hcalls & Hall & Hb & Hres)].
    + rewrite Hres in Hrun.
      destruct (decide (VmbErrorSuccess = VmbErrorSuccess)); [| contradiction].
      rewrite (let_pair (sdk _ run.2)) in Hrun.
      set (rrun := (sdk (VmbFeatureCommandRun "AcquisitionStart") run.2).1) in *.
      set (s3 := (sdk (VmbFeatureCommandRun "AcquisitionStart") run.2).2) in *.
      assert (E3 : s3 = with_sdk_log
                          (sdk_log run.2
                           ++ [(VmbFeatureCommandRun "AcquisitionStart", rrun)]) run.2)
        by reflexivity.
      destruct (command_is_done_loop polls "AcquisitionStart" s3) as [s4|] eqn:Hloop;
        [| discriminate].
      injection Hrun as <- <-.
      destruct (command_is_done_loop_calls _ _ _ _ Hloop) as (waited & -> & Hw & Hlen).
      assert (L : sdk_log (with_is_acquiring true
                             (with_sdk_log (sdk_log s3 ++ waited) s3))
                  = sdk_log s ++ (VmbCaptureStart, r0) :: qevs
                      ++ (VmbFeatureCommandRun "AcquisitionStart", rrun) :: waited).
      { rewrite E3, E2, E1. cbn. rewrite <- !app_assoc. reflexivity. }
      eexists. split; [exact L |].
      right. right. exists r0, qevs, rrun, waited.
      split; [reflexivity |]. split; [exact Hok |]. split; [exact Hcalls |].
      split; [exact Hall |]. split; [exact Hw |]. split; [exact Hlen |].
      split; [reflexivity |].
      rewrite E3, E2, E1. unfold with_is_acquiring, with_sdk_log. cbn.
      by rewrite <- !app_assoc.
    + rewrite Hres in Hrun.
      destruct (decide (VmbErrorSuccess = r_err bad.2)) as [E|_];
        [symmetry in E; contradiction |].
      injection Hrun as <- <-.
      rewrite length_seq in Hlen.
      assert (L : sdk_log run.2 = sdk_log s ++ (VmbCaptureStart, r0) :: queued ++ [bad]).
      { rewrite E2, E1. cbn. rewrite <- !app_assoc. reflexivity. }
      eexists. split; [exact L |].
      right. left. exists r0, queued, bad.
      split; [reflexivity |]. split; [exact Hok |]. split; [exact Hlen |].
      split.
      { rewrite Hcalls, take_seq. f_equal. f_equal. lia. }
      split; [exact Hall |]. split; [exact Hb |]. split; [reflexivity |].
      rewrite E2, E1. unfold with_sdk_log. cbn. by rewrite <- !app_assoc.
  - injection Hrun as <- <-.
    assert (L : sdk_log s1 = sdk_log s ++ [(VmbCaptureStart, r0)]) by reflexivity.
    eexists. split; [exact L |].
    left. exists r0. by repeat split.
Qed.


(** X9.  A [start_image_acquisition] that returns has done one of three
    things.  The camera refused [VmbCaptureStart]: that was the only
    call, its code is returned.  The camera refused to queue a frame:
    the frames 0, 1, ... were queued in this order up to the refused
    one, whose code is returned, AcquisitionStart was not run and the
    capture was not ended again.  Or every frame of the pool was queued,
    AcquisitionStart was run and polled at least once, the code of the
    command is returned and the element is marked as acquiring.  In the
    first two cases nothing but the transcript has changed. *)
Theorem start_image_acquisition_outcomes (polls : nat) (s s' : GstVmbSrc)
    (result : VmbError_t) :
  start_image_acquisition polls s = Some (result, s') ->
  let evs := calls_since s s' in
  let n := NUM_FRAME_BUFFERS s in
  (exists r0,
     evs = [(VmbCaptureStart, r0)]
     /\ r_err r0 <> VmbErrorSuccess
     /\ result = r_err r0
     /\ s' = with_sdk_log (sdk_log s ++ evs) s)
  \/ (exists r0 queued bad,
        evs = (VmbCaptureStart, r0) :: queued ++ [bad]
        /\ r_err r0 = VmbErrorSuccess
        /\ (length queued < n)%nat
        /\ map fst (queued ++ [bad])
           = map VmbCaptureFrameQueue (seq 0 (S (length queued)))
        /\ Forall (fun ev => r_err ev.2 = VmbErrorSuccess) queued
        /\ r_err bad.2 <> VmbErrorSuccess
        /\ result = r_err bad.2
        /\ s' = with_sdk_log (sdk_log s ++ evs) s)
  \/ (exists r0 queued rrun waited,
        evs = (VmbCaptureStart, r0) :: queued
              ++ (VmbFeatureCommandRun "AcquisitionStart", rrun) :: waited
        /\ r_err r0 = VmbErrorSuccess
        /\ map fst queued = map VmbCaptureFrameQueue (seq 0 n)
        /\ Forall (fun ev => r_err ev.2 = VmbErrorSuccess) queued
        /\ Forall (fun ev => ev.1 = VmbFeatureCommandIsDone "AcquisitionStart") waited
        /\ (0 < length waited <= polls)%nat
        /\ result = r_err rrun
        /\ s' = with_is_acquiring true (with_sdk_log (sdk_log s ++ evs) s)).
Proof.
  intros Hrun evs n. subst evs n.
  destruct (start_image_acquisition_run polls s s' result Hrun) as (evs & L & Hcase).
  rewrite (calls_since_app _ _ _ L). exact Hcase.
Qed.

(** A start on a cooperative camera: the third outcome. *)
Lemma start_image_acquisition_outcomes_witness :
  let s := pooled_element cooperative_camera 3 default_properties in
  exists result s',
    start_image_acquisition 1 s = Some (result, s')
    /\ map fst (calls_since s s')
       = [ VmbCaptureStart; VmbCaptureFrameQueue 0; VmbCaptureFrameQueue 1;
           VmbCaptureFrameQueue 2; VmbFeatureCommandRun "AcquisitionStart";
           VmbFeatureCommandIsDone "AcquisitionStart" ]
    /\ ((exists r0,
           calls_since s s' = [(VmbCaptureStart, r0)]
           /\ r_err r0 <> VmbErrorSuccess
           /\ result = r_err r0
           /\ s' = with_sdk_log (sdk_log s ++ calls_since s s') s)
        \/ (exists r0 queued bad,
              calls_since s s' = (VmbCaptureStart, r0) :: queued ++ [bad]
              /\ r_err r0 = VmbErrorSuccess
              /\ (length queued < NUM_FRAME_BUFFERS s)%nat
              /\ map fst (queued ++ [bad])
                 = map VmbCaptureFrameQueue (seq 0 (S (length queued)))
              /\ Forall (fun ev => r_err ev.2 = VmbErrorSuccess) queued
              /\ r_err bad.2 <> VmbErrorSuccess
              /\ result = r_err bad.2
              /\ s' = with_sdk_log (sdk_log s ++ calls_since s s') s)
        \/ (exists r0 queued rrun waited,
              calls_since s s'
              = (VmbCaptureStart, r0) :: queued
                ++ (VmbFeatureCommandRun "AcquisitionStart", rrun) :: waited
              /\ r_err r0 = VmbErrorSuccess
              /\ map fst queued = map VmbCaptureFrameQueue (seq 0 (NUM_FRAME_BUFFERS s))
              /\ Forall (fun ev => r_err ev.2 = VmbErrorSuccess) queued
              /\ Forall (fun ev => ev.1 = VmbFeatureCommandIsDone "AcquisitionStart")
                        waited
              /\ (0 < length waited <= 1)%nat
              /\ result = r_err rrun
              /\ s' = with_is_acquiring true
                        (with_sdk_log (sdk_log s ++ calls_since s s') s))).
Proof.
  intros s.
  destruct (start_image_acquisition 1 s) as [[result s']|] eqn:Hrun;
    [| vm_compute in Hrun; discriminate].
  exists result, s'. split; [reflexivity |]. split.
  - revert Hrun. vm_compute. intros Hrun. injection Hrun as <- <-. reflexivity.
  - exact (start_image_acquisition_outcomes 1 s s' result Hrun).
Defined.

Lemma stop_image_acquisition_run (polls : nat) (s s' : GstVmbSrc)
    (result : VmbError_t) :
  stop_image_acquisition polls s = Some (result, s') ->
  exists rrun waited rend rflush,
    let evs := (VmbFeatureCommandRun "AcquisitionStop", rrun) :: waited
               ++ [(VmbCaptureEnd, rend); (VmbCaptureQueueFlush, rflush)] in
    sdk_log s' = sdk_log s ++ evs
    /\ Forall (fun ev => ev.1 = VmbFeatureCommandIsDone "AcquisitionStop") waited
    /\ (0 < length waited <= polls)%nat
    /\ result = r_err rend
    /\ s' = with_is_acquiring false (with_sdk_log (sdk_log s ++ evs) s).
Proof.
  intros Hrun. unfold stop_image_acquisition in Hrun.
  rewrite (let_pair (sdk _ s)) in Hrun.
  set (rrun := (sdk (VmbFeatureCommandRun "AcquisitionStop") s).1) in *.
  set (s1 := (sdk (VmbFeatureCommandRun "AcquisitionStop") s).2) in *.
  assert (E1 : s1 = with_sdk_log
                      (sdk_log s ++ [(VmbFeatureCommandRun "AcquisitionStop", rrun)]) s)
    by reflexivity.
  destruct (command_is_done_loop polls "AcquisitionStop" s1) as [s2|] eqn:Hloop;
    [| discriminate].
  destruct (command_is_done_loop_calls _ _ _ _ Hloop) as (waited & -> & Hw & Hlen).
  cbv zeta in Hrun. rewrite !let_pair in Hrun.
  match type of Hrun with
  | context [sdk VmbCaptureEnd ?s3] =>
      set (rend := (sdk VmbCaptureEnd s3).1) in *;
      set (s4 := (sdk VmbCaptureEnd s3).2) in *
  end.
  set (rflush := (sdk VmbCaptureQueueFlush s4).1) in *.
  set (s5 := (sdk VmbCaptureQueueFlush s4).2) in *.
  injection Hrun as <- <-.
  assert (L : sdk_log s5
              = sdk_log s ++ (VmbFeatureCommandRun "AcquisitionStop", rrun) :: waited
                  ++ [(VmbCaptureEnd, rend); (VmbCaptureQueueFlush, rflush)]).
  { subst s5 s4. rewrite E1. cbn. rewrite <- !app_assoc. reflexivity. }
  exists rrun, waited, rend, rflush.
  split; [exact L |]. split; [exact Hw |]. split; [exact Hlen |].
  split; [reflexivity |].
  subst s5 s4. rewrite E1. unfold with_is_acquiring, with_sdk_log. cbn.
  by rewrite <- !app_assoc.
Qed.


(** X10.  A [stop_image_acquisition] that returns has always made the
    same calls: AcquisitionStop, at least one poll for its completion,
    [VmbCaptureEnd] and [VmbCaptureQueueFlush].  It returns the code of
    [VmbCaptureEnd], and apart from the transcript it has changed one
    thing: the element is marked as not acquiring. *)
Theorem stop_image_acquisition_outcome (polls : nat) (s s' : GstVmbSrc)
    (result : VmbError_t) :
  stop_image_acquisition polls s = Some (result, s') ->
  exists rrun waited rend rflush,
    calls_since s s'
    = (VmbFeatureCommandRun "AcquisitionStop", rrun) :: waited
      ++ [(VmbCaptureEnd, rend); (VmbCaptureQueueFlush, rflush)]
    /\ Forall (fun ev => ev.1 = VmbFeatureCommandIsDone "AcquisitionStop") waited
    /\ (0 < length waited <= polls)%nat
    /\ result = r_err rend
    /\ s' = with_is_acquiring false (with_sdk_log (sdk_log s ++ calls_since s s') s).
Proof.
  intros Hrun.
  destruct (stop_image_acquisition_run polls s s' result Hrun)
    as (rrun & waited & rend & rflush & L & Hw & Hlen & Hres & Hs).
  cbv zeta in L, Hs.
  exists rrun, waited, rend, rflush. rewrite (calls_since_app _ _ _ L).
  split; [reflexivity |]. split; [exact Hw |]. split; [exact Hlen |].
  split; [exact Hres | exact Hs].
Qed.

(** A stop of a streaming element. *)
Lemma stop_image_acquisition_outcome_witness :
  let s := streaming_element cooperative_camera 3 default_properties in
  exists result s',
    stop_image_acquisition 1 s = Some (result, s')
    /\ is_acquiring s = true
    /\ exists rrun waited rend rflush,
         calls_since s s'
         = (VmbFeatureCommandRun "AcquisitionStop", rrun) :: waited
           ++ [(VmbCaptureEnd, rend); (VmbCaptureQueueFlush, rflush)]
         /\ Forall (fun ev => ev.1 = VmbFeatureCommandIsDone "AcquisitionStop") waited
         /\ (0 < length waited <= 1)%nat
         /\ result = r_err rend
         /\ s' = with_is_acquiring false
                   (with_sdk_log (sdk_log s ++ calls_since s s') s).
Proof.
  intros s.
  destruct (stop_image_acquisition 1 s) as [[result s']|] eqn:Hrun;
    [| vm_compute in Hrun; discriminate].
  exists result, s'. split; [reflexivity |]. split; [reflexivity |].
  exact (stop_image_acquisition_outcome 1 s s' result Hrun).
Defined.

(** ** What the dispatcher hands out *)

Lemma create_run (ticks : list Tick) :
  forall s flow s',
    gst_vmbsrc_create ticks s = Some (flow, s') ->
    exists dropped,
      Forall (fun ev => exists i, ev.1 = VmbCaptureFrameQueue i) dropped
      /\ (incomplete_frame_handling (properties s)
          = GST_VMBSRC_INCOMPLETE_FRAME_HANDLING_SUBMIT -> dropped = [])
      /\ match flow with
         | GST_FLOW_FLUSHING =>
             sdk_log s' = sdk_log s ++ dropped
             /\ num_frames_pushed s' = num_frames_pushed s
         | GST_FLOW_OK fr buf =>
             exists r,
               sdk_log s' = sdk_log s ++ dropped ++ [(VmbCaptureFrameQueue fr, r)]
               /\ num_frames_pushed s' = num_frames_pushed s + 1
               /\ gb_offset buf = num_frames_pushed s
               /\ gb_offset_end buf = num_frames_pushed s + 1
               /\ gb_size buf = bufferSize (frame_at fr s')
               /\ gb_data buf = buffer (frame_at fr s')
         end.
Proof.
  induction ticks as [|t later IH]; intros s flow s' Hrun; [discriminate |].
  cbn [gst_vmbsrc_create] in Hrun.
  pose proof (keeps_same_device_completes_all properties (completed t)
                (fun _ _ => eq_refl) (fun _ _ => eq_refl) s) as Hp0.
  pose proof (keeps_same_device_completes_all sdk_log (completed t)
                (fun _ _ => eq_refl) (fun _ _ => eq_refl) s) as Hl0.
  pose proof (keeps_same_device_completes_all num_frames_pushed (completed t)
                (fun _ _ => eq_refl) (fun _ _ => eq_refl) s) as Hn0.
  destruct (device_completes_all (completed t) s) as [[] s0]. cbn [snd] in *.
  pose proof (keeps_same_pop properties (filled_frame_queue s0)
                (fun _ _ => eq_refl) s0) as Hp1.
  pose proof (keeps_same_pop sdk_log (filled_frame_queue s0)
                (fun _ _ => eq_refl) s0) as Hl1.
  pose proof (keeps_same_pop num_frames_pushed (filled_frame_queue s0)
                (fun _ _ => eq_refl) s0) as Hn1.
  destruct (g_async_queue_timeout_pop (filled_frame_queue s0) s0) as [popped s1].
  cbn [snd] in *. unfold same in *.
  assert (Hp : properties s1 = properties s) by congruence.
  assert (Hl : sdk_log s1 = sdk_log s) by congruence.
  assert (Hn : num_frames_pushed s1 = num_frames_pushed s) by congruence.
  clear Hp0 Hl0 Hn0 Hp1 Hl1 Hn1.
  assert (Hsubmit : forall frame,
            Some (submit_frame frame s1) = Some (flow, s') ->
            exists dropped,
              Forall (fun ev => exists i, ev.1 = VmbCaptureFrameQueue i) dropped
              /\ (incomplete_frame_handling (properties s)
                  = GST_VMBSRC_INCOMPLETE_FRAME_HANDLING_SUBMIT -> dropped = [])
              /\ match flow with
                 | GST_FLOW_FLUSHING =>
                     sdk_log s' = sdk_log s ++ dropped
                     /\ num_frames_pushed s' = num_frames_pushed s
                 | GST_FLOW_OK fr buf =>
                     exists r,
                       sdk_log s' = sdk_log s ++ dropped ++ [(VmbCaptureFrameQueue fr, r)]
                       /\ num_frames_pushed s' = num_frames_pushed s + 1
                       /\ gb_offset buf = num_frames_pushed s
                       /\ gb_offset_end buf = num_frames_pushed s + 1
                       /\ gb_size buf = bufferSize (frame_at fr s')
                       /\ gb_data buf = buffer (frame_at fr s')
                 end).
  { intros frame Hs. injection Hs as <- <-. exists [].
    split; [constructor |]. split; [done |].
    eexists. cbn. rewrite Hl, Hn. by repeat split. }
  destruct (decide (element_state t <> GST_STATE_PLAYING)).
  - injection Hrun as <- <-. exists [].
    split; [constructor |]. split; [done |].
    split; [by rewrite app_nil_r | exact Hn].
  - destruct popped as [frame|]; [| rewrite <- Hp, <- Hl, <- Hn; by apply IH].
    destruct (decide (receiveStatus (frame_at frame s1) = VmbFrameStatusIncomplete));
      [| by apply (Hsubmit frame)].
    destruct (decide (incomplete_frame_handling (properties s1)
                      = GST_VMBSRC_INCOMPLETE_FRAME_HANDLING_SUBMIT)) as [|Hdrop];
      [by apply (Hsubmit frame) |].
    rewrite (let_pair (sdk _ s1)) in Hrun.
    set (r := (sdk (VmbCaptureFrameQueue frame) s1).1) in *.
    set (s2 := (sdk (VmbCaptureFrameQueue frame) s1).2) in *.
    assert (L2 : sdk_log s2 = sdk_log s ++ [(VmbCaptureFrameQueue frame, r)])
      by (rewrite <- Hl; reflexivity).
    assert (P2 : properties s2 = properties s) by (rewrite <- Hp; reflexivity).
    assert (N2 : num_frames_pushed s2 = num_frames_pushed s)
      by (rewrite <- Hn; reflexivity).
    destruct (IH s2 flow s' Hrun) as (dropped & Hall & _ & Hflow).
    exists ((VmbCaptureFrameQueue frame, r) :: dropped).
    split; [constructor; [by exists frame | exact Hall] |].
    split; [intros Hs; rewrite <- Hp in Hs; contradiction |].
    rewrite L2, N2 in Hflow. destruct flow as [|fr buf].
    + destruct Hflow as [-> ->]. by rewrite <- app_assoc.
    + destruct Hflow as (r' & -> & ?). exists r'. by rewrite <- !app_assoc.
Qed.

(** X2.  Under the Submit policy an incomplete frame is handed out like
    a complete one: at a poll where the element is PLAYING and the frame
    taken from the queue has the receive status Incomplete, the call
    returns a buffer made from that frame, the descriptor still says
    Incomplete, exactly one call went to the camera (the requeue of the
    frame) and the count of pushed frames went up by one. *)
Theorem create_submits_incomplete_frame (t : Tick) (later : list Tick)
    (s : GstVmbSrc) (frame : nat) :
  let s0 := (device_completes_all (completed t) s).2 in
  let popped := g_async_queue_timeout_pop (filled_frame_queue s0) s0 in
  incomplete_frame_handling (properties s) = GST_VMBSRC_INCOMPLETE_FRAME_HANDLING_SUBMIT ->
  element_state t = GST_STATE_PLAYING ->
  popped.1 = Some frame ->
  receiveStatus (frame_at frame popped.2) = VmbFrameStatusIncomplete ->
  exists buf s',
    gst_vmbsrc_create (t :: later) s = Some (GST_FLOW_OK frame buf, s')
    /\ receiveStatus (frame_at frame s') = VmbFrameStatusIncomplete
    /\ gb_size buf = bufferSize (frame_at frame s')
    /\ gb_data buf = buffer (frame_at frame s')
    /\ map fst (calls_since s s') = [VmbCaptureFrameQueue frame]
    /\ num_frames_pushed s' = num_frames_pushed s + 1.
Proof.
  intros s0 popped Hsubmit Hplaying Hpop Hinc.
  pose proof (keeps_same_device_completes_all properties (completed t)
                (fun _ _ => eq_refl) (fun _ _ => eq_refl) s) as Hp0.
  pose proof (keeps_same_device_completes_all sdk_log (completed t)
                (fun _ _ => eq_refl) (fun _ _ => eq_refl) s) as Hl0.
  pose proof (keeps_same_device_completes_all num_frames_pushed (completed t)
                (fun _ _ => eq_refl) (fun _ _ => eq_refl) s) as Hn0.
  pose proof (keeps_same_pop properties (filled_frame_queue s0)
                (fun _ _ => eq_refl) s0) as Hp1.
  pose proof (keeps_same_pop sdk_log (filled_frame_queue s0)
                (fun _ _ => eq_refl) s0) as Hl1.
  pose proof (keeps_same_pop num_frames_pushed (filled_frame_queue s0)
                (fun _ _ => eq_refl) s0) as Hn1.
  unfold same in *. fold s0 in Hp0, Hl0, Hn0. fold popped in Hp1, Hl1, Hn1.
  cbn [gst_vmbsrc_create]. fold s0.
  destruct (device_completes_all (completed t) s) as [[] s0'] eqn:E0.
  subst s0. cbn [snd] in *. fold popped.
  destruct popped as [fr s1]. cbn [fst snd] in *. subst fr.
  rewrite decide_False by (intros H; by apply H).
  rewrite decide_True by exact Hinc.
  rewrite decide_True by (rewrite Hp1, Hp0; exact Hsubmit).
  unfold submit_frame. cbn [bind get modify ret sdk fst snd].
  eexists _, _. split; [reflexivity |].
  split; [exact Hinc |]. split; [reflexivity |]. split; [reflexivity |].
  split.
  - rewrite (calls_since_app s _
               [(VmbCaptureFrameQueue frame,
                 device s1 (sdk_log s1) (VmbCaptureFrameQueue frame))]).
    + reflexivity.
    + cbn. congruence.
  - cbn. congruence.
Qed.

(** Frame 1 arrives incomplete on an element with the Submit policy. *)
Lemma create_submits_incomplete_frame_witness :
  let s := streaming_element cooperative_camera 3 submit_properties in
  exists buf s',
    gst_vmbsrc_create [incomplete_tick] s = Some (GST_FLOW_OK 1 buf, s')
    /\ receiveStatus (frame_at 1 s') = VmbFrameStatusIncomplete
    /\ gb_size buf = bufferSize (frame_at 1 s')
    /\ gb_data buf = buffer (frame_at 1 s')
    /\ map fst (calls_since s s') = [VmbCaptureFrameQueue 1]
    /\ num_frames_pushed s' = num_frames_pushed s + 1.
Proof.
  intros s.
  apply (create_submits_incomplete_frame incomplete_tick [] s 1);
    vm_compute; reflexivity.
Defined.

Lemma pop_oldest (s : GstVmbSrc) (fr : nat) (rest : list nat) :
  filled_frames s = fr :: rest ->
  let run := g_async_queue_timeout_pop (filled_frame_queue s) s in
  run.1 = Some fr
  /\ filled_frames run.2 = rest
  /\ run.2 = with_queues (queues run.2) s.
Proof.
  unfold filled_frames, g_async_queue_timeout_pop. intros H.
  destruct (filled_frame_queue s) as [q|] eqn:Eq; [| discriminate].
  destruct (queues s !! q) as [o|] eqn:Eo; [| discriminate].
  rewrite H. cbn. rewrite Eq.
  rewrite list_lookup_insert_eq by (apply lookup_lt_is_Some; by rewrite Eo).
  by repeat split.
Qed.

Lemma pop_nothing (s : GstVmbSrc) :
  filled_frames s = [] ->
  g_async_queue_timeout_pop (filled_frame_queue s) s = (None, s).
Proof.
  unfold filled_frames, g_async_queue_timeout_pop. intros H.
  destruct (filled_frame_queue s) as [q|]; [| reflexivity].
  destruct (queues s !! q) as [o|]; [| reflexivity].
  by rewrite H.
Qed.

Lemma device_completes_routed (c : Completion) (s : GstVmbSrc) :
  routed s ->
  (c_frame c < NUM_FRAME_BUFFERS s)%nat ->
  let s0 := (device_completes c s).2 in
  routed s0
  /\ filled_frames s0 = filled_frames s ++ [c_frame c]
  /\ NUM_FRAME_BUFFERS s0 = NUM_FRAME_BUFFERS s
  /\ (forall i, buffer (frame_at i s0) = buffer (frame_at i s)
                /\ bufferSize (frame_at i s0) = bufferSize (frame_at i s)).
Proof.
  intros (q & Hq & Hlen & Hall) Hc s0. subst s0. unfold NUM_FRAME_BUFFERS in *.
  unfold device_completes, vimbax_frame_callback.
  rewrite !bind_run. cbn [get fst snd].
  set (f := frame_at (c_frame c) s).
  assert (Hf : context0 f = Some q).
  { subst f. unfold frame_at. rewrite nth_lookup.
    destruct (lookup_lt_is_Some_2 _ _ Hc) as [x Hx]. rewrite Hx. cbn.
    exact (Forall_lookup_1 _ _ _ _ Hall Hx). }
  match goal with |- context [set_frame (c_frame c) ?g s] => set (f' := g) end.
  set (s1 := (set_frame (c_frame c) f' s).2).
  assert (E1 : frame_at (c_frame c) s1 = f')
    by (unfold frame_at; cbn; by apply frame_at_insert_eq).
  rewrite E1. cbn [context0 f']. rewrite Hf. cbn.
  destruct (lookup_lt_is_Some_2 _ _ Hlen) as [o Ho].
  split; [| split; [| split]].
  - exists q. cbn. split; [exact Hq |]. split; [by rewrite length_alter |].
    apply Forall_insert; [exact Hall | exact Hf].
  - unfold filled_frames. cbn. rewrite Hq, list_lookup_alter_eq, Ho. reflexivity.
  - by rewrite length_insert.
  - intros i. unfold frame_at. cbn.
    destruct (decide (c_frame c = i)) as [<-|Hne].
    + rewrite frame_at_insert_eq by exact Hc. by split.
    + rewrite frame_at_insert_ne by exact Hne. by split.
Qed.

Lemma device_completes_all_routed (cs : list Completion) :
  forall s,
    routed s ->
    Forall (fun c => (c_frame c < NUM_FRAME_BUFFERS s)%nat) cs ->
    let s0 := (device_completes_all cs s).2 in
    routed s0
    /\ filled_frames s0 = filled_frames s ++ map c_frame cs
    /\ NUM_FRAME_BUFFERS s0 = NUM_FRAME_BUFFERS s
    /\ (forall i, buffer (frame_at i s0) = buffer (frame_at i s)
                  /\ bufferSize (frame_at i s0) = bufferSize (frame_at i s)).
Proof.
  induction cs as [|c rest IH]; intros s Hr Hall s0; subst s0.
  - cbn. rewrite app_nil_r. by repeat split.
  - cbn [device_completes_all]. rewrite bind_run.
    apply Forall_cons in Hall as [Hc Hall].
    destruct (device_completes_routed c s Hr Hc) as (Hr1 & Hq1 & Hn1 & Hb1).
    set (s1 := (device_completes c s).2) in *.
    rewrite <- Hn1 in Hall.
    destruct (IH s1 Hr1 Hall) as (Hr2 & Hq2 & Hn2 & Hb2).
    split; [exact Hr2 |].
    split; [rewrite Hq2, Hq1, <- app_assoc; reflexivity |].
    split; [congruence |].
    intros i. destruct (Hb1 i), (Hb2 i). split; congruence.
Qed.

(** X3.  Frames leave the element in the order in which the camera
    completed them.  When every descriptor hands its frames to the queue
    the element drains, the frames waiting in the queue followed by the
    frames completed since the last poll are [fr :: rest], the element is
    PLAYING and [fr] is not incomplete, the call returns the buffer of
    [fr], with the data and size the descriptor had, and leaves [rest]
    waiting in the queue. *)
Theorem create_delivers_oldest_frame (t : Tick) (later : list Tick) (s : GstVmbSrc)
    (fr : nat) (rest : list nat) :
  routed s ->
  Forall (fun c => (c_frame c < NUM_FRAME_BUFFERS s)%nat) (completed t) ->
  element_state t = GST_STATE_PLAYING ->
  filled_frames s ++ map c_frame (completed t) = fr :: rest ->
  receiveStatus (frame_at fr (device_completes_all (completed t) s).2)
  <> VmbFrameStatusIncomplete ->
  exists buf s',
    gst_vmbsrc_create (t :: later) s = Some (GST_FLOW_OK fr buf, s')
    /\ filled_frames s' = rest
    /\ gb_data buf = buffer (frame_at fr s)
    /\ gb_size buf = bufferSize (frame_at fr s).
Proof.
  intros Hr Hall Hplaying Hqueue Hstatus.
  destruct (device_completes_all_routed (completed t) s Hr Hall) as (_ & Hq0 & _ & Hb0).
  cbn [gst_vmbsrc_create].
  destruct (device_completes_all (completed t) s) as [[] s0]. cbn [snd] in *.
  rewrite Hqueue in Hq0.
  destruct (pop_oldest s0 fr rest Hq0) as (Hpop & Hq1 & Hs1).
  destruct (g_async_queue_timeout_pop (filled_frame_queue s0) s0) as [popped s1].
  cbn [fst snd] in *. subst popped.
  assert (Hfb : frame_buffers s1 = frame_buffers s0) by (by rewrite Hs1).
  rewrite decide_False by (intros H; by apply H).
  rewrite decide_False by (unfold frame_at; rewrite Hfb; exact Hstatus).
  unfold submit_frame. cbn [bind get modify ret sdk fst snd].
  eexists _, _. split; [reflexivity |].
  split; [exact Hq1 |]. cbn. unfold frame_at in *. rewrite Hfb.
  destruct (Hb0 fr). by split.
Qed.

(** The camera completes frame 2, then frame 0, before the poll. *)
Lemma create_delivers_oldest_frame_witness :
  let s := streaming_element cooperative_camera 3 default_properties in
  exists buf s',
    gst_vmbsrc_create [complete_tick] s = Some (GST_FLOW_OK 2 buf, s')
    /\ filled_frames s' = [0%nat]
    /\ gb_data buf = buffer (frame_at 2 s)
    /\ gb_size buf = bufferSize (frame_at 2 s).
Proof.
  intros s.
  apply (create_delivers_oldest_frame complete_tick [] s 2 [0%nat]).
  - exists 1%nat. split; [reflexivity |]. split; [vm_compute; lia |].
    vm_compute. repeat constructor.
  - vm_compute. repeat constructor.
  - reflexivity.
  - reflexivity.
  - vm_compute. discriminate.
Defined.

(** X4.  [gst_vmbsrc_create] has no way out but a frame or a change of
    state: with an empty queue, as long as the element is PLAYING and the
    camera completes nothing, the call does not return, however many
    polls it is given. *)
Theorem create_waits_for_a_frame (ticks : list Tick) (s : GstVmbSrc) :
  filled_frames s = [] ->
  Forall (fun t => completed t = [] /\ element_state t = GST_STATE_PLAYING) ticks ->
  gst_vmbsrc_create ticks s = None.
Proof.
  intros Hempty Hall. induction Hall as [|t later [Hc Hp] _ IH]; [reflexivity |].
  cbn [gst_vmbsrc_create]. rewrite Hc. cbn [device_completes_all ret].
  rewrite (pop_nothing s Hempty).
  rewrite decide_False by (intros H; by apply H).
  exact IH.
Qed.

(** Two polls of a streaming element at which nothing has arrived. *)
Lemma create_waits_for_a_frame_witness :
  gst_vmbsrc_create [idle_tick; idle_tick]
    (streaming_element cooperative_camera 3 default_properties) = None.
Proof.
  apply (create_waits_for_a_frame [idle_tick; idle_tick]
           (streaming_element cooperative_camera 3 default_properties)).
  - reflexivity.
  - repeat constructor.
Defined.

(** ** What the dispatcher drops, and what it hands back *)

Lemma requeued_app (a b : Transcript) : requeued (a ++ b) = requeued a ++ requeued b.
Proof. apply omap_app. Qed.

Lemma arrivals_cons (t : Tick) (ticks : list Tick) :
  arrivals (t :: ticks) = map c_frame (completed t) ++ arrivals ticks.
Proof. reflexivity. Qed.

(** What a poll of the queue takes is the oldest frame waiting there. *)
Lemma pop_cases (s : GstVmbSrc) :
  let run := g_async_queue_timeout_pop (filled_frame_queue s) s in
  match run.1 with
  | Some fr =>
      filled_frames s = fr :: filled_frames run.2
      /\ run.2 = with_queues (queues run.2) s
      /\ length (queues run.2) = length (queues s)
  | None => filled_frames s = [] /\ run.2 = s
  end.
Proof.
  unfold filled_frames, g_async_queue_timeout_pop.
  destruct (filled_frame_queue s) as [q|] eqn:Eq; [| by cbn].
  destruct (queues s !! q) as [o|] eqn:Eo; [| by cbn].
  destruct (q_items o) as [|fr rest] eqn:Ei; [by cbn |].
  cbn. rewrite Eq.
  rewrite list_lookup_insert_eq by (apply lookup_lt_is_Some; by rewrite Eo).
  rewrite length_insert. by repeat split.
Qed.







Lemma routed_with_sdk_log (l : Transcript) (s : GstVmbSrc) :
  routed s -> routed (with_sdk_log l s).
Proof. intros (q & ? & ? & ?). by exists q. Qed.

Lemma routed_pop (s : GstVmbSrc) :
  routed s -> routed (g_async_queue_timeout_pop (filled_frame_queue s) s).2.
Proof.
  intros (q & Hq & Hlen & Hall). pose proof (pop_cases s) as Hpop. cbv zeta in Hpop.
  destruct (g_async_queue_timeout_pop (filled_frame_queue s) s) as [[fr|] s1];
    cbn [fst snd] in *.
  - destruct Hpop as (_ & E & Hl). rewrite E. exists q.
    split; [exact Hq |]. split; [cbn; by rewrite Hl | exact Hall].
  - destruct Hpop as [_ ->]. by exists q.
Qed.

(** With every descriptor routed to the queue the element drains, the
    frames [gst_vmbsrc_create] hands back to the camera are the frames
    that left the queue, in their order, each of them once; a frame
    taken at the poll that ends in FLUSHING is the one exception. *)
Lemma create_conserves_frames (ticks : list Tick) :
  forall s flow s',
    routed s ->
    Forall (fun t => Forall (fun c => (c_frame c < NUM_FRAME_BUFFERS s)%nat) (completed t))
           ticks ->
    gst_vmbsrc_create ticks s = Some (flow, s') ->
    exists used unused lost,
      ticks = used ++ unused
      /\ filled_frames s ++ arrivals used
         = requeued (calls_since s s') ++ lost ++ filled_frames s'
      /\ (length lost <= 1)%nat
      /\ (forall fr buf, flow = GST_FLOW_OK fr buf -> lost = []).
Proof.
  induction ticks as [|t later IH]; intros s flow s' Hr Hvalid Hrun; [discriminate |].
  apply Forall_cons in Hvalid as [Hvt Hvl].
  pose proof Hrun as Hshape. apply create_run in Hshape.
  cbn [gst_vmbsrc_create] in Hrun.
  destruct (device_completes_all_routed (completed t) s Hr Hvt) as (Hr0 & Hq0 & Hn0 & _).
  pose proof (keeps_same_device_completes_all sdk_log (completed t)
                (fun _ _ => eq_refl) (fun _ _ => eq_refl) s) as Hl0.
  destruct (device_completes_all (completed t) s) as [[] s0]. cbn [snd] in *.
  pose proof (pop_cases s0) as Hpop. pose proof (routed_pop s0 Hr0) as Hr1.
  pose proof (keeps_same_pop sdk_log (filled_frame_queue s0)
                (fun _ _ => eq_refl) s0) as Hl1.
  pose proof (keeps_same_pop frame_buffers (filled_frame_queue s0)
                (fun _ _ => eq_refl) s0) as Hf1.
  destruct (g_async_queue_timeout_pop (filled_frame_queue s0) s0) as [popped s1].
  cbn [fst snd] in *. unfold same in *.
  assert (Hl : sdk_log s1 = sdk_log s) by congruence.
  assert (Hn1 : NUM_FRAME_BUFFERS s1 = NUM_FRAME_BUFFERS s)
    by (unfold NUM_FRAME_BUFFERS in *; congruence).
  assert (Hone : arrivals [t] = map c_frame (completed t))
    by (unfold arrivals; cbn; by rewrite app_nil_r).
  assert (Hsubmit : forall frame,
            filled_frames s0 = frame :: filled_frames s1 ->
            Some (submit_frame frame s1) = Some (flow, s') ->
            exists used unused lost,
              t :: later = used ++ unused
              /\ filled_frames s ++ arrivals used
                 = requeued (calls_since s s') ++ lost ++ filled_frames s'
              /\ (length lost <= 1)%nat
              /\ (forall fr buf, flow = GST_FLOW_OK fr buf -> lost = [])).
  { intros frame Hq Hs. injection Hs as <- <-.
    exists [t], later, []. split; [reflexivity |].
    rewrite (calls_since_app s _
               [(VmbCaptureFrameQueue frame,
                 device s1 (sdk_log s1) (VmbCaptureFrameQueue frame))])
      by (cbn; by rewrite Hl).
    rewrite Hone, <- Hq0, Hq.
    split; [reflexivity |]. split; [cbn; lia | done]. }
  destruct (decide (element_state t <> GST_STATE_PLAYING)).
  - injection Hrun as <- <-.
    rewrite (calls_since_app s s1 []) by (by rewrite app_nil_r).
    exists [t], later. rewrite Hone, <- Hq0.
    destruct popped as [frame|].
    + destruct Hpop as (Hq & _). exists [frame].
      split; [reflexivity |]. split; [exact Hq |]. split; [cbn; lia | discriminate].
    + destruct Hpop as [Hq ->]. exists [].
      split; [reflexivity |]. split; [reflexivity |]. split; [cbn; lia | discriminate].
  - destruct popped as [frame|].
    + destruct Hpop as (Hq & _).
      destruct (decide (receiveStatus (frame_at frame s1) = VmbFrameStatusIncomplete));
        [| by apply (Hsubmit frame)].
      destruct (decide (incomplete_frame_handling (properties s1)
                        = GST_VMBSRC_INCOMPLETE_FRAME_HANDLING_SUBMIT));
        [by apply (Hsubmit frame) |].
      rewrite (let_pair (sdk _ s1)) in Hrun.
      set (r := (sdk (VmbCaptureFrameQueue frame) s1).1) in *.
      set (s2 := (sdk (VmbCaptureFrameQueue frame) s1).2) in *.
      assert (Hr2 : routed s2) by (by apply routed_with_sdk_log).
      assert (Hv2 : Forall (fun t => Forall (fun c => (c_frame c < NUM_FRAME_BUFFERS s2)%nat)
                                            (completed t)) later).
      { change (NUM_FRAME_BUFFERS s2) with (NUM_FRAME_BUFFERS s1). by rewrite Hn1. }
      destruct (IH s2 flow s' Hr2 Hv2 Hrun) as (used & unused & lost & -> & Heq & Hlen & Hok).
      destruct (create_run (used ++ unused) s2 flow s' Hrun) as (dropped & _ & _ & Hflow).
      assert (Hlog : exists evs, sdk_log s' = sdk_log s2 ++ evs).
      { destruct flow; [destruct Hflow as [-> _] | destruct Hflow as (r' & -> & _)];
          eauto. }
      destruct Hlog as (evs & Le).
      rewrite (calls_since_app _ _ _ Le) in Heq.
      exists (t :: used), unused, lost. split; [reflexivity |].
      rewrite (calls_since_app s s' ((VmbCaptureFrameQueue frame, r) :: evs))
        by (rewrite Le; subst s2; cbn; rewrite Hl, <- app_assoc; reflexivity).
      rewrite arrivals_cons, app_assoc, <- Hq0, Hq.
      change (filled_frames s1) with (filled_frames s2).
      change (requeued ((VmbCaptureFrameQueue frame, r) :: evs))
        with (frame :: requeued evs).
      cbn [app]. rewrite Heq. by repeat split.
    + destruct Hpop as [Hq ->].
      assert (Hv0 : Forall (fun t => Forall (fun c => (c_frame c < NUM_FRAME_BUFFERS s0)%nat)
                                            (completed t)) later) by (by rewrite Hn1).
      destruct (IH s0 flow s' Hr0 Hv0 Hrun) as (used & unused & lost & -> & Heq & Hlen & Hok).
      exists (t :: used), unused, lost. split; [reflexivity |].
      replace (calls_since s s') with (calls_since s0 s')
        by (unfold calls_since; by rewrite Hl).
      rewrite arrivals_cons, app_assoc, <- Hq0. by repeat split.
Qed.

(** Frames that are not incomplete are not dropped. *)
Lemma create_drops_only_incomplete (ticks : list Tick) :
  forall s flow s',
    Forall (fun f => receiveStatus f <> VmbFrameStatusIncomplete) (frame_buffers s) ->
    Forall (fun t => Forall (fun c => c_status c <> VmbFrameStatusIncomplete) (completed t))
           ticks ->
    gst_vmbsrc_create ticks s = Some (flow, s') ->
    requeued (calls_since s s')
    = match flow with GST_FLOW_OK fr _ => [fr] | GST_FLOW_FLUSHING => [] end.
Proof.
  assert (Hcomplete : forall cs s,
            Forall (fun f => receiveStatus f <> VmbFrameStatusIncomplete) (frame_buffers s) ->
            Forall (fun c => c_status c <> VmbFrameStatusIncomplete) cs ->
            Forall (fun f => receiveStatus f <> VmbFrameStatusIncomplete)
                   (frame_buffers (device_completes_all cs s).2)).
  { induction cs as [|c rest IHc]; intros s Hfb Hcs; [exact Hfb |].
    apply Forall_cons in Hcs as [Hc Hcs].
    cbn [device_completes_all]. rewrite bind_run. apply IHc; [| exact Hcs].
    unfold device_completes, vimbax_frame_callback. rewrite !bind_run. cbn [get fst snd].
    match goal with |- context [set_frame (c_frame c) ?g s] => set (f' := g) end.
    set (s1 := (set_frame (c_frame c) f' s).2).
    assert (H1 : Forall (fun f => receiveStatus f <> VmbFrameStatusIncomplete)
                   (frame_buffers s1)).
    { subst s1. cbn.
      destruct (decide (c_frame c < length (frame_buffers s))%nat) as [Hlt|Hge].
      - apply Forall_insert; [exact Hfb | exact Hc].
      - rewrite list_insert_ge by lia. exact Hfb. }
    destruct (context0 (frame_at (c_frame c) s1)); exact H1. }
  induction ticks as [|t later IH]; intros s flow s' Hfb Hticks Hrun; [discriminate |].
  apply Forall_cons in Hticks as [Ht Hlater].
  cbn [gst_vmbsrc_create] in Hrun.
  pose proof (Hcomplete (completed t) s Hfb Ht) as Hfb0.
  pose proof (keeps_same_device_completes_all sdk_log (completed t)
                (fun _ _ => eq_refl) (fun _ _ => eq_refl) s) as Hl0.
  destruct (device_completes_all (completed t) s) as [[] s0]. cbn [snd] in *.
  pose proof (keeps_same_pop sdk_log (filled_frame_queue s0)
                (fun _ _ => eq_refl) s0) as Hl1.
  pose proof (keeps_same_pop frame_buffers (filled_frame_queue s0)
                (fun _ _ => eq_refl) s0) as Hf1.
  destruct (g_async_queue_timeout_pop (filled_frame_queue s0) s0) as [popped s1].
  cbn [fst snd] in *. unfold same in *.
  assert (Hl : sdk_log s1 = sdk_log s) by congruence.
  rewrite <- Hf1 in Hfb0.
  destruct (decide (element_state t <> GST_STATE_PLAYING)).
  - injection Hrun as <- <-.
    by rewrite (calls_since_app s s1 []) by (by rewrite app_nil_r).
  - destruct popped as [frame|].
    + assert (Hst : receiveStatus (frame_at frame s1) <> VmbFrameStatusIncomplete).
      { unfold frame_at. rewrite nth_lookup.
        destruct (frame_buffers s1 !! frame) as [f|] eqn:Ef; cbn; [| discriminate].
        exact (Forall_lookup_1 _ _ _ _ Hfb0 Ef). }
      rewrite decide_False in Hrun by exact Hst.
      injection Hrun as <- <-.
      by rewrite (calls_since_app s _
                    [(VmbCaptureFrameQueue frame,
                      device s1 (sdk_log s1) (VmbCaptureFrameQueue frame))])
        by (cbn; by rewrite Hl).
    + replace (calls_since s s') with (calls_since s1 s')
        by (unfold calls_since; by rewrite Hl).
      by apply IH.
Qed.

Lemma requeues_only (evs : Transcript) :
  Forall (fun ev => exists i, ev.1 = VmbCaptureFrameQueue i) evs ->
  map fst evs = map VmbCaptureFrameQueue (requeued evs).
Proof.
  induction 1 as [|[c r] evs [i Hi] _ IH]; [reflexivity |].
  cbn in Hi. subst c.
  change (requeued ((VmbCaptureFrameQueue i, r) :: evs)) with (i :: requeued evs).
  cbn. by rewrite IH.
Qed.

(** X1.  Whenever [gst_vmbsrc_create] returns, the calls it made to the
    camera are requeues ([VmbCaptureFrameQueue]) only, and a FLUSHING
    return leaves the count of pushed frames as it was.  When a buffer is
    handed out, the last requeue is that of the frame the buffer was
    copied from; the buffer has the size and the data of that frame's
    descriptor, its offset is the count of frames pushed before the call
    and its end offset the count after it, which is one more.  Under the
    Submit policy, and also when neither a descriptor nor a completion of
    the camera says Incomplete, no frame is dropped: the frame handed
    out is the only one requeued.  When every descriptor is routed to the
    queue the element drains, the frames requeued are, in their order and
    each of them once, the frames that left the queue, with the one
    exception of a frame taken at the poll that ended in FLUSHING. *)
Theorem create_output (ticks : list Tick) (s s' : GstVmbSrc) (flow : GstFlowReturn) :
  gst_vmbsrc_create ticks s = Some (flow, s') ->
  map fst (calls_since s s') = map VmbCaptureFrameQueue (requeued (calls_since s s'))
  /\ match flow with
     | GST_FLOW_FLUSHING => num_frames_pushed s' = num_frames_pushed s
     | GST_FLOW_OK fr buf =>
         (exists dropped, requeued (calls_since s s') = dropped ++ [fr])
         /\ num_frames_pushed s' = num_frames_pushed s + 1
         /\ gb_offset buf = num_frames_pushed s
         /\ gb_offset_end buf = num_frames_pushed s + 1
         /\ gb_size buf = bufferSize (frame_at fr s')
         /\ gb_data buf = buffer (frame_at fr s')
     end
  /\ (incomplete_frame_handling (properties s)
      = GST_VMBSRC_INCOMPLETE_FRAME_HANDLING_SUBMIT
      \/ (Forall (fun f => receiveStatus f <> VmbFrameStatusIncomplete) (frame_buffers s)
          /\ Forall (fun t => Forall (fun c => c_status c <> VmbFrameStatusIncomplete)
                                     (completed t)) ticks) ->
      requeued (calls_since s s')
      = match flow with GST_FLOW_OK fr _ => [fr] | GST_FLOW_FLUSHING => [] end)
  /\ (routed s ->
      Forall (fun t => Forall (fun c => (c_frame c < NUM_FRAME_BUFFERS s)%nat)
                              (completed t)) ticks ->
      exists used unused lost,
        ticks = used ++ unused
        /\ filled_frames s ++ arrivals used
           = requeued (calls_since s s') ++ lost ++ filled_frames s'
        /\ (length lost <= 1)%nat
        /\ (forall fr buf, flow = GST_FLOW_OK fr buf -> lost = [])).
Proof.
  intros Hrun.
  destruct (create_run ticks s flow s' Hrun) as (dropped & Hall & Hs & Hflow).
  assert (Hlast : forall fr r,
            Forall (fun ev : VmbCall * VmbResponse => exists i, ev.1 = VmbCaptureFrameQueue i)
                   (dropped ++ [(VmbCaptureFrameQueue fr, r)])).
  { intros fr r. apply Forall_app. split; [exact Hall |].
    apply Forall_singleton. by exists fr. }
  split; [| split; [| split]].
  - destruct flow as [|fr buf].
    + destruct Hflow as [L _]. rewrite (calls_since_app _ _ _ L).
      by apply requeues_only.
    + destruct Hflow as (r & L & _). rewrite (calls_since_app _ _ _ L).
      by apply requeues_only.
  - destruct flow as [|fr buf]; [by destruct Hflow |].
    destruct Hflow as (r & L & Hrest). split; [| exact Hrest].
    exists (requeued dropped). by rewrite (calls_since_app _ _ _ L), requeued_app.
  - intros [Hsubmit|[Hfb Hcs]].
    + rewrite (Hs Hsubmit) in Hflow. destruct flow as [|fr buf].
      * destruct Hflow as [L _]. by rewrite (calls_since_app _ _ _ L).
      * destruct Hflow as (r & L & _). by rewrite (calls_since_app _ _ _ L).
    + exact (create_drops_only_incomplete ticks s flow s' Hfb Hcs Hrun).
  - intros Hr Hvalid. exact (create_conserves_frames ticks s flow s' Hr Hvalid Hrun).
Qed.

(** Frame 1 arrives incomplete and is dropped; the frames 2 and 0 arrive
    complete, frame 2 is handed out and frame 0 is left waiting. *)
Lemma create_output_witness :
  let s := streaming_element cooperative_camera 3 default_properties in
  exists buf s',
    gst_vmbsrc_create [incomplete_tick; complete_tick] s = Some (GST_FLOW_OK 2 buf, s')
    /\ map fst (calls_since s s') = [VmbCaptureFrameQueue 1; VmbCaptureFrameQueue 2]
    /\ num_frames_pushed s' = num_frames_pushed s + 1
    /\ gb_offset buf = num_frames_pushed s
    /\ gb_size buf = bufferSize (frame_at 2 s')
    /\ exists used unused lost,
         [incomplete_tick; complete_tick] = used ++ unused
         /\ filled_frames s ++ arrivals used
            = requeued (calls_since s s') ++ lost ++ filled_frames s'
         /\ (length lost <= 1)%nat
         /\ (forall fr buf', GST_FLOW_OK 2 buf = GST_FLOW_OK fr buf' -> lost = []).
Proof.
  intros s.
  destruct (gst_vmbsrc_create [incomplete_tick; complete_tick] s)
    as [[[|fr buf] s']|] eqn:Hrun;
    [vm_compute in Hrun; discriminate | | vm_compute in Hrun; discriminate].
  assert (Hfr : fr = 2%nat).
  { revert Hrun. vm_compute. intros Hrun. injection Hrun as <- _ _. reflexivity. }
  subst fr. exists buf, s'. split; [reflexivity |].
  destruct (create_output [incomplete_tick; complete_tick] s s' (GST_FLOW_OK 2 buf) Hrun)
    as (Hcalls & (_ & Hn & Hoff & _ & Hsize & _) & _ & Hconserve).
  assert (Hreq : requeued (calls_since s s') = [1%nat; 2%nat]).
  { revert Hrun. vm_compute. intros Hrun. injection Hrun as _ <-. reflexivity. }
  split; [by rewrite Hcalls, Hreq |]. split; [exact Hn |]. split; [exact Hoff |].
  split; [exact Hsize |].
  apply Hconserve.
  - exists 1%nat. split; [reflexivity |]. split; [vm_compute; lia |].
    vm_compute. repeat constructor.
  - vm_compute. repeat constructor.
Defined.

(** ** The negotiation of caps, case by case *)

(** X11.  The lookup of [gst_vmbsrc_set_caps] takes the first match: it
    finds the VimbaX name of the first supported format with the
    GStreamer name asked for, and finds nothing exactly when no
    supported format has that name. *)
Theorem find_vimbax_format_first_match (gst_format : string)
    (formats : list VimbaXGstFormatMatch_t) :
  match find_vimbax_format gst_format formats with
  | Some vimbax_format =>
      exists pre f post,
        formats = pre ++ f :: post
        /\ Forall (fun g => gst_format_name g <> gst_format) pre
        /\ gst_format_name f = gst_format
        /\ vimbax_format_name f = vimbax_format
  | None => Forall (fun g => gst_format_name g <> gst_format) formats
  end.
Proof.
  induction formats as [|f rest IH]; [constructor |].
  cbn [find_vimbax_format].
  destruct (String.eqb gst_format (gst_format_name f)) eqn:E.
  - apply String.eqb_eq in E. exists [], f, rest. by repeat split.
  - apply String.eqb_neq in E.
    destruct (find_vimbax_format gst_format rest) as [v|].
    + destruct IH as (pre & g & post & -> & Hpre & Hg & Hv).
      exists (f :: pre), g, post.
      split; [reflexivity |]. split; [constructor; [congruence | exact Hpre] | done].
    + constructor; [congruence | exact IH].
Qed.

Lemma find_vimbax_format_none (gst_format : string)
    (formats : list VimbaXGstFormatMatch_t) :
  Forall (fun g => gst_format_name g <> gst_format) formats ->
  find_vimbax_format gst_format formats = None.
Proof.
  induction 1 as [|f rest Hf _ IH]; [reflexivity |].
  cbn [find_vimbax_format].
  destruct (String.eqb gst_format (gst_format_name f)) eqn:E; [| exact IH].
  apply String.eqb_eq in E. congruence.
Qed.

(** X12.  Caps in a format that is not among the supported formats are
    refused before anything happens: [gst_vmbsrc_set_caps] returns FALSE
    and the element, the acquisition included, is as it was. *)
Theorem set_caps_refuses_unsupported_format (polls : nat) (caps : GstCaps)
    (s : GstVmbSrc) :
  Forall (fun g => gst_format_name g <> caps_format caps) (supported_formats s) ->
  gst_vmbsrc_set_caps polls caps s = Some (false, s).
Proof.
  intros H. unfold gst_vmbsrc_set_caps. by rewrite (find_vimbax_format_none _ _ H).
Qed.

(** BGR on an element that offers GRAY8 and RGB. *)
Lemma set_caps_refuses_unsupported_format_witness :
  gst_vmbsrc_set_caps 1 bgr_caps
    (streaming_element cooperative_camera 3 default_properties)
  = Some (false, streaming_element cooperative_camera 3 default_properties).
Proof.
  apply (set_caps_refuses_unsupported_format 1 bgr_caps
           (streaming_element cooperative_camera 3 default_properties)).
  vm_compute. repeat constructor; discriminate.
Defined.

Lemma set_caps_cases (polls : nat) (caps : GstCaps) (s s' : GstVmbSrc) (ok : bool)
    (vimbax_format : string) :
  gst_vmbsrc_set_caps polls caps s = Some (ok, s') ->
  find_vimbax_format (caps_format caps) (supported_formats s) = Some vimbax_format ->
  exists stop_result s1,
    stop_image_acquisition polls s = Some (stop_result, s1)
    /\ let s2 := (replace_filled_frame_queue s1).2 in
       let pf := sdk (VmbFeatureEnumSet "PixelFormat" vimbax_format) s2 in
       (r_err pf.1 <> VmbErrorSuccess /\ ok = false /\ s' = pf.2)
       \/ (r_err pf.1 = VmbErrorSuccess
           /\ let ps := sdk VmbPayloadSizeGet pf.2 in
              let pool :=
                (if decide (bufferSize (frame_at 0 ps.2) < r_val ps.1
                            \/ r_err ps.1 <> VmbErrorSuccess)
                 then do* revoke_and_free_buffers in alloc_and_announce_buffers
                 else ret (r_err ps.1)) ps.2 in
              (pool.1 <> VmbErrorSuccess /\ ok = false /\ s' = pool.2)
              \/ (pool.1 = VmbErrorSuccess
                  /\ exists r6 s6,
                       start_image_acquisition polls pool.2 = Some (r6, s6)
                       /\ ((r6 <> VmbErrorSuccess /\ ok = false /\ s' = s6)
                           \/ (r6 = VmbErrorSuccess /\ caps_video_info caps = None
                               /\ ok = false /\ s' = s6)
                           \/ (r6 = VmbErrorSuccess
                               /\ exists vi, caps_video_info caps = Some vi
                                             /\ ok = true
                                             /\ s' = with_video_info vi s6)))).
Proof.
  intros Hrun Hfind. unfold gst_vmbsrc_set_caps in Hrun. rewrite Hfind in Hrun.
  destruct (stop_image_acquisition polls s) as [[r0 s1]|]; [| discriminate].
  exists r0, s1. split; [reflexivity |]. cbv zeta.
  rewrite (let_pair (replace_filled_frame_queue s1)) in Hrun.
  set (s2 := (replace_filled_frame_queue s1).2) in *.
  rewrite (let_pair (sdk _ s2)) in Hrun.
  set (pf := sdk (VmbFeatureEnumSet "PixelFormat" vimbax_format) s2) in *.
  destruct (decide (r_err pf.1 <> VmbErrorSuccess)) as [Hrej|Hacc].
  { left. by injection Hrun as <- <-. }
  right. split; [by destruct (decide (r_err pf.1 = VmbErrorSuccess)) |].
  rewrite (let_pair (sdk _ pf.2)) in Hrun.
  set (ps := sdk VmbPayloadSizeGet pf.2) in *. cbv zeta in Hrun.
  match type of Hrun with
  | context [let (result, s5) := ?m in _] =>
      rewrite (let_pair m) in Hrun; set (pool := m) in *
  end.
  destruct (decide (pool.1 = VmbErrorSuccess)) as [Hpool|Hpool].
  - right. split; [exact Hpool |].
    destruct (start_image_acquisition polls pool.2) as [[r6 s6]|]; [| discriminate].
    exists r6, s6. split; [reflexivity |]. cbv beta iota in Hrun.
    destruct (decide (r6 = VmbErrorSuccess)) as [Hr6|Hr6].
    + destruct (caps_video_info caps) as [vi|].
      * right. right. split; [exact Hr6 |]. exists vi. by injection Hrun as <- <-.
      * right. left. by injection Hrun as <- <-.
    + left. by injection Hrun as <- <-.
  - left. cbv beta iota in Hrun.
    destruct (decide (pool.1 = VmbErrorSuccess)); [contradiction |].
    by injection Hrun as <- <-.
Qed.

Lemma no_pool_call_neutral (evs : Transcript) :
  Forall (fun ev => ~ is_pool_call ev.1) evs -> allocated evs = [] /\ released evs = [].
Proof.
  induction 1 as [|[c r] evs Hc _ [IHa IHr]]; [by split |].
  change ((c, r) :: evs) with ([(c, r)] ++ evs).
  rewrite allocated_app, released_app, IHa, IHr, !app_nil_r.
  destruct c; cbn in Hc; try tauto; by split.
Qed.

Lemma session_call_no_pool_call (evs : Transcript) :
  Forall (fun ev => is_session_call ev.1) evs ->
  Forall (fun ev => ~ is_pool_call ev.1) evs.
Proof.
  intros H. eapply Forall_impl; [exact H |].
  intros [c r]. cbn. destruct c; cbn; tauto.
Qed.

Lemma replace_filled_frame_queue_keeps (s : GstVmbSrc) :
  exists q qs, (replace_filled_frame_queue s).2
               = with_filled_frame_queue q (with_queues qs s).
Proof.
  unfold replace_filled_frame_queue. step_get.
  destruct (filled_frame_queue s) as [q|] eqn:E.
  - rewrite !bind_run. unfold g_async_queue_new. cbn.
    destruct (reused_address (g_allocator s) _); eexists _, _; reflexivity.
  - exists None, (queues s). destruct s. cbn in E. by subst.
Qed.

Lemma revoked_clean (frames : list VmbFrame_t) :
  Forall (fun f => buffer f = 0) (map revoked frames).
Proof.
  apply Forall_forall. intros f Hf.
  apply list_elem_of_fmap in Hf as (g & -> & _). unfold revoked.
  destruct (decide (buffer g <> 0)) as [|Hz]; [reflexivity |].
  destruct (decide (buffer g = 0)); [done | contradiction].
Qed.

(** The step of [gst_vmbsrc_set_caps] that looks after the pool. *)
Lemma set_caps_pool_step (grow : Prop) `{!Decision grow} (e : VmbError_t)
    (s4 : GstVmbSrc) :
  let pool :=
    (if decide grow
     then do* revoke_and_free_buffers in alloc_and_announce_buffers
     else ret e) s4 in
  exists evs,
    sdk_log pool.2 = sdk_log s4 ++ evs
    /\ length (frame_buffers pool.2) = length (frame_buffers s4)
    /\ properties pool.2 = properties s4
    /\ (allocation_mode (properties s4) = GST_VMBSRC_ALLOCATION_MODE_ANNOUNCE_FRAME ->
        allocated evs ++ held_by (frame_buffers s4)
        ≡ₚ released evs ++ held_by (frame_buffers pool.2)).
Proof.
  intros pool. subst pool. destruct (decide grow) as [_|_].
  - rewrite bind_run.
    destruct (revoke_and_free_buffers_spec s4) as (revoke_evs & Hrc & Hrs).
    set (sR := (revoke_and_free_buffers s4).2) in *.
    assert (LR : sdk_log sR = sdk_log s4 ++ revoke_evs) by (by rewrite Hrs).
    assert (FR : frame_buffers sR = map revoked (frame_buffers s4)) by (by rewrite Hrs).
    assert (PR : properties sR = properties s4) by (by rewrite Hrs).
    destruct (alloc_and_announce_buffers_cases sR)
      as (rp & aevs & La & Len & Pa & _ & Acc & _).
    set (sA := (alloc_and_announce_buffers sR).2) in *.
    exists (revoke_evs ++ (VmbPayloadSizeGet, rp) :: aevs).
    split; [rewrite La, LR, <- app_assoc; reflexivity |].
    split; [rewrite Len, FR; apply length_fmap |].
    split; [congruence |].
    intros Hmode.
    rewrite FR in Acc. specialize (Acc (revoked_clean _)).
    change ((VmbPayloadSizeGet, rp) :: aevs) with ([(VmbPayloadSizeGet, rp)] ++ aevs).
    rewrite !allocated_app, !released_app, Acc.
    rewrite (allocated_none revoke_evs)
      by (rewrite Hrc; apply revoke_calls_no_alloc).
    rewrite (released_calls revoke_evs), Hrc, Hmode, revoke_calls_release_the_pool.
    cbn [allocated released omap app]. solve_Permutation.
  - exists []. cbn. rewrite app_nil_r. by repeat split.
Qed.

(** X13.  When the camera turns the pixel format down,
    [gst_vmbsrc_set_caps] returns FALSE and leaves the acquisition
    stopped: the calls made are those that stop the acquisition followed
    by the refused set of PixelFormat; the pool and the video info are
    untouched, and nothing starts the acquisition again. *)
Theorem set_caps_rejected_pixel_format (polls : nat) (caps : GstCaps)
    (s s' : GstVmbSrc) (ok : bool) (vimbax_format : string) :
  gst_vmbsrc_set_caps polls caps s = Some (ok, s') ->
  find_vimbax_format (caps_format caps) (supported_formats s) = Some vimbax_format ->
  (forall h, r_err (device s h (VmbFeatureEnumSet "PixelFormat" vimbax_format))
             <> VmbErrorSuccess) ->
  ok = false
  /\ is_acquiring s' = false
  /\ frame_buffers s' = frame_buffers s
  /\ video_info s' = video_info s
  /\ exists stop_evs r,
       calls_since s s' = stop_evs ++ [(VmbFeatureEnumSet "PixelFormat" vimbax_format, r)]
       /\ Forall (fun ev => is_session_call ev.1) stop_evs.
Proof.
  intros Hrun Hfind Hrej.
  destruct (set_caps_cases polls caps s s' ok vimbax_format Hrun Hfind)
    as (r0 & s1 & Hstop & Hcase).
  pose proof (stop_image_acquisition_session polls s r0 s1 Hstop)
    as ((stop_evs & L1 & C1) & _).
  destruct (stop_image_acquisition_run polls s s1 r0 Hstop)
    as (rrun & waited & rend & rflush & _ & _ & _ & _ & Hs1).
  cbv zeta in Hs1, Hcase.
  destruct (replace_filled_frame_queue_keeps s1) as (q & qs & Hs2).
  set (s2 := (replace_filled_frame_queue s1).2) in *.
  assert (D2 : device s2 = device s) by (rewrite Hs2, Hs1; reflexivity).
  assert (L2 : sdk_log s2 = sdk_log s ++ stop_evs) by (rewrite Hs2, <- L1; reflexivity).
  destruct Hcase as [(_ & -> & ->)|[Hacc _]].
  - split; [reflexivity |].
    split; [cbn; by rewrite Hs2, Hs1 |].
    split; [cbn; by rewrite Hs2, Hs1 |].
    split; [cbn; by rewrite Hs2, Hs1 |].
    exists stop_evs. eexists. split; [| exact C1].
    apply calls_since_app. cbn. rewrite L2, <- app_assoc. reflexivity.
  - exfalso. cbn in Hacc. rewrite D2 in Hacc. by apply Hrej in Hacc.
Qed.

(** RGB on a streaming element whose camera cannot deliver RGB8. *)
Lemma set_caps_rejected_pixel_format_witness :
  let s := streaming_element rgb_rejecting_camera 3 default_properties in
  exists ok s',
    gst_vmbsrc_set_caps 1 rgb_caps s = Some (ok, s')
    /\ is_acquiring s = true
    /\ ok = false
    /\ is_acquiring s' = false
    /\ frame_buffers s' = frame_buffers s
    /\ video_info s' = video_info s
    /\ exists stop_evs r,
         calls_since s s' = stop_evs ++ [(VmbFeatureEnumSet "PixelFormat" "RGB8", r)]
         /\ Forall (fun ev => is_session_call ev.1) stop_evs.
Proof.
  intros s.
  destruct (gst_vmbsrc_set_caps 1 rgb_caps s) as [[ok s']|] eqn:Hrun;
    [| vm_compute in Hrun; discriminate].
  exists ok, s'. split; [reflexivity |]. split; [vm_compute; reflexivity |].
  apply (set_caps_rejected_pixel_format 1 rgb_caps s s' ok "RGB8" Hrun).
  - vm_compute. reflexivity.
  - intros h. vm_compute. discriminate.
Defined.

Lemma start_keeps_pool (polls : nat) (s s' : GstVmbSrc) (r : VmbError_t) :
  start_image_acquisition polls s = Some (r, s') ->
  exists evs,
    sdk_log s' = sdk_log s ++ evs
    /\ Forall (fun ev => is_session_call ev.1) evs
    /\ frame_buffers s' = frame_buffers s.
Proof.
  intros H. apply start_image_acquisition_session in H.
  destruct H as ((evs & L & C) & F & _). by exists evs.
Qed.

(** The calls of [gst_vmbsrc_set_caps] up to the start of the
    acquisition, on a supported format the camera accepted. *)
Lemma set_caps_prefix (polls : nat) (s s1 : GstVmbSrc) (r0 : VmbError_t)
    (vimbax_format : string) :
  stop_image_acquisition polls s = Some (r0, s1) ->
  let s2 := (replace_filled_frame_queue s1).2 in
  let pf := sdk (VmbFeatureEnumSet "PixelFormat" vimbax_format) s2 in
  let ps := sdk VmbPayloadSizeGet pf.2 in
  exists stop_evs,
    sdk_log ps.2
    = sdk_log s ++ stop_evs
      ++ [(VmbFeatureEnumSet "PixelFormat" vimbax_format, pf.1);
          (VmbPayloadSizeGet, ps.1)]
    /\ Forall (fun ev => is_session_call ev.1) stop_evs
    /\ frame_buffers ps.2 = frame_buffers s
    /\ properties ps.2 = properties s
    /\ sdk_log pf.2
       = sdk_log s ++ stop_evs ++ [(VmbFeatureEnumSet "PixelFormat" vimbax_format, pf.1)].
Proof.
  intros Hstop s2 pf ps.
  pose proof (stop_image_acquisition_session polls s r0 s1 Hstop)
    as ((stop_evs & L1 & C1) & F1 & P1 & _).
  destruct (replace_filled_frame_queue_keeps s1) as (q & qs & Hs2).
  fold s2 in Hs2.
  exists stop_evs. subst ps pf. cbn. rewrite Hs2. cbn.
  rewrite L1, <- !app_assoc. by repeat split.
Qed.

(** X14.  When [gst_vmbsrc_set_caps] returns TRUE, the format was
    supported and the camera accepted the pixel format, the caps could
    be parsed and are the video info of the element, the capture was
    started, every frame of the pool was queued with success, the
    AcquisitionStart command was accepted, nothing but the polls for its
    completion followed, and the element is marked as acquiring. *)
Theorem set_caps_success_means_streaming (polls : nat) (caps : GstCaps)
    (s s' : GstVmbSrc) :
  gst_vmbsrc_set_caps polls caps s = Some (true, s') ->
  is_acquiring s' = true
  /\ caps_video_info caps = Some (video_info s')
  /\ NUM_FRAME_BUFFERS s' = NUM_FRAME_BUFFERS s
  /\ exists vimbax_format accepted before r0 queued rrun waited,
       find_vimbax_format (caps_format caps) (supported_formats s) = Some vimbax_format
       /\ calls_since s s'
          = before ++ (VmbCaptureStart, r0) :: queued
            ++ (VmbFeatureCommandRun "AcquisitionStart", rrun) :: waited
       /\ (VmbFeatureEnumSet "PixelFormat" vimbax_format, accepted) ∈ before
       /\ r_err accepted = VmbErrorSuccess
       /\ r_err r0 = VmbErrorSuccess
       /\ map fst queued = map VmbCaptureFrameQueue (seq 0 (NUM_FRAME_BUFFERS s))
       /\ Forall (fun ev => r_err ev.2 = VmbErrorSuccess) queued
       /\ r_err rrun = VmbErrorSuccess
       /\ Forall (fun ev => ev.1 = VmbFeatureCommandIsDone "AcquisitionStart") waited.
Proof.
  intros Hrun.
  destruct (find_vimbax_format (caps_format caps) (supported_formats s))
    as [vimbax_format|] eqn:Hfind;
    [| unfold gst_vmbsrc_set_caps in Hrun; rewrite Hfind in Hrun; discriminate].
  destruct (set_caps_cases polls caps s s' true vimbax_format Hrun Hfind)
    as (r0 & s1 & Hstop & Hcase).
  destruct (set_caps_prefix polls s s1 r0 vimbax_format Hstop)
    as (stop_evs & Lps & _ & Fps & _ & _).
  cbv zeta in Hcase, Lps, Fps.
  set (s2 := (replace_filled_frame_queue s1).2) in *.
  set (pf := sdk (VmbFeatureEnumSet "PixelFormat" vimbax_format) s2) in *.
  destruct Hcase as [(_ & Hok & _)|[Hacc Hcase]]; [discriminate |].
  set (ps := sdk VmbPayloadSizeGet pf.2) in *.
  destruct (set_caps_pool_step
              (bufferSize (frame_at 0 ps.2) < r_val ps.1 \/ r_err ps.1 <> VmbErrorSuccess)
              (r_err ps.1) ps.2) as (pool_evs & Lpool & Lenpool & _).
  match type of Lpool with
  | sdk_log (?m ps.2).2 = _ => set (pool := m ps.2) in *
  end.
  destruct Hcase as [(_ & Hok & _)|(Hpool & r6 & s6 & Hstart & Hcase)]; [discriminate |].
  destruct Hcase as [(_ & Hok & _)|[(_ & _ & Hok & _)|(Hr6 & vi & Hvi & _ & ->)]];
    [discriminate | discriminate |].
  subst r6.
  destruct (start_image_acquisition_run polls pool.2 s6 VmbErrorSuccess Hstart)
    as (evs & L & [(r & _ & Hne & Hres & _)
                  |[(r & queued & bad & _ & _ & _ & _ & _ & Hne & Hres & _)
                   |(r & queued & rrun & waited & -> & Hr & Hq & Hall & Hw & _ & Hres & Hs6)]]);
    [by rewrite <- Hres in Hne | by rewrite <- Hres in Hne |].
  assert (HN : NUM_FRAME_BUFFERS pool.2 = NUM_FRAME_BUFFERS s)
    by (unfold NUM_FRAME_BUFFERS; rewrite Lenpool, Fps; reflexivity).
  split; [by rewrite Hs6 |].
  split; [by rewrite Hvi |].
  split; [rewrite Hs6; exact HN |].
  exists vimbax_format, pf.1,
    (stop_evs ++ [(VmbFeatureEnumSet "PixelFormat" vimbax_format, pf.1);
                  (VmbPayloadSizeGet, ps.1)] ++ pool_evs), r, queued, rrun, waited.
  split; [reflexivity |].
  split.
  { apply calls_since_app. cbn [sdk_log with_video_info].
    rewrite L, Lpool, Lps, <- !app_assoc. reflexivity. }
  split; [apply elem_of_app; right; cbn [app]; apply list_elem_of_here |].
  split; [exact Hacc |]. split; [exact Hr |].
  split; [by rewrite <- HN |]. split; [exact Hall |].
  split; [by rewrite <- Hres | exact Hw].
Qed.

(** The first negotiation of a started element. *)
Lemma set_caps_success_means_streaming_witness :
  let s := started_element cooperative_camera 3 default_properties in
  exists s',
    gst_vmbsrc_set_caps 1 gray8_caps s = Some (true, s')
    /\ is_acquiring s' = true
    /\ caps_video_info gray8_caps = Some (video_info s')
    /\ NUM_FRAME_BUFFERS s' = NUM_FRAME_BUFFERS s
    /\ exists vimbax_format accepted before r0 queued rrun waited,
         find_vimbax_format (caps_format gray8_caps) (supported_formats s)
         = Some vimbax_format
         /\ calls_since s s'
            = before ++ (VmbCaptureStart, r0) :: queued
              ++ (VmbFeatureCommandRun "AcquisitionStart", rrun) :: waited
         /\ (VmbFeatureEnumSet "PixelFormat" vimbax_format, accepted) ∈ before
         /\ r_err accepted = VmbErrorSuccess
         /\ r_err r0 = VmbErrorSuccess
         /\ map fst queued = map VmbCaptureFrameQueue (seq 0 (NUM_FRAME_BUFFERS s))
         /\ Forall (fun ev => r_err ev.2 = VmbErrorSuccess) queued
         /\ r_err rrun = VmbErrorSuccess
         /\ Forall (fun ev => ev.1 = VmbFeatureCommandIsDone "AcquisitionStart") waited.
Proof.
  intros s.
  destruct (gst_vmbsrc_set_caps 1 gray8_caps s) as [[[|] s']|] eqn:Hrun;
    [| vm_compute in Hrun; discriminate | vm_compute in Hrun; discriminate].
  exists s'. split; [reflexivity |].
  exact (set_caps_success_means_streaming 1 gray8_caps s s' Hrun).
Defined.

(** X15.  A negotiation loses no buffer.  In the allocation mode
    AnnounceFrame, whenever [gst_vmbsrc_set_caps] returns, and whatever
    it returns, the addresses handed out during the call together with
    those the pool held before are the addresses given back during the
    call together with those the pool holds afterwards. *)
Theorem set_caps_conserves_buffers (polls : nat) (caps : GstCaps) (s s' : GstVmbSrc)
    (ok : bool) :
  gst_vmbsrc_set_caps polls caps s = Some (ok, s') ->
  allocation_mode (properties s) = GST_VMBSRC_ALLOCATION_MODE_ANNOUNCE_FRAME ->
  allocated (calls_since s s') ++ held_by (frame_buffers s)
  ≡ₚ released (calls_since s s') ++ held_by (frame_buffers s').
Proof.
  intros Hrun Hmode.
  destruct (find_vimbax_format (caps_format caps) (supported_formats s))
    as [vimbax_format|] eqn:Hfind.
  2: { unfold gst_vmbsrc_set_caps in Hrun. rewrite Hfind in Hrun.
       injection Hrun as _ <-. unfold calls_since. by rewrite drop_all. }
  destruct (set_caps_cases polls caps s s' ok vimbax_format Hrun Hfind)
    as (r0 & s1 & Hstop & Hcase).
  destruct (set_caps_prefix polls s s1 r0 vimbax_format Hstop)
    as (stop_evs & Lps & Cstop & Fps & Pps & Lpf).
  cbv zeta in Hcase, Lps, Fps, Pps, Lpf.
  set (s2 := (replace_filled_frame_queue s1).2) in *.
  set (pf := sdk (VmbFeatureEnumSet "PixelFormat" vimbax_format) s2) in *.
  destruct (no_pool_call_neutral _ (session_call_no_pool_call _ Cstop)) as [Astop Rstop].
  destruct Hcase as [(_ & _ & ->)|[Hacc Hcase]].
  { rewrite (calls_since_app _ _ _ Lpf), allocated_app, released_app, Astop, Rstop.
    cbn. replace (frame_buffers s2) with (frame_buffers s) by (by rewrite <- Fps).
    reflexivity. }
  set (ps := sdk VmbPayloadSizeGet pf.2) in *.
  destruct (set_caps_pool_step
              (bufferSize (frame_at 0 ps.2) < r_val ps.1 \/ r_err ps.1 <> VmbErrorSuccess)
              (r_err ps.1) ps.2) as (pool_evs & Lpool & _ & _ & Hbal).
  match type of Lpool with
  | sdk_log (?m ps.2).2 = _ => set (pool := m ps.2) in *
  end.
  rewrite Pps, Fps in Hbal. specialize (Hbal Hmode).
  assert (Hend : exists start_evs,
             sdk_log s' = sdk_log pool.2 ++ start_evs
             /\ Forall (fun ev => is_session_call ev.1) start_evs
             /\ frame_buffers s' = frame_buffers pool.2).
  { destruct Hcase as [(_ & _ & ->)|(_ & r6 & s6 & Hstart & Hcase)].
    - exists []. rewrite app_nil_r. by repeat split.
    - destruct (start_keeps_pool polls pool.2 s6 r6 Hstart) as (evs & L & C & F).
      exists evs.
      destruct Hcase as [(_ & _ & ->)|[(_ & _ & _ & ->)|(_ & vi & _ & _ & ->)]];
        by repeat split. }
  destruct Hend as (start_evs & Lend & Cend & Fend).
  destruct (no_pool_call_neutral _ (session_call_no_pool_call _ Cend)) as [Aend Rend].
  assert (L : sdk_log s'
              = sdk_log s ++ stop_evs
                ++ [(VmbFeatureEnumSet "PixelFormat" vimbax_format, pf.1);
                    (VmbPayloadSizeGet, ps.1)] ++ pool_evs ++ start_evs).
  { rewrite Lend, Lpool, Lps, <- !app_assoc. reflexivity. }
  rewrite (calls_since_app _ _ _ L), !allocated_app, !released_app.
  rewrite Astop, Rstop, Aend, Rend, Fend, !app_nil_r. exact Hbal.
Qed.

(** The first negotiation of a started element: three buffers are
    handed out and held by the pool afterwards. *)
Lemma set_caps_conserves_buffers_witness :
  let s := started_element cooperative_camera 3 default_properties in
  exists ok s',
    gst_vmbsrc_set_caps 1 gray8_caps s = Some (ok, s')
    /\ held_by (frame_buffers s) = []
    /\ held_by (frame_buffers s') = [36864; 49152; 61440]
    /\ allocated (calls_since s s') ++ held_by (frame_buffers s)
       ≡ₚ released (calls_since s s') ++ held_by (frame_buffers s').
Proof.
  intros s.
  destruct (gst_vmbsrc_set_caps 1 gray8_caps s) as [[ok s']|] eqn:Hrun;
    [| vm_compute in Hrun; discriminate].
  exists ok, s'. split; [reflexivity |]. split; [reflexivity |].
  split.
  - revert Hrun. vm_compute. intros Hrun. injection Hrun as _ <-. reflexivity.
  - apply (set_caps_conserves_buffers 1 gray8_caps s s' ok Hrun). reflexivity.
Defined.

(** X16.  [gst_vmbsrc_stop], when it returns, returns TRUE whatever the
    camera said.  It has stopped the acquisition and then revoked the
    pool: the calls are session calls followed by those of
    [revoke_and_free_buffers], every descriptor that held a buffer is
    zeroed, and in the allocation mode AnnounceFrame exactly the
    addresses the pool held were given back.  The queue object is freed,
    and the element goes on pointing to it. *)
Theorem gst_vmbsrc_stop_releases_the_pool (polls : nat) (s s' : GstVmbSrc) (ok : bool) :
  gst_vmbsrc_stop polls s = Some (ok, s') ->
  ok = true
  /\ is_acquiring s' = false
  /\ frame_buffers s' = map revoked (frame_buffers s)
  /\ filled_frame_queue s' = filled_frame_queue s
  /\ queues s'
     = match filled_frame_queue s with
       | Some q => alter (fun o => {| q_items := q_items o; q_live := false |}) q (queues s)
       | None => queues s
       end
  /\ (exists stop_evs revoke_evs,
        calls_since s s' = stop_evs ++ revoke_evs
        /\ Forall (fun ev => is_session_call ev.1) stop_evs
        /\ map fst revoke_evs
           = revoke_calls (allocation_mode (properties s)) 0 (frame_buffers s))
  /\ (allocation_mode (properties s) = GST_VMBSRC_ALLOCATION_MODE_ANNOUNCE_FRAME ->
      allocated (calls_since s s') = []
      /\ released (calls_since s s') = held_by (frame_buffers s)).
Proof.
  intros Hrun. unfold gst_vmbsrc_stop in Hrun.
  destruct (stop_image_acquisition polls s) as [[r0 s1]|] eqn:Hstop; [| discriminate].
  pose proof (stop_image_acquisition_session polls s r0 s1 Hstop)
    as ((stop_evs & L1 & C1) & _).
  destruct (stop_image_acquisition_run polls s s1 r0 Hstop)
    as (rrun & waited & rend & rflush & _ & _ & _ & _ & Hs1).
  cbv zeta in Hs1.
  destruct (revoke_and_free_buffers_spec s1) as (revoke_evs & Hrc & Hs2).
  rewrite (let_pair (revoke_and_free_buffers s1)) in Hrun.
  set (s2 := (revoke_and_free_buffers s1).2) in *.
  assert (F1 : frame_buffers s1 = frame_buffers s) by (by rewrite Hs1).
  assert (P1 : properties s1 = properties s) by (by rewrite Hs1).
  assert (Q2 : filled_frame_queue s2 = filled_frame_queue s) by (by rewrite Hs2, Hs1).
  rewrite F1, P1 in Hrc.
  assert (L2 : sdk_log s2 = sdk_log s ++ stop_evs ++ revoke_evs)
    by (rewrite Hs2; cbn; by rewrite L1, <- app_assoc).
  assert (Hs3 : exists qs, s' = with_queues qs s2
                           /\ qs = match filled_frame_queue s with
                                   | Some q =>
                                       alter (fun o => {| q_items := q_items o;
                                                          q_live := false |}) q (queues s)
                                   | None => queues s
                                   end
                           /\ ok = true).
  { rewrite Q2 in Hrun. destruct (filled_frame_queue s) as [q|].
    - rewrite let_pair in Hrun. injection Hrun as <- <-.
      eexists. split; [reflexivity |]. split; [| reflexivity].
      by rewrite Hs2, Hs1.
    - injection Hrun as <- <-. exists (queues s).
      split; [| by split]. rewrite Hs2, Hs1. reflexivity. }
  destruct Hs3 as (qs & -> & -> & ->).
  assert (L3 : sdk_log (with_queues
                          match filled_frame_queue s with
                          | Some q =>
                              alter (fun o => {| q_items := q_items o; q_live := false |})
                                    q (queues s)
                          | None => queues s
                          end s2) = sdk_log s ++ stop_evs ++ revoke_evs) by exact L2.
  rewrite (calls_since_app _ _ _ L3).
  split; [reflexivity |].
  split; [by rewrite Hs2, Hs1 |].
  split; [cbn; by rewrite Hs2, F1 |].
  split; [exact Q2 |]. split; [reflexivity |].
  split; [by exists stop_evs, revoke_evs |].
  intros Hmode.
  destruct (no_pool_call_neutral _ (session_call_no_pool_call _ C1)) as [A1 R1].
  rewrite allocated_app, released_app, A1, R1. cbn [app].
  split.
  - apply allocated_none. rewrite Hrc. apply revoke_calls_no_alloc.
  - rewrite released_calls, Hrc, Hmode. apply revoke_calls_release_the_pool.
Qed.

(** The stop of a streaming element that holds three buffers. *)
Lemma gst_vmbsrc_stop_releases_the_pool_witness :
  let s := streaming_element cooperative_camera 3 default_properties in
  exists ok s',
    gst_vmbsrc_stop 1 s = Some (ok, s')
    /\ held_by (frame_buffers s) = [36864; 49152; 61440]
    /\ ok = true
    /\ is_acquiring s' = false
    /\ frame_buffers s' = map revoked (frame_buffers s)
    /\ filled_frame_queue s' = filled_frame_queue s
    /\ queues s'
       = match filled_frame_queue s with
         | Some q =>
             alter (fun o => {| q_items := q_items o; q_live := false |}) q (queues s)
         | None => queues s
         end
    /\ (exists stop_evs revoke_evs,
          calls_since s s' = stop_evs ++ revoke_evs
          /\ Forall (fun ev => is_session_call ev.1) stop_evs
          /\ map fst revoke_evs
             = revoke_calls (allocation_mode (properties s)) 0 (frame_buffers s))
    /\ (allocation_mode (properties s) = GST_VMBSRC_ALLOCATION_MODE_ANNOUNCE_FRAME ->
        allocated (calls_since s s') = []
        /\ released (calls_since s s') = held_by (frame_buffers s)).
Proof.
  intros s.
  destruct (gst_vmbsrc_stop 1 s) as [[ok s']|] eqn:Hrun;
    [| vm_compute in Hrun; discriminate].
  exists ok, s'. split; [reflexivity |]. split; [vm_compute; reflexivity |].
  exact (gst_vmbsrc_stop_releases_the_pool 1 s s' ok Hrun).
Defined.

(** ** The queue after a negotiation *)

Lemma first_payload_unique (pre pre' post post' : Transcript) (rp rp' : VmbResponse) :
  pre ++ (VmbPayloadSizeGet, rp) :: post = pre' ++ (VmbPayloadSizeGet, rp') :: post' ->
  Forall (fun ev => ev.1 <> VmbPayloadSizeGet) pre ->
  Forall (fun ev => ev.1 <> VmbPayloadSizeGet) pre' ->
  rp = rp'.
Proof.
  revert pre'. induction pre as [|e pre IH]; intros pre' Heq Hpre Hpre'.
  - destruct pre' as [|e' pre']; cbn in Heq.
    + by injection Heq.
    + injection Heq as <- _. apply Forall_cons in Hpre' as [Hne _]. by destruct Hne.
  - apply Forall_cons in Hpre as [Hne Hpre].
    destruct pre' as [|e' pre']; cbn in Heq.
    + injection Heq as -> _. by destruct Hne.
    + injection Heq as _ Heq. apply Forall_cons in Hpre' as [_ Hpre'].
      by apply (IH pre').
Qed.

(** A [gst_vmbsrc_set_caps] whose query for the payload size is answered
    with a size the buffers can hold leaves the pool alone and puts the
    new queue where the allocator says. *)
Lemma set_caps_keeps_pool_and_replaces_queue (polls : nat) (caps : GstCaps)
    (s s' : GstVmbSrc) (ok : bool) (q : nat)
    (pre post : Transcript) (rp : VmbResponse) :
  gst_vmbsrc_set_caps polls caps s = Some (ok, s') ->
  filled_frame_queue s = Some q ->
  calls_since s s' = pre ++ (VmbPayloadSizeGet, rp) :: post ->
  Forall (fun ev => ev.1 <> VmbPayloadSizeGet) pre ->
  r_err rp = VmbErrorSuccess ->
  r_val rp <= bufferSize (frame_at 0 s) ->
  let freed :=
    alter (fun o => {| q_items := q_items o; q_live := false |}) q (queues s) in
  frame_buffers s' = frame_buffers s
  /\ match reused_address (g_allocator s) freed with
     | Some q' =>
         filled_frame_queue s' = Some q'
         /\ queues s' = <[q' := {| q_items := []; q_live := true |}]> freed
     | None =>
         filled_frame_queue s' = Some (length (queues s))
         /\ queues s' = freed ++ [{| q_items := []; q_live := true |}]
     end.
Proof.
  intros Hrun Hq Hcalls Hpre Hok Hfit freed.
  destruct (find_vimbax_format (caps_format caps) (supported_formats s))
    as [vimbax_format|] eqn:Hfind.
  2:{ unfold gst_vmbsrc_set_caps in Hrun. rewrite Hfind in Hrun.
      injection Hrun as _ <-. unfold calls_since in Hcalls.
      rewrite drop_all in Hcalls. by destruct pre. }
  destruct (set_caps_cases _ _ _ _ _ _ Hrun Hfind) as (r0 & s1 & Hstop & Hcases).
  destruct (set_caps_prefix polls s s1 r0 vimbax_format Hstop)
    as (stop_evs & Lps & Cstop & Fps & Pps & Lpf).
  destruct (stop_image_acquisition_run _ _ _ _ Hstop)
    as (rrun & waited & rend & rflush & _ & _ & _ & _ & Es1).
  cbv zeta in Hcases, Lps, Fps, Pps, Lpf.
  destruct (replace_filled_frame_queue_spec s1) as (_ & F2 & _ & _ & _ & Hq2).
  set (s2 := (replace_filled_frame_queue s1).2) in *.
  set (pf := sdk (VmbFeatureEnumSet "PixelFormat" vimbax_format) s2) in *.
  set (ps := sdk VmbPayloadSizeGet pf.2) in *.
  assert (Hq1 : filled_frame_queue s1 = Some q) by (rewrite Es1; exact Hq).
  assert (Hu1 : queues s1 = queues s) by (by rewrite Es1).
  assert (Ha1 : g_allocator s1 = g_allocator s) by (by rewrite Es1).
  rewrite Hq1, Hu1, Ha1 in Hq2. cbv zeta in Hq2. fold freed in Hq2.
  assert (Hsession_no_payload :
            forall evs, Forall (fun ev => is_session_call ev.1) evs ->
                        Forall (fun ev : VmbCall * VmbResponse => ev.1 <> VmbPayloadSizeGet) evs).
  { intros evs H. eapply Forall_impl; [exact H |].
    intros [c r] Hc Hpg. cbn in *. subst c. exact Hc. }
  assert (Hpre0 : Forall (fun ev : VmbCall * VmbResponse => ev.1 <> VmbPayloadSizeGet)
                    (stop_evs ++ [(VmbFeatureEnumSet "PixelFormat" vimbax_format, pf.1)])).
  { apply Forall_app. split; [by apply Hsession_no_payload |].
    repeat constructor. discriminate. }
  destruct Hcases as [(Hrej & _ & ->)|(Hacc & Hcases)].
  { (* the pixel format was turned down: the payload size was not asked for *)
    exfalso. rewrite (calls_since_app _ _ _ Lpf) in Hcalls.
    assert (Hin : (VmbPayloadSizeGet, rp)
                  ∈ stop_evs ++ [(VmbFeatureEnumSet "PixelFormat" vimbax_format, pf.1)]).
    { rewrite Hcalls. apply elem_of_app. right. left. }
    rewrite Forall_forall in Hpre0. by apply (Hpre0 _ Hin). }
  cbv zeta in Hcases.
  assert (Hcap : frame_at 0 ps.2 = frame_at 0 s) by (unfold frame_at; by rewrite Fps).
  rewrite Hcap in Hcases.
  assert (Hlog : exists more, sdk_log s' = sdk_log ps.2 ++ more).
  { destruct (decide (bufferSize (frame_at 0 s) < r_val ps.1
                      \/ r_err ps.1 <> VmbErrorSuccess)) as [Hgrow|Hfits'].
    - rewrite bind_run in Hcases.
      destruct (revoke_and_free_buffers_spec ps.2) as (revoke_evs & _ & Hrs).
      set (sR := (revoke_and_free_buffers ps.2).2) in *.
      destruct (alloc_and_announce_buffers_calls sR) as (alloc_evs & La & _).
      assert (LR : sdk_log sR = sdk_log ps.2 ++ revoke_evs) by (rewrite Hrs; reflexivity).
      destruct Hcases as [(_ & _ & ->)|(_ & r6 & s6 & Hstart & Hend)].
      + exists (revoke_evs ++ alloc_evs). rewrite La, LR. by rewrite <- app_assoc.
      + destruct (start_keeps_pool _ _ _ _ Hstart) as (start_evs & Ls & _).
        exists (revoke_evs ++ alloc_evs ++ start_evs).
        assert (L6 : sdk_log s6 = sdk_log ps.2 ++ revoke_evs ++ alloc_evs ++ start_evs)
          by (rewrite Ls, La, LR; by rewrite <- !app_assoc).
        destruct Hend as [(_ & _ & ->)|[(_ & _ & _ & ->)|(_ & vi & _ & _ & ->)]];
          exact L6.
    - cbn [ret fst snd] in Hcases.
      destruct Hcases as [(_ & _ & ->)|(_ & r6 & s6 & Hstart & Hend)].
      + exists []. by rewrite app_nil_r.
      + destruct (start_keeps_pool _ _ _ _ Hstart) as (start_evs & Ls & _).
        exists start_evs.
        destruct Hend as [(_ & _ & ->)|[(_ & _ & _ & ->)|(_ & vi & _ & _ & ->)]];
          exact Ls. }
  destruct Hlog as (more & Lmore).
  assert (Hrp : rp = ps.1).
  { rewrite Lps in Lmore. rewrite <- !app_assoc in Lmore.
    rewrite (calls_since_app _ _ _ Lmore) in Hcalls.
    symmetry in Hcalls.
    change (stop_evs ++ [(VmbFeatureEnumSet "PixelFormat" vimbax_format, pf.1);
                         (VmbPayloadSizeGet, ps.1)] ++ more)
      with (stop_evs ++ ([(VmbFeatureEnumSet "PixelFormat" vimbax_format, pf.1)]
                         ++ (VmbPayloadSizeGet, ps.1) :: more)) in Hcalls.
    rewrite app_assoc in Hcalls.
    exact (first_payload_unique _ _ _ _ _ _ Hcalls Hpre Hpre0). }
  subst rp.
  rewrite decide_False in Hcases by (intros [?|?]; [lia | contradiction]).
  cbn [ret fst snd] in Hcases.
  assert (Hps : frame_buffers ps.2 = frame_buffers s
                /\ filled_frame_queue ps.2 = filled_frame_queue s2
                /\ queues ps.2 = queues s2) by (by repeat split).
  destruct Hps as (Fp & Qp & Up).
  assert (Hend : frame_buffers s' = frame_buffers s
                 /\ filled_frame_queue s' = filled_frame_queue s2
                 /\ queues s' = queues s2).
  { destruct Hcases as [(Hne & _)|(_ & r6 & s6 & Hstart & Hend)]; [contradiction |].
    apply start_image_acquisition_session in Hstart.
    destruct Hstart as (_ & F6 & _ & Q6 & U6 & _).
    assert (H6 : frame_buffers s6 = frame_buffers s
                 /\ filled_frame_queue s6 = filled_frame_queue s2
                 /\ queues s6 = queues s2)
      by (split; [congruence | split; congruence]).
    destruct Hend as [(_ & _ & ->)|[(_ & _ & _ & ->)|(_ & vi & _ & _ & ->)]];
      exact H6. }
  destruct Hend as (Fe & Qe & Ue).
  split; [exact Fe |].
  destruct (reused_address (g_allocator s) freed) as [q'|];
    destruct Hq2 as [Q2 U2]; split; congruence.
Qed.

(** C10.  [alloc_and_announce_buffers] stores in [context[0]] of every
    descriptor it announces the address of the queue the element has at
    that moment.  When [gst_vmbsrc_set_caps] then replaces that queue
    and the payload size the camera reports fits the buffers, so that
    they are not revoked and announced again, every descriptor still
    holds the address [q] of the queue that was released, and the
    callback of any frame pushes through that address.  The element
    drains a new, empty queue.  That queue is at [q], and then receives
    the frames, exactly when the allocator placed it at the address just
    freed; in every other case [q] is the address of a freed object. *)
Theorem callback_targets_the_replaced_queue :
  (forall s,
     (alloc_and_announce_buffers s).1 = VmbErrorSuccess ->
     forall i, (i < NUM_FRAME_BUFFERS s)%nat ->
       context0 (frame_at i (alloc_and_announce_buffers s).2) = filled_frame_queue s)
  /\ (forall (polls : nat) (caps : GstCaps) (s s' : GstVmbSrc) (ok : bool) (q : nat)
             (pre post : Transcript) (rp : VmbResponse),
        gst_vmbsrc_set_caps polls caps s = Some (ok, s') ->
        filled_frame_queue s = Some q ->
        (q < length (queues s))%nat ->
        (forall i, (i < NUM_FRAME_BUFFERS s)%nat -> context0 (frame_at i s) = Some q) ->
        calls_since s s' = pre ++ (VmbPayloadSizeGet, rp) :: post ->
        Forall (fun ev => ev.1 <> VmbPayloadSizeGet) pre ->
        r_err rp = VmbErrorSuccess ->
        r_val rp <= bufferSize (frame_at 0 s) ->
        let freed :=
          alter (fun o => {| q_items := q_items o; q_live := false |}) q (queues s) in
        exists q',
          filled_frame_queue s' = Some q'
          /\ queues s' !! q' = Some {| q_items := []; q_live := true |}
          /\ (forall i, (i < NUM_FRAME_BUFFERS s)%nat ->
                context0 (frame_at i s') = Some q
                /\ vimbax_frame_callback i s' = g_async_queue_push (Some q) i s')
          /\ (q' = q <-> reused_address (g_allocator s) freed = Some q)
          /\ (q' <> q -> dangling q s')
          /\ (q' = q ->
              forall i, (i < NUM_FRAME_BUFFERS s)%nat ->
                filled_frames (vimbax_frame_callback i s').2 = [i])).
Proof.
  split; [exact alloc_and_announce_buffers_routes_to_current_queue |].
  intros polls caps s s' ok q pre post rp Hrun Hq Hlt Hctx Hcalls Hpre Hok Hfit freed.
  destruct (set_caps_keeps_pool_and_replaces_queue _ _ _ _ _ _ _ _ _
              Hrun Hq Hcalls Hpre Hok Hfit) as (Hfb & Hplace).
  fold freed in Hplace.
  destruct (lookup_lt_is_Some_2 _ _ Hlt) as [old Hold].
  assert (Hfreed : freed !! q = Some {| q_items := q_items old; q_live := false |}).
  { subst freed. by rewrite list_lookup_alter_eq, Hold. }
  assert (Hlen : length freed = length (queues s)) by apply length_alter.
  assert (Hcb : forall i, (i < NUM_FRAME_BUFFERS s)%nat ->
            context0 (frame_at i s') = Some q
            /\ vimbax_frame_callback i s' = g_async_queue_push (Some q) i s').
  { intros i Hi.
    assert (Hc : context0 (frame_at i s') = Some q)
      by (unfold frame_at; rewrite Hfb; exact (Hctx i Hi)).
    split; [exact Hc |]. unfold vimbax_frame_callback.
    change (bind (get (frame_at i)) (fun f => g_async_queue_push (context0 f) i) s')
      with (g_async_queue_push (context0 (frame_at i s')) i s').
    by rewrite Hc. }
  destruct (reused_address (g_allocator s) freed) as [q'|] eqn:Hreuse;
    destruct Hplace as [Hnew Hqs].
  - (* the new queue is placed in freed memory *)
    assert (Hin : (q' < length freed)%nat).
    { unfold reused_address in Hreuse.
      destruct (g_allocator s freed) as [a|]; [| discriminate].
      destruct (freed !! a) as [o|] eqn:Ho; [| discriminate].
      destruct (q_live o); [discriminate |]. injection Hreuse as <-.
      by eapply lookup_lt_Some. }
    exists q'. split; [exact Hnew |].
    split; [rewrite Hqs; by apply list_lookup_insert_eq |].
    split; [exact Hcb |].
    split; [split; [by intros -> | by intros [= ->]] |].
    split.
    + intros Hne. exists {| q_items := q_items old; q_live := false |}.
      split; [| reflexivity]. rewrite Hqs.
      rewrite list_lookup_insert_ne by exact Hne. exact Hfreed.
    + intros -> i Hi. destruct (Hcb i Hi) as [_ ->].
      unfold filled_frames. cbn. rewrite Hnew, Hqs.
      rewrite list_lookup_alter_eq, list_lookup_insert_eq by exact Hin. reflexivity.
  - (* the new queue gets memory of its own *)
    exists (length (queues s)). split; [exact Hnew |].
    split.
    { rewrite Hqs, lookup_app_r by lia. rewrite Hlen, Nat.sub_diag. reflexivity. }
    split; [exact Hcb |].
    split; [split; [lia | discriminate] |].
    split; [| lia].
    intros _. exists {| q_items := q_items old; q_live := false |}.
    split; [| reflexivity]. rewrite Hqs, lookup_app_l by lia. exact Hfreed.
Qed.

(** A second negotiation of the same format on a streaming element whose
    allocator never uses an address twice: the new queue is at address 2
    and the descriptors point to the freed queue at address 1. *)
Lemma callback_targets_the_replaced_queue_witness :
  let s := streaming_element cooperative_camera 3 default_properties in
  let s' := renegotiated_element cooperative_camera 3 default_properties in
  filled_frame_queue s' = Some 2%nat
  /\ dangling 1 s'
  /\ forall i, (i < 3)%nat ->
       context0 (frame_at i s') = Some 1%nat
       /\ vimbax_frame_callback i s' = g_async_queue_push (Some 1%nat) i s'.
Proof.
  intros s s'.
  destruct (proj2 callback_targets_the_replaced_queue 1%nat gray8_caps s s' true 1%nat
              [(VmbFeatureCommandRun "AcquisitionStop", answer 0 0);
               (VmbFeatureCommandIsDone "AcquisitionStop", answer 1 0);
               (VmbCaptureEnd, answer 0 0); (VmbCaptureQueueFlush, answer 0 0);
               (VmbFeatureEnumSet "PixelFormat" "Mono8", answer 0 0)]
              [(VmbCaptureStart, answer 0 0);
               (VmbCaptureFrameQueue 0, answer 0 0);
               (VmbCaptureFrameQueue 1, answer 0 0);
               (VmbCaptureFrameQueue 2, answer 0 0);
               (VmbFeatureCommandRun "AcquisitionStart", answer 0 0);
               (VmbFeatureCommandIsDone "AcquisitionStart", answer 1 0)]
              (answer 4096 0))
    as (q' & Hnew & _ & Hcb & _ & Hdangling & _).
  - vm_compute. reflexivity.
  - vm_compute. reflexivity.
  - vm_compute. lia.
  - intros i Hi. change (NUM_FRAME_BUFFERS s) with 3%nat in Hi.
    destruct i as [|[|[|i]]]; [vm_compute; reflexivity .. | lia].
  - vm_compute. reflexivity.
  - repeat constructor; discriminate.
  - reflexivity.
  - vm_compute. discriminate.
  - assert (Hq' : q' = 2%nat).
    { assert (H2 : filled_frame_queue s' = Some 2%nat) by (vm_compute; reflexivity).
      rewrite H2 in Hnew. by injection Hnew. }
    subst q'. split; [exact Hnew |]. split; [apply Hdangling; lia |]. exact Hcb.
Defined.

(** C10 as it is stated fails on an allocator that uses the address of
    the released queue for the new one.  After a second negotiation of
    the same caps, which announces no frame, the new queue is at the
    address the descriptors hold: the callback puts a completed frame in
    the queue the element drains, and [gst_vmbsrc_create] hands it
    out. *)
Lemma callback_reaches_the_queue_at_a_reused_address :
  let s := streaming_on_reused_memory in
  let s' := renegotiated_on_reused_memory in
  gst_vmbsrc_set_caps 1 gray8_caps s = Some (true, s')
  /\ announced (calls_since s s') = []
  /\ frame_buffers s' = frame_buffers s
  /\ filled_frame_queue s = Some 1%nat
  /\ filled_frame_queue s' = Some 1%nat
  /\ queues s' !! 1%nat = Some {| q_items := []; q_live := true |}
  /\ (forall i, (i < 3)%nat -> filled_frames (vimbax_frame_callback i s').2 = [i])
  /\ exists buf s'',
       gst_vmbsrc_create [complete_tick] s' = Some (GST_FLOW_OK 2 buf, s'').
Proof.
  intros s s'.
  split; [vm_compute; reflexivity |].
  split; [vm_compute; reflexivity |].
  split; [vm_compute; reflexivity |].
  split; [vm_compute; reflexivity |].
  split; [vm_compute; reflexivity |].
  split; [vm_compute; reflexivity |].
  split.
  - intros i Hi. destruct i as [|[|[|i]]]; [vm_compute; reflexivity .. | lia].
  - eexists _, _. vm_compute. reflexivity.
Qed.

(** ** The code the trigger configuration returns *)

Lemma enum_set_codes_app (a b : Transcript) :
  enum_set_codes (a ++ b) = enum_set_codes a ++ enum_set_codes b.
Proof. apply omap_app. Qed.

Lemma enum_set_codes_none (evs : Transcript) :
  enum_sets evs = [] -> enum_set_codes evs = [].
Proof.
  induction evs as [|[c r] evs IH]; [reflexivity |].
  unfold enum_sets. cbn [map fst]. intros H.
  change ((c, r) :: evs) with ([(c, r)] ++ evs). rewrite enum_set_codes_app.
  destruct (is_enum_set c) eqn:E.
  - rewrite filter_cons_True in H by exact E. discriminate.
  - rewrite filter_cons_False in H by (rewrite E; discriminate).
    rewrite (IH H). unfold enum_set_codes. cbn. by rewrite E.
Qed.

Lemma last_code_app (result : VmbError_t) (a b : Transcript) :
  default result (last (enum_set_codes (a ++ b)))
  = default (default result (last (enum_set_codes a))) (last (enum_set_codes b)).
Proof.
  rewrite enum_set_codes_app, last_app. by destruct (last (enum_set_codes b)).
Qed.

(** One block of [apply_trigger_settings], with the code it leaves in
    [result]. *)
Lemma trigger_block_result {E} `{EqDecision E} (e u : E) (name nick : string)
    (result : VmbError_t) (s : GstVmbSrc) :
  let m : M VmbError_t :=
    if decide (e = u) then ret result
    else
      let* r := sdk (VmbFeatureEnumSet name nick) in
      do* (if decide (r_err r = VmbErrorSuccess) then ret tt
           else if decide (r_err r = VmbErrorInvalidValue)
                then log_available_enum_entries name
                else ret tt) in
      ret (r_err r) in
  exists evs,
    config_run s (m s).2 evs
    /\ (m s).1 = default result (last (enum_set_codes evs))
    /\ (no_invalid_value evs ->
        map fst evs = if decide (e = u) then [] else [VmbFeatureEnumSet name nick]).
Proof.
  destruct (decide (e = u)); cbv beta iota zeta.
  - exists []. split; [apply config_run_refl | by split].
  - rewrite !bind_run. cbn [ret fst snd].
    set (r := (sdk (VmbFeatureEnumSet name nick) s).1).
    set (s1 := (sdk (VmbFeatureEnumSet name nick) s).2).
    destruct (decide (r_err r = VmbErrorSuccess)) as [?|?];
      [| destruct (decide (r_err r = VmbErrorInvalidValue)) as [Hinv|?]].
    + exists [(VmbFeatureEnumSet name nick, r)].
      split; [apply config_run_sdk | by split].
    + destruct (log_available_enum_entries_run name s1) as (evs & Hrun & Hsets).
      exists ([(VmbFeatureEnumSet name nick, r)] ++ evs).
      split; [eapply config_run_trans; [apply config_run_sdk | exact Hrun] |].
      split.
      * rewrite last_code_app, (enum_set_codes_none _ Hsets). reflexivity.
      * intros Hq. apply Forall_app in Hq as [Hq _].
        apply Forall_cons in Hq as [Hq _]. by destruct (Hq eq_refl).
    + exists [(VmbFeatureEnumSet name nick, r)].
      split; [apply config_run_sdk | by split].
Qed.

Lemma trigger_mode_block_result {E} `{EqDecision E} (e u : E) (name nick : string)
    (result : VmbError_t) (s : GstVmbSrc) :
  let m : M VmbError_t :=
    if decide (e = u) then ret result
    else let* r := sdk (VmbFeatureEnumSet name nick) in ret (r_err r) in
  exists evs,
    config_run s (m s).2 evs
    /\ (m s).1 = default result (last (enum_set_codes evs))
    /\ (no_invalid_value evs ->
        map fst evs = if decide (e = u) then [] else [VmbFeatureEnumSet name nick]).
Proof.
  destruct (decide (e = u)); cbv beta iota zeta.
  - exists []. split; [apply config_run_refl | by split].
  - rewrite bind_run. eexists. split; [apply config_run_sdk | by split].
Qed.

Ltac step_trigger_result evs Hrun Hres Hquiet :=
  match goal with
  | |- context [bind ?m ?k ?s0] =>
      rewrite (bind_run m k s0);
      first
        [ destruct (trigger_block_result _ _ _ _ _ s0
                    : exists evs, config_run s0 (m s0).2 evs /\ _)
            as (evs & Hrun & Hres & Hquiet)
        | destruct (trigger_mode_block_result _ _ _ _ _ s0
                    : exists evs, config_run s0 (m s0).2 evs /\ _)
            as (evs & Hrun & Hres & Hquiet) ];
      let r := fresh "result" in
      let s1 := fresh "s" in
      destruct (m s0) as [r s1]; cbn [fst snd] in *
  end.

Lemma apply_trigger_settings_run (s : GstVmbSrc) :
  let run := apply_trigger_settings s in
  exists evs,
    config_run s run.2 evs
    /\ run.1 = default VmbErrorSuccess (last (enum_set_codes evs))
    /\ (no_invalid_value evs -> map fst evs = trigger_sets (properties s)).
Proof.
  unfold apply_trigger_settings.
  step_get. step_trigger_result e1 R1 C1 Q1.
  step_get. step_trigger_result e2 R2 C2 Q2.
  step_get. step_trigger_result e3 R3 C3 Q3.
  step_get. step_trigger_result e4 R4 C4 Q4.
  cbn [ret fst snd].
  pose proof (config_run_trans _ _ _ _ _ R1 R2) as R12.
  pose proof (config_run_trans _ _ _ _ _ R12 R3) as R123.
  pose proof (config_run_trans _ _ _ _ _ R123 R4) as R.
  exists (((e1 ++ e2) ++ e3) ++ e4). split; [exact R |]. split.
  - rewrite !last_code_app. congruence.
  - intros Hq. apply Forall_app in Hq as [Hq H4]. apply Forall_app in Hq as [Hq H3].
    apply Forall_app in Hq as [H1 H2].
    destruct R1 as [_ P1], R12 as [_ P2], R123 as [_ P3].
    rewrite P3 in Q4. rewrite P2 in Q3. rewrite P1 in Q2.
    rewrite !map_app, (Q1 H1), (Q2 H2), (Q3 H3), (Q4 H4).
    unfold trigger_sets. by rewrite <- !app_assoc.
Qed.

(** X17.  [apply_trigger_settings] returns the code of the last enum
    feature it set, and success when it set none; the code of an earlier
    set that failed is overwritten by a later one.  The properties are
    not changed. *)
Theorem apply_trigger_settings_returns_last_code (s : GstVmbSrc) :
  let run := apply_trigger_settings s in
  run.1 = default VmbErrorSuccess (last (enum_set_codes (calls_since s run.2)))
  /\ properties run.2 = properties s.
Proof.
  intros run. subst run.
  destruct (apply_trigger_settings_run s) as (evs & [L P] & Hres & _).
  rewrite (calls_since_app _ _ _ L). by split.
Qed.

(** X18.  [apply_trigger_settings] asks the camera for the available
    entries only after a set that was answered with
    [VmbErrorInvalidValue]: when no set got that answer, the calls are
    the sets of the explicit trigger properties and nothing else (none
    at all when every trigger property is UNCHANGED). *)
Theorem apply_trigger_settings_quiet (s : GstVmbSrc) :
  let run := apply_trigger_settings s in
  no_invalid_value (calls_since s run.2) ->
  map fst (calls_since s run.2) = trigger_sets (properties s).
Proof.
  intros run. subst run.
  destruct (apply_trigger_settings_run s) as (evs & [L P] & _ & Hq).
  rewrite (calls_since_app _ _ _ L). exact Hq.
Qed.

(** The trigger configuration of the specification's example, on a
    camera that accepts it. *)
Lemma apply_trigger_settings_quiet_witness :
  let s := started_element cooperative_camera 3 frame_start_trigger in
  map fst (calls_since s (apply_trigger_settings s).2)
  = [ VmbFeatureEnumSet "TriggerSelector" "FrameStart";
      VmbFeatureEnumSet "TriggerActivation" "RisingEdge";
      VmbFeatureEnumSet "TriggerSource" "Line0";
      VmbFeatureEnumSet "TriggerMode" "On" ].
Proof.
  intros s.
  refine (eq_trans (apply_trigger_settings_quiet s _) eq_refl).
  vm_compute. repeat constructor; discriminate.
Defined.

(** ** The region of interest, call by call *)

Lemma ends_with_offsety_bind {A} (m : M A) (k : A -> M VmbError_t) (s : GstVmbSrc) :
  keeps (only_calls (fun _ => True)) m ->
  (forall a s1, ends_with_offsety s1 (k a s1)) ->
  ends_with_offsety s (bind m k s).
Proof.
  intros Hm Hk. rewrite bind_run.
  destruct (Hm s) as (evs & L & _).
  destruct (Hk (m s).1 (m s).2) as (mid & r_last & L' & Hres).
  exists (evs ++ mid), r_last. split; [| exact Hres].
  rewrite L', L, <- !app_assoc. reflexivity.
Qed.

Lemma keeps_any_call_set_property (minimum maximum : Z)
    (store : Z -> Properties -> Properties) (v : Z) :
  keeps (only_calls (fun _ => True)) (g_object_set_int minimum maximum store v).
Proof.
  unfold g_object_set_int. destruct (decide (minimum <= v <= maximum)).
  - apply keeps_only_calls_modify. reflexivity.
  - apply keeps_ret. apply _.
Qed.

Ltac any_call_step :=
  lazymatch goal with
  | |- keeps _ (bind _ _) => apply keeps_bind; [apply _ | | intros ?]
  | |- keeps _ (ret _) => apply keeps_ret; apply _
  | |- keeps _ (get _) => apply keeps_get; apply _
  | |- keeps _ (if ?d then _ else _) => destruct d
  | |- keeps _ (sdk _) => apply keeps_sdk_calls; exact I
  | |- keeps _ (set_property_offsetx _) => apply keeps_any_call_set_property
  | |- keeps _ (set_property_offsety _) => apply keeps_any_call_set_property
  | |- keeps _ (set_property_width _) => apply keeps_any_call_set_property
  | |- keeps _ (set_property_height _) => apply keeps_any_call_set_property
  end.

Ltac ends_with_offsety_step :=
  lazymatch goal with
  | |- ends_with_offsety ?s (bind (get ?f) (fun oy => bind (sdk _) (fun r => ret (r_err r))) ?s) =>
      exists []; eexists; split; reflexivity
  | |- ends_with_offsety _ (bind _ _ _) =>
      apply ends_with_offsety_bind; [repeat any_call_step | intros ? ?]
  end.

Section RegionOfInterestShape.
Variable RoundToNearestValidValue : Z -> Z -> Z -> Z -> Z.

(** X19.  Whatever the properties and the camera, [set_roi] first
    resets OffsetX and then OffsetY to 0, its last call sets OffsetY to
    the value the offsety property has in the end, and the code of that
    last call is what it returns: a failure of any earlier call is not
    reported. *)
Theorem set_roi_reports_the_last_set (s : GstVmbSrc) :
  let run := set_roi RoundToNearestValidValue s in
  exists r1 r2 mid r_last,
    calls_since s run.2
    = (VmbFeatureIntSet "OffsetX" 0, r1) :: (VmbFeatureIntSet "OffsetY" 0, r2) :: mid
      ++ [(VmbFeatureIntSet "OffsetY" (offsety (properties run.2)), r_last)]
    /\ run.1 = r_err r_last.
Proof.
  intros run. subst run. unfold set_roi.
  rewrite (bind_run (sdk (VmbFeatureIntSet "OffsetX" 0))).
  set (r1 := (sdk (VmbFeatureIntSet "OffsetX" 0) s).1).
  set (s1 := (sdk (VmbFeatureIntSet "OffsetX" 0) s).2).
  rewrite (bind_run (sdk (VmbFeatureIntSet "OffsetY" 0))).
  set (r2 := (sdk (VmbFeatureIntSet "OffsetY" 0) s1).1).
  set (s2 := (sdk (VmbFeatureIntSet "OffsetY" 0) s1).2).
  cbv beta.
  assert (L2 : sdk_log s2 = sdk_log s ++ [(VmbFeatureIntSet "OffsetX" 0, r1);
                                          (VmbFeatureIntSet "OffsetY" 0, r2)]).
  { subst s2 s1. cbn. rewrite <- app_assoc. reflexivity. }
  match goal with
  | |- context [calls_since s (?m s2).2] =>
      assert (Hend : ends_with_offsety s2 (m s2)) by (repeat ends_with_offsety_step)
  end.
  destruct Hend as (mid & r_last & L & Hres).
  exists r1, r2, mid, r_last. split; [| exact Hres].
  apply calls_since_app. rewrite L, L2, <- !app_assoc. reflexivity.
Qed.

(** X20.  A region of interest given in full is passed on as it is.
    With explicit width and height (not INT_MAX) and explicit offsets
    (not -1), [set_roi] makes exactly eight calls: the two resets, the
    range query and the set of Width, the same for Height, the set of
    OffsetX and the set of OffsetY, each with the value of its property.
    No range or increment of an offset is asked for, and the properties
    are unchanged. *)
Theorem set_roi_explicit_region (s : GstVmbSrc) :
  width (properties s) <> INT_MAX ->
  height (properties s) <> INT_MAX ->
  offsetx (properties s) <> -1 ->
  offsety (properties s) <> -1 ->
  let run := set_roi RoundToNearestValidValue s in
  map fst (calls_since s run.2)
  = [ VmbFeatureIntSet "OffsetX" 0; VmbFeatureIntSet "OffsetY" 0;
      VmbFeatureIntRangeQuery "Width";
      VmbFeatureIntSet "Width" (width (properties s));
      VmbFeatureIntRangeQuery "Height";
      VmbFeatureIntSet "Height" (height (properties s));
      VmbFeatureIntSet "OffsetX" (offsetx (properties s));
      VmbFeatureIntSet "OffsetY" (offsety (properties s)) ]
  /\ properties run.2 = properties s.
Proof.
  intros Hw Hh Hx Hy run. subst run. unfold set_roi.
  step_sdk s r1 s1 R1 L1 D1 P1. step_sdk s1 r2 s2 R2 L2 D2 P2.
  step_sdk s2 rw s3 Rw L3 D3 P3.
  step_get_at s3.
  rewrite (decide_False (P := width (properties s3) = INT_MAX)) by congruence.
  match goal with |- context [bind (ret tt) ?k s3] =>
    change (bind (ret tt) k s3) with (k tt s3); cbv beta end.
  step_get_at s3. step_sdk s3 r5 s5 R5 L5 D5 P5.
  step_sdk s5 rh s6 Rh L6 D6 P6.
  step_get_at s6.
  rewrite (decide_False (P := height (properties s6) = INT_MAX)) by congruence.
  match goal with |- context [bind (ret tt) ?k s6] =>
    change (bind (ret tt) k s6) with (k tt s6); cbv beta end.
  step_get_at s6. step_sdk s6 r8 s8 R8 L8 D8 P8.
  step_get_at s8.
  rewrite (decide_False (P := offsetx (properties s8) = -1)) by congruence.
  match goal with |- context [bind (ret tt) ?k s8] =>
    change (bind (ret tt) k s8) with (k tt s8); cbv beta end.
  step_get_at s8. step_sdk s8 r9 s9 R9 L9 D9 P9.
  step_get_at s9.
  rewrite (decide_False (P := offsety (properties s9) = -1)) by congruence.
  match goal with |- context [bind (ret tt) ?k s9] =>
    change (bind (ret tt) k s9) with (k tt s9); cbv beta end.
  step_get_at s9. step_sdk s9 r10 s10 R10 L10 D10 P10.
  cbn [ret fst snd].
  assert (L : sdk_log s10
              = sdk_log s
                ++ [ (VmbFeatureIntSet "OffsetX" 0, r1); (VmbFeatureIntSet "OffsetY" 0, r2);
                     (VmbFeatureIntRangeQuery "Width", rw);
                     (VmbFeatureIntSet "Width" (width (properties s3)), r5);
                     (VmbFeatureIntRangeQuery "Height", rh);
                     (VmbFeatureIntSet "Height" (height (properties s6)), r8);
                     (VmbFeatureIntSet "OffsetX" (offsetx (properties s8)), r9);
                     (VmbFeatureIntSet "OffsetY" (offsety (properties s9)), r10) ]).
  { rewrite L10, L9, L8, L6, L5, L3, L2, L1, <- !app_assoc. reflexivity. }
  rewrite (calls_since_app _ _ _ L). cbn [map fst].
  split; [| congruence].
  rewrite P9, P8, P6, P5, P3, P2, P1. reflexivity.
Qed.

End RegionOfInterestShape.

(** Width 640, height 480, offsets 16 and 8. *)
Lemma set_roi_explicit_region_witness :
  let s := started_element cooperative_camera 3 explicit_roi in
  let run := set_roi RoundToNearestValidValue_model s in
  map fst (calls_since s run.2)
  = [ VmbFeatureIntSet "OffsetX" 0; VmbFeatureIntSet "OffsetY" 0;
      VmbFeatureIntRangeQuery "Width"; VmbFeatureIntSet "Width" 640;
      VmbFeatureIntRangeQuery "Height"; VmbFeatureIntSet "Height" 480;
      VmbFeatureIntSet "OffsetX" 16; VmbFeatureIntSet "OffsetY" 8 ]
  /\ properties run.2 = properties s.
Proof.
  intros s.
  apply (set_roi_explicit_region RoundToNearestValidValue_model s);
    vm_compute; discriminate.
Defined.

(** ** The centred offsets, call by call *)

Section RegionOfInterestRun.
Variable RoundToNearestValidValue : Z -> Z -> Z -> Z -> Z.

(** The block of [set_roi] that centres an offset. *)
Lemma roi_centre_block (feature : string) (wanted : Z)
    (store : Z -> Properties -> Properties) (s : GstVmbSrc) :
  let block : M unit :=
    let* rr := sdk (VmbFeatureIntRangeQuery feature) in
    let* v :=
      (if decide (r_err rr = VmbErrorSuccess) then
         let minimum := r_val rr in
         let maximum := r_val2 rr in
         let* ri := sdk (VmbFeatureIntIncrementQuery feature) in
         if decide (r_err ri = VmbErrorSuccess) then
           let increment := r_val ri in
           let valid := RoundToNearestValidValue wanted minimum maximum increment in
           if decide (valid <> wanted) then ret valid else ret wanted
         else ret wanted
       else ret wanted) in
    g_object_set_int (-1) G_MAXINT store (to_int v) in
  exists queries value,
    sdk_log (block s).2 = sdk_log s ++ queries
    /\ device (block s).2 = device s
    /\ properties (block s).2
       = (if decide (-1 <= to_int value <= G_MAXINT)
          then store (to_int value) (properties s) else properties s)
    /\ centring RoundToNearestValidValue feature (-1) wanted queries (stored_offset value).
Proof.
  intros block. subst block.
  rewrite bind_run.
  set (rr := (sdk (VmbFeatureIntRangeQuery feature) s).1).
  set (s1 := (sdk (VmbFeatureIntRangeQuery feature) s).2).
  assert (L1 : sdk_log s1 = sdk_log s ++ [(VmbFeatureIntRangeQuery feature, rr)])
    by reflexivity.
  assert (D1 : device s1 = device s) by reflexivity.
  assert (P1 : properties s1 = properties s) by reflexivity.
  clearbody rr s1. cbv beta.
  assert (Hstore : forall v s0,
            properties (g_object_set_int (-1) G_MAXINT store (to_int v) s0).2
            = (if decide (-1 <= to_int v <= G_MAXINT)
               then store (to_int v) (properties s0) else properties s0)
            /\ sdk_log (g_object_set_int (-1) G_MAXINT store (to_int v) s0).2 = sdk_log s0
            /\ device (g_object_set_int (-1) G_MAXINT store (to_int v) s0).2 = device s0).
  { intros v s0. unfold g_object_set_int.
    destruct (decide (-1 <= to_int v <= G_MAXINT)); by repeat split. }
  destruct (decide (r_err rr = VmbErrorSuccess)) as [Hrr|Hrr].
  - rewrite !bind_run.
    set (ri := (sdk (VmbFeatureIntIncrementQuery feature) s1).1).
    set (s2 := (sdk (VmbFeatureIntIncrementQuery feature) s1).2).
    assert (L2 : sdk_log s2 = sdk_log s ++ [(VmbFeatureIntRangeQuery feature, rr);
                                            (VmbFeatureIntIncrementQuery feature, ri)]).
    { subst s2. cbn. rewrite L1, <- app_assoc. reflexivity. }
    assert (D2 : device s2 = device s) by (subst s2; cbn; exact D1).
    assert (P2 : properties s2 = properties s) by (subst s2; cbn; exact P1).
    clearbody ri s2. cbv beta zeta.
    set (valid := RoundToNearestValidValue wanted (r_val rr) (r_val2 rr) (r_val ri)).
    set (v := if decide (r_err ri = VmbErrorSuccess) then valid else wanted).
    assert (Hv : forall s0,
              (if decide (r_err ri = VmbErrorSuccess)
               then if decide (valid <> wanted) then ret valid else ret wanted
               else ret wanted) s0 = (v, s0)).
    { intros s0. subst v. destruct (decide (r_err ri = VmbErrorSuccess)); [| reflexivity].
      destruct (decide (valid <> wanted)) as [|He]; [reflexivity |].
      destruct (decide (valid = wanted)) as [->|]; [reflexivity | contradiction]. }
    rewrite Hv. cbn [fst snd].
    destruct (Hstore v s2) as (Hp & Hl & Hd).
    exists [(VmbFeatureIntRangeQuery feature, rr);
            (VmbFeatureIntIncrementQuery feature, ri)], v.
    split; [congruence |]. split; [congruence |]. split; [by rewrite Hp, P2 |].
    unfold centring. rewrite decide_True by reflexivity.
    exists rr. right. split; [exact Hrr |]. exists ri. by split.
  - rewrite bind_run. cbn [ret fst snd].
    destruct (Hstore wanted s1) as (Hp & Hl & Hd).
    exists [(VmbFeatureIntRangeQuery feature, rr)], wanted.
    split; [congruence |]. split; [congruence |]. split; [by rewrite Hp, P1 |].
    unfold centring. rewrite decide_True by reflexivity.
    exists rr. left. by repeat split.
Qed.


Lemma with_field_same (p : Properties) :
  with_width (width p) p = p /\ with_height (height p) p = p
  /\ with_offsetx (offsetx p) p = p /\ with_offsety (offsety p) p = p.
Proof. by destruct p. Qed.

(** The Width and the Height step of [set_roi]. *)
Lemma roi_width_resolved (v : Z) (s : GstVmbSrc) :
  let m : M unit :=
    if decide (width (properties s) = INT_MAX)
    then set_property_width (to_int v) else ret tt in
  sdk_log (m s).2 = sdk_log s
  /\ device (m s).2 = device s
  /\ properties (m s).2 = with_width (resolved_width (properties s) v) (properties s).
Proof.
  unfold resolved_width, set_property_width, g_object_set_int.
  destruct (with_field_same (properties s)) as (Hw & _).
  destruct (decide (width (properties s) = INT_MAX)); [| by rewrite Hw].
  destruct (decide (0 <= to_int v <= G_MAXINT)); [done | by rewrite Hw].
Qed.

Lemma roi_height_resolved (v : Z) (s : GstVmbSrc) :
  let m : M unit :=
    if decide (height (properties s) = INT_MAX)
    then set_property_height (to_int v) else ret tt in
  sdk_log (m s).2 = sdk_log s
  /\ device (m s).2 = device s
  /\ properties (m s).2 = with_height (resolved_height (properties s) v) (properties s).
Proof.
  unfold resolved_height, set_property_height, g_object_set_int.
  destruct (with_field_same (properties s)) as (_ & Hh & _).
  destruct (decide (height (properties s) = INT_MAX)); [| by rewrite Hh].
  destruct (decide (0 <= to_int v <= G_MAXINT)); [done | by rewrite Hh].
Qed.

(** The whole of [set_roi], call by call. *)
Lemma set_roi_run (s : GstVmbSrc) :
  let run := set_roi RoundToNearestValidValue s in
  exists r1 r2 rw r4 rh r6 xq rx yq ry,
    let w := resolved_width (properties s) (r_val2 rw) in
    let h := resolved_height (properties s) (r_val2 rh) in
    sdk_log run.2
    = sdk_log s
      ++ [ (VmbFeatureIntSet "OffsetX" 0, r1); (VmbFeatureIntSet "OffsetY" 0, r2);
           (VmbFeatureIntRangeQuery "Width", rw); (VmbFeatureIntSet "Width" w, r4);
           (VmbFeatureIntRangeQuery "Height", rh); (VmbFeatureIntSet "Height" h, r6) ]
      ++ xq ++ [(VmbFeatureIntSet "OffsetX" (offsetx (properties run.2)), rx)]
      ++ yq ++ [(VmbFeatureIntSet "OffsetY" (offsety (properties run.2)), ry)]
    /\ run.1 = r_err ry
    /\ width (properties run.2) = w
    /\ height (properties run.2) = h
    /\ centring RoundToNearestValidValue "OffsetX" (offsetx (properties s))
         (centred_offset (r_val2 rw) w) xq (offsetx (properties run.2))
    /\ centring RoundToNearestValidValue "OffsetY" (offsety (properties s))
         (centred_offset (r_val2 rh) h) yq (offsety (properties run.2)).
Proof.
  intros run. subst run. unfold set_roi.
  step_sdk s r1 s1 R1 L1 D1 P1. step_sdk s1 r2 s2 R2 L2 D2 P2.
  step_sdk s2 rw s3 Rw L3 D3 P3.
  step_get_at s3.
  match goal with |- context [bind ?m ?k s3] =>
    rewrite (bind_run m k s3); cbv beta;
    destruct (roi_width_resolved (r_val2 rw) s3) as (L4 & D4 & P4);
    set (s4 := (m s3).2) in *; clearbody s4 end.
  step_get_at s4. step_sdk s4 r5 s5 R5 L5 D5 P5.
  step_sdk s5 rh s6 Rh L6 D6 P6.
  step_get_at s6.
  match goal with |- context [bind ?m ?k s6] =>
    rewrite (bind_run m k s6); cbv beta;
    destruct (roi_height_resolved (r_val2 rh) s6) as (L7 & D7 & P7);
    set (s7 := (m s6).2) in *; clearbody s7 end.
  step_get_at s7. step_sdk s7 r8 s8 R8 L8 D8 P8.
  step_get_at s8.
  set (p0 := properties s) in *.
  set (w := resolved_width p0 (r_val2 rw)).
  assert (E4 : properties s4 = with_width w p0) by (subst w; congruence).
  set (h := resolved_height p0 (r_val2 rh)).
  assert (E8 : properties s8 = with_height h (with_width w p0)).
  { rewrite P8, P7, P6, P5, E4. reflexivity. }
  assert (Lsize : sdk_log s8
                  = sdk_log s
                    ++ [ (VmbFeatureIntSet "OffsetX" 0, r1);
                         (VmbFeatureIntSet "OffsetY" 0, r2);
                         (VmbFeatureIntRangeQuery "Width", rw);
                         (VmbFeatureIntSet "Width" w, r5);
                         (VmbFeatureIntRangeQuery "Height", rh);
                         (VmbFeatureIntSet "Height" h, r8) ]).
  { rewrite L8, L7, L6, L5, L4, L3, L2, L1, P7, P6, P5, E4. cbn [height width with_width].
    rewrite <- !app_assoc. reflexivity. }
  (* OffsetX *)
  match goal with |- context [bind ?m ?k s8] =>
    rewrite (bind_run m k s8); cbv beta;
    assert (Hx : exists xq,
              sdk_log (m s8).2 = sdk_log s8 ++ xq
              /\ device (m s8).2 = device s8
              /\ properties (m s8).2
                 = with_offsetx (offsetx (properties (m s8).2)) (properties s8)
              /\ centring RoundToNearestValidValue "OffsetX" (offsetx p0)
                   (centred_offset (r_val2 rw) w) xq (offsetx (properties (m s8).2)));
    [| set (s9 := (m s8).2) in *; clearbody s9 ]
  end.
  { rewrite E8. cbn [offsetx width with_height with_width].
    destruct (with_field_same (with_height h (with_width w p0))) as (_ & _ & Hsame & _).
    cbn [offsetx with_height with_width] in Hsame.
    unfold centring.
    destruct (decide (offsetx p0 = -1)) as [Hauto|Hexplicit].
    - step_get_at s8. rewrite E8. cbn [width with_height with_width].
      destruct (roi_centre_block "OffsetX" (centred_offset (r_val2 rw) w) with_offsetx s8)
        as (xq & value & Lx & Dx & Px & Hc).
      cbv zeta in Lx, Dx, Px.
      exists xq. split; [exact Lx |]. split; [exact Dx |].
      unfold centring in Hc. rewrite decide_True in Hc by reflexivity.
      assert (Hval : properties
                       ((let* rr := sdk (VmbFeatureIntRangeQuery "OffsetX") in
                         let* v :=
                           (if decide (r_err rr = VmbErrorSuccess) then
                              let* ri := sdk (VmbFeatureIntIncrementQuery "OffsetX") in
                              if decide (r_err ri = VmbErrorSuccess) then
                                if decide
                                     (RoundToNearestValidValue
                                        (centred_offset (r_val2 rw) w) (r_val rr)
                                        (r_val2 rr) (r_val ri)
                                      <> centred_offset (r_val2 rw) w)
                                then ret (RoundToNearestValidValue
                                            (centred_offset (r_val2 rw) w) (r_val rr)
                                            (r_val2 rr) (r_val ri))
                                else ret (centred_offset (r_val2 rw) w)
                              else ret (centred_offset (r_val2 rw) w)
                            else ret (centred_offset (r_val2 rw) w)) in
                         g_object_set_int (-1) G_MAXINT with_offsetx (to_int v)) s8).2
                     = with_offsetx (stored_offset value) (with_height h (with_width w p0))).
      { rewrite Px, E8. unfold stored_offset.
        destruct (decide (-1 <= to_int value <= G_MAXINT)); [reflexivity |].
        rewrite <- Hauto at 1. by rewrite Hsame. }
      change (set_property_offsetx) with (g_object_set_int (-1) G_MAXINT with_offsetx).
      unfold centred_offset in *. rewrite Hval. cbn [offsetx with_offsetx].
      split; [reflexivity | exact Hc].
    - exists []. cbn [ret snd]. rewrite E8. cbn [offsetx with_height with_width].
      split; [by rewrite app_nil_r |]. split; [reflexivity |].
      split; [by rewrite Hsame | done]. }
  destruct Hx as (xq & L9 & D9 & P9 & Hcx).
  set (ox := offsetx (properties s9)) in *.
  step_get_at s9. fold ox.
  step_sdk s9 r10 s10 R10 L10 D10 P10.
  step_get_at s10.
  assert (E10 : properties s10 = with_offsetx ox (with_height h (with_width w p0)))
    by (rewrite P10, P9, E8; reflexivity).
  (* OffsetY *)
  match goal with |- context [bind ?m ?k s10] =>
    rewrite (bind_run m k s10); cbv beta;
    assert (Hy : exists yq,
              sdk_log (m s10).2 = sdk_log s10 ++ yq
              /\ device (m s10).2 = device s10
              /\ properties (m s10).2
                 = with_offsety (offsety (properties (m s10).2)) (properties s10)
              /\ centring RoundToNearestValidValue "OffsetY" (offsety p0)
                   (centred_offset (r_val2 rh) h) yq (offsety (properties (m s10).2)));
    [| set (s11 := (m s10).2) in *; clearbody s11 ]
  end.
  { rewrite E10. cbn [offsety height with_offsetx with_height with_width].
    destruct (with_field_same (with_offsetx ox (with_height h (with_width w p0))))
      as (_ & _ & _ & Hsame).
    cbn [offsety with_offsetx with_height with_width] in Hsame.
    unfold centring.
    destruct (decide (offsety p0 = -1)) as [Hauto|Hexplicit].
    - step_get_at s10. rewrite E10. cbn [height with_offsetx with_height with_width].
      destruct (roi_centre_block "OffsetY" (centred_offset (r_val2 rh) h) with_offsety s10)
        as (yq & value & Ly & Dy & Py & Hc).
      cbv zeta in Ly, Dy, Py.
      exists yq. split; [exact Ly |]. split; [exact Dy |].
      unfold centring in Hc. rewrite decide_True in Hc by reflexivity.
      assert (Hval : properties
                       ((let* rr := sdk (VmbFeatureIntRangeQuery "OffsetY") in
                         let* v :=
                           (if decide (r_err rr = VmbErrorSuccess) then
                              let* ri := sdk (VmbFeatureIntIncrementQuery "OffsetY") in
                              if decide (r_err ri = VmbErrorSuccess) then
                                if decide
                                     (RoundToNearestValidValue
                                        (centred_offset (r_val2 rh) h) (r_val rr)
                                        (r_val2 rr) (r_val ri)
                                      <> centred_offset (r_val2 rh) h)
                                then ret (RoundToNearestValidValue
                                            (centred_offset (r_val2 rh) h) (r_val rr)
                                            (r_val2 rr) (r_val ri))
                                else ret (centred_offset (r_val2 rh) h)
                              else ret (centred_offset (r_val2 rh) h)
                            else ret (centred_offset (r_val2 rh) h)) in
                         g_object_set_int (-1) G_MAXINT with_offsety (to_int v)) s10).2
                     = with_offsety (stored_offset value)
                         (with_offsetx ox (with_height h (with_width w p0)))).
      { rewrite Py, E10. unfold stored_offset.
        destruct (decide (-1 <= to_int value <= G_MAXINT)); [reflexivity |].
        rewrite <- Hauto at 1. by rewrite Hsame. }
      change (set_property_offsety) with (g_object_set_int (-1) G_MAXINT with_offsety).
      unfold centred_offset in *. rewrite Hval. cbn [offsety with_offsety].
      split; [reflexivity | exact Hc].
    - exists []. cbn [ret snd]. rewrite E10.
      cbn [offsety with_offsetx with_height with_width].
      split; [by rewrite app_nil_r |]. split; [reflexivity |].
      split; [by rewrite Hsame | done]. }
  destruct Hy as (yq & L11 & D11 & P11 & Hcy).
  set (oy := offsety (properties s11)) in *.
  step_get_at s11. fold oy.
  step_sdk s11 r12 s12 R12 L12 D12 P12.
  cbn [ret fst snd].
  assert (E12 : properties s12
                = with_offsety oy (with_offsetx ox (with_height h (with_width w p0))))
    by (rewrite P12, P11, E10; reflexivity).
  exists r1, r2, rw, r5, rh, r8, xq, r10, yq, r12. cbv zeta. fold w h.
  rewrite E12. cbn [offsetx offsety width height with_offsety with_offsetx with_height
                      with_width].
  split.
  { rewrite L12, L11, L10, L9, Lsize. rewrite <- !app_assoc. reflexivity. }
  split; [reflexivity |]. split; [reflexivity |]. split; [reflexivity |].
  split; [exact Hcx | exact Hcy].
Qed.

End RegionOfInterestRun.

(** The model of the rounding helper brings every value to a valid one,
    and to one of the valid values nearest to it. *)
Lemma RoundToNearestValidValue_model_nearest (value minimum maximum increment : Z) :
  0 < increment -> minimum <= maximum ->
  let valid := RoundToNearestValidValue_model value minimum maximum increment in
  valid_value valid minimum maximum increment
  /\ forall v, valid_value v minimum maximum increment ->
               Z.abs (valid - value) <= Z.abs (v - value).
Proof.
  intros Hinc Hrange valid. subst valid. unfold RoundToNearestValidValue_model.
  rewrite decide_False by lia.
  set (c := Z.max minimum (Z.min maximum value)).
  set (half := increment / 2).
  set (k := (c - minimum + half) / increment).
  assert (Hhalf : 2 * half <= increment < 2 * half + 2).
  { subst half. pose proof (Z.div_mod increment 2 ltac:(lia)).
    pose proof (Z.mod_pos_bound increment 2 ltac:(lia)). lia. }
  assert (Hc : minimum <= c <= maximum) by (subst c; lia).
  assert (Hclamp : (value < minimum /\ c = minimum)
                   \/ (minimum <= value <= maximum /\ c = value)
                   \/ (maximum < value /\ c = maximum)) by (subst c; lia).
  assert (Hk : exists r, c - minimum + half = increment * k + r /\ 0 <= r < increment).
  { exists ((c - minimum + half) mod increment). split.
    - subst k. apply Z.div_mod. lia.
    - apply Z.mod_pos_bound. lia. }
  destruct Hk as (r & Hk & Hr).
  assert (Hk0 : 0 <= k) by nia.
  clearbody c half k.
  assert (Hgrid : forall j, (minimum + j * increment - minimum) mod increment = 0).
  { intros j. replace (minimum + j * increment - minimum) with (j * increment) by lia.
    apply Z.mod_mul. lia. }
  assert (Hvalid_grid : forall v, valid_value v minimum maximum increment ->
            exists j, v = minimum + j * increment /\ 0 <= j).
  { intros v [Hv Hm]. apply Z.mod_divide in Hm; [| lia]. destruct Hm as [j Hj].
    exists j. split; [lia | nia]. }
  destruct (decide (maximum < minimum + k * increment)) as [Hover|Hfits].
  - (* the nearest step lies beyond the maximum *)
    assert (Hk1 : 1 <= k) by nia.
    split.
    + split; [nia |].
      replace (minimum + k * increment - increment) with (minimum + (k - 1) * increment)
        by lia.
      apply Hgrid.
    + intros v Hv. destruct (Hvalid_grid v Hv) as (j & -> & Hj).
      destruct Hv as [Hv _].
      assert (j <= k - 1) by nia.
      assert (Hcv : minimum + (k - 1) * increment <= c) by nia.
      assert (minimum + j * increment <= minimum + (k - 1) * increment) by nia.
      lia.
  - split.
    + split; [nia | apply Hgrid].
    + intros v Hv. destruct (Hvalid_grid v Hv) as (j & -> & Hj).
      destruct Hv as [Hv _].
      destruct (decide (j <= k - 1)); [| destruct (decide (j = k)); [subst j; lia |]].
      * assert (minimum + j * increment <= minimum + k * increment - increment) by nia.
        lia.
      * assert (minimum + k * increment + increment <= minimum + j * increment) by nia.
        lia.
Qed.

Lemma centred_offset_floor (sensor size : Z) :
  - 2 ^ 63 <= sensor - size < 2 ^ 63 ->
  centred_offset sensor size = (sensor - size) / 2.
Proof.
  intros H. unfold centred_offset. rewrite to_int64_small by exact H.
  by rewrite Z.shiftr_div_pow2 by lia.
Qed.

(** The cases of [centring] for an offset that is to be centred, with
    the model of the rounding helper. *)
Lemma centring_model_cases (feature : string) (wanted : Z) (queries : Transcript)
    (value : Z) :
  centring RoundToNearestValidValue_model feature (-1) wanted queries value ->
  exists rr incr,
    queries = (VmbFeatureIntRangeQuery feature, rr) :: incr
    /\ (r_err rr <> VmbErrorSuccess -> incr = [] /\ value = stored_offset wanted)
    /\ (r_err rr = VmbErrorSuccess ->
        exists ri,
          incr = [(VmbFeatureIntIncrementQuery feature, ri)]
          /\ (r_err ri <> VmbErrorSuccess -> value = stored_offset wanted)
          /\ (r_err ri = VmbErrorSuccess ->
              let valid :=
                RoundToNearestValidValue_model wanted (r_val rr) (r_val2 rr) (r_val ri) in
              value = stored_offset valid
              /\ (0 < r_val ri -> r_val rr <= r_val2 rr ->
                  valid_value valid (r_val rr) (r_val2 rr) (r_val ri)
                  /\ (forall v, valid_value v (r_val rr) (r_val2 rr) (r_val ri) ->
                                Z.abs (valid - wanted) <= Z.abs (v - wanted))
                  /\ (0 <= r_val rr -> r_val2 rr <= INT_MAX -> value = valid)))).
Proof.
  unfold centring. rewrite decide_True by reflexivity.
  intros (rr & [(Hrr & -> & ->)|(Hrr & ri & -> & ->)]).
  - exists rr, []. split; [reflexivity |]. split; [done | intros; contradiction].
  - exists rr, [(VmbFeatureIntIncrementQuery feature, ri)].
    split; [reflexivity |]. split; [intros; contradiction |].
    intros _. exists ri. split; [reflexivity |].
    destruct (decide (r_err ri = VmbErrorSuccess)) as [Hri|Hri].
    + split; [intros; contradiction |]. intros _.
      set (valid := RoundToNearestValidValue_model wanted (r_val rr) (r_val2 rr)
                      (r_val ri)).
      split; [reflexivity |]. intros Hinc Hrange.
      destruct (RoundToNearestValidValue_model_nearest wanted (r_val rr) (r_val2 rr)
                  (r_val ri) Hinc Hrange) as [Hvalid Hnearest].
      fold valid in Hvalid, Hnearest.
      split; [exact Hvalid |]. split; [exact Hnearest |].
      intros Hmin Hmax. destruct Hvalid as [Hin _].
      unfold stored_offset, INT_MAX, G_MAXINT in *.
      rewrite to_int_small by lia. by rewrite decide_True by lia.
    + split; [done | intros; contradiction].
Qed.

(** The queries of [set_roi] for an offset set nothing. *)
Lemma centring_sets_nothing (round : Z -> Z -> Z -> Z -> Z) (feature : string)
    (property wanted : Z) (queries : Transcript) (value : Z) :
  centring round feature property wanted queries value ->
  Forall (fun ev => forall name, is_int_set name ev.1 = false) queries.
Proof.
  unfold centring. destruct (decide (property = -1)).
  - intros (rr & [(_ & -> & _)|(_ & ri & -> & _)]); by repeat constructor.
  - intros [-> _]. constructor.
Qed.

(** C6.  Let the offsetx property hold the sentinel -1.  [set_roi] then
    resets both offsets, asks for the range of Width and sets Width to
    the resolved width, does the same for Height, and only then asks the
    camera for the range of OffsetX, which may depend on the width now
    in force.  It centres on half of what the sensor width, as the
    camera reported it, has beyond the resolved width, which is
    floor ((sensor width - resolved width) / 2) when the difference fits
    64 bits.  When the range query and the increment query that follows
    it succeed, the value is rounded with [RoundToNearestValidValue] on
    the minimum, maximum and increment the camera reported: for a
    positive increment and a range that is not empty the result is a
    valid value and none is nearer to the centred one.  When a query
    fails the centred value is used as it is.  The value arrived at is
    stored in the property (if it fits the property) and OffsetX is set
    to the property; neither Width nor OffsetX is set again. *)
Theorem set_roi_centres_offsetx (s : GstVmbSrc) :
  offsetx (properties s) = -1 ->
  let run := set_roi RoundToNearestValidValue_model s in
  exists r1 r2 rw r4 rh r6 rr queries rx rest,
    let w := resolved_width (properties s) (r_val2 rw) in
    let h := resolved_height (properties s) (r_val2 rh) in
    let wanted := centred_offset (r_val2 rw) w in
    let value := offsetx (properties run.2) in
    calls_since s run.2
    = [ (VmbFeatureIntSet "OffsetX" 0, r1); (VmbFeatureIntSet "OffsetY" 0, r2);
        (VmbFeatureIntRangeQuery "Width", rw); (VmbFeatureIntSet "Width" w, r4);
        (VmbFeatureIntRangeQuery "Height", rh); (VmbFeatureIntSet "Height" h, r6);
        (VmbFeatureIntRangeQuery "OffsetX", rr) ]
      ++ queries ++ (VmbFeatureIntSet "OffsetX" value, rx) :: rest
    /\ Forall (fun ev => is_int_set "Width" ev.1 = false
                         /\ is_int_set "OffsetX" ev.1 = false) rest
    /\ (- 2 ^ 63 <= r_val2 rw - w < 2 ^ 63 -> wanted = (r_val2 rw - w) / 2)
    /\ (r_err rr <> VmbErrorSuccess -> queries = [] /\ value = stored_offset wanted)
    /\ (r_err rr = VmbErrorSuccess ->
        exists ri,
          queries = [(VmbFeatureIntIncrementQuery "OffsetX", ri)]
          /\ (r_err ri <> VmbErrorSuccess -> value = stored_offset wanted)
          /\ (r_err ri = VmbErrorSuccess ->
              let valid :=
                RoundToNearestValidValue_model wanted (r_val rr) (r_val2 rr) (r_val ri) in
              value = stored_offset valid
              /\ (0 < r_val ri -> r_val rr <= r_val2 rr ->
                  valid_value valid (r_val rr) (r_val2 rr) (r_val ri)
                  /\ (forall v, valid_value v (r_val rr) (r_val2 rr) (r_val ri) ->
                                Z.abs (valid - wanted) <= Z.abs (v - wanted))
                  /\ (0 <= r_val rr -> r_val2 rr <= INT_MAX -> value = valid)))).
Proof.
  intros Hauto run.
  destruct (set_roi_run RoundToNearestValidValue_model s)
    as (r1 & r2 & rw & r4 & rh & r6 & xq & rx & yq & ry & L & _ & _ & _ & Hx & Hy).
  cbv zeta in L, Hx, Hy. fold run in L, Hx, Hy.
  rewrite Hauto in Hx.
  pose proof (centring_sets_nothing _ _ _ _ _ _ Hy) as Hyq.
  destruct (centring_model_cases _ _ _ _ Hx) as (rr & incr & -> & Hfail & Hok).
  exists r1, r2, rw, r4, rh, r6, rr, incr, rx,
         (yq ++ [(VmbFeatureIntSet "OffsetY" (offsety (properties run.2)), ry)]).
  cbv zeta.
  split.
  { apply calls_since_app. rewrite L. reflexivity. }
  split.
  { apply Forall_app. split.
    - eapply Forall_impl; [exact Hyq |]. intros ev Hev. split; apply Hev.
    - by repeat constructor. }
  split; [apply centred_offset_floor |].
  split; [exact Hfail | exact Hok].
Qed.

(** The example of the specification, on a camera whose OffsetX ranges
    over what the width in force leaves of the sensor: sensor width 1920,
    width 640, increment 2; OffsetX is set to 640. *)
Lemma set_roi_centres_offsetx_witness :
  let s := started_element sensor_camera 3 centred_roi in
  let run := set_roi RoundToNearestValidValue_model s in
  offsetx (properties run.2) = 640
  /\ int_sets "OffsetX" (calls_since s run.2)
     = [VmbFeatureIntSet "OffsetX" 0; VmbFeatureIntSet "OffsetX" 640]
  /\ exists r1 r2 rw r4 rh r6 rr queries rx rest,
       calls_since s run.2
       = [ (VmbFeatureIntSet "OffsetX" 0, r1); (VmbFeatureIntSet "OffsetY" 0, r2);
           (VmbFeatureIntRangeQuery "Width", rw);
           (VmbFeatureIntSet "Width" (resolved_width (properties s) (r_val2 rw)), r4);
           (VmbFeatureIntRangeQuery "Height", rh);
           (VmbFeatureIntSet "Height" (resolved_height (properties s) (r_val2 rh)), r6);
           (VmbFeatureIntRangeQuery "OffsetX", rr) ]
         ++ queries
         ++ (VmbFeatureIntSet "OffsetX" (offsetx (properties run.2)), rx) :: rest.
Proof.
  intros s run.
  split; [vm_compute; reflexivity |]. split; [vm_compute; reflexivity |].
  destruct (set_roi_centres_offsetx s)
    as (r1 & r2 & rw & r4 & rh & r6 & rr & queries & rx & rest & Hcalls & _);
    [reflexivity |].
  exists r1, r2, rw, r4, rh, r6, rr, queries, rx, rest. exact Hcalls.
Defined.

(** X21.  Let the offsety property hold the sentinel -1.  After the
    resets, Width and Height and whatever it does for OffsetX, none of
    which sets Height or OffsetY, [set_roi] asks the camera for the range
    of OffsetY with the resolved height in force, centres on half of
    what the sensor height has beyond the resolved height, rounds the
    value as it does for OffsetX when the range and the increment could
    be read, and uses it as it is when they could not.  Its last call
    sets OffsetY to the value arrived at, which the property holds
    afterwards, and the code of that call is what it returns. *)
Theorem set_roi_centres_offsety (s : GstVmbSrc) :
  offsety (properties s) = -1 ->
  let run := set_roi RoundToNearestValidValue_model s in
  exists r1 r2 rw r4 rh r6 mid rr queries r_last,
    let w := resolved_width (properties s) (r_val2 rw) in
    let h := resolved_height (properties s) (r_val2 rh) in
    let wanted := centred_offset (r_val2 rh) h in
    let value := offsety (properties run.2) in
    calls_since s run.2
    = [ (VmbFeatureIntSet "OffsetX" 0, r1); (VmbFeatureIntSet "OffsetY" 0, r2);
        (VmbFeatureIntRangeQuery "Width", rw); (VmbFeatureIntSet "Width" w, r4);
        (VmbFeatureIntRangeQuery "Height", rh); (VmbFeatureIntSet "Height" h, r6) ]
      ++ mid
      ++ (VmbFeatureIntRangeQuery "OffsetY", rr) :: queries
      ++ [(VmbFeatureIntSet "OffsetY" value, r_last)]
    /\ run.1 = r_err r_last
    /\ Forall (fun ev => is_int_set "Height" ev.1 = false
                         /\ is_int_set "OffsetY" ev.1 = false) mid
    /\ (- 2 ^ 63 <= r_val2 rh - h < 2 ^ 63 -> wanted = (r_val2 rh - h) / 2)
    /\ (r_err rr <> VmbErrorSuccess -> queries = [] /\ value = stored_offset wanted)
    /\ (r_err rr = VmbErrorSuccess ->
        exists ri,
          queries = [(VmbFeatureIntIncrementQuery "OffsetY", ri)]
          /\ (r_err ri <> VmbErrorSuccess -> value = stored_offset wanted)
          /\ (r_err ri = VmbErrorSuccess ->
              let valid :=
                RoundToNearestValidValue_model wanted (r_val rr) (r_val2 rr) (r_val ri) in
              value = stored_offset valid
              /\ (0 < r_val ri -> r_val rr <= r_val2 rr ->
                  valid_value valid (r_val rr) (r_val2 rr) (r_val ri)
                  /\ (forall v, valid_value v (r_val rr) (r_val2 rr) (r_val ri) ->
                                Z.abs (valid - wanted) <= Z.abs (v - wanted))
                  /\ (0 <= r_val rr -> r_val2 rr <= INT_MAX -> value = valid)))).
Proof.
  intros Hauto run.
  destruct (set_roi_run RoundToNearestValidValue_model s)
    as (r1 & r2 & rw & r4 & rh & r6 & xq & rx & yq & ry & L & Hres & _ & _ & Hx & Hy).
  cbv zeta in L, Hx, Hy. fold run in L, Hres, Hx, Hy.
  rewrite Hauto in Hy.
  pose proof (centring_sets_nothing _ _ _ _ _ _ Hx) as Hxq.
  destruct (centring_model_cases _ _ _ _ Hy) as (rr & incr & -> & Hfail & Hok).
  exists r1, r2, rw, r4, rh, r6,
         (xq ++ [(VmbFeatureIntSet "OffsetX" (offsetx (properties run.2)), rx)]),
         rr, incr, ry.
  cbv zeta.
  split.
  { apply calls_since_app. rewrite L. cbn [app]. rewrite <- app_assoc. reflexivity. }
  split; [exact Hres |].
  split.
  { apply Forall_app. split.
    - eapply Forall_impl; [exact Hxq |]. intros ev Hev. split; apply Hev.
    - by repeat constructor. }
  split; [apply centred_offset_floor |].
  split; [exact Hfail | exact Hok].
Qed.

(** Sensor height 1080, height 480, increment 2, on a camera whose
    OffsetY ranges over what the height in force leaves of the sensor:
    OffsetY is set to 300. *)
Lemma set_roi_centres_offsety_witness :
  let s := started_element sensor_camera 3 centred_roi in
  let run := set_roi RoundToNearestValidValue_model s in
  offsety (properties run.2) = 300
  /\ int_sets "OffsetY" (calls_since s run.2)
     = [VmbFeatureIntSet "OffsetY" 0; VmbFeatureIntSet "OffsetY" 300]
  /\ exists r1 r2 rw r4 rh r6 mid rr queries r_last,
       calls_since s run.2
       = [ (VmbFeatureIntSet "OffsetX" 0, r1); (VmbFeatureIntSet "OffsetY" 0, r2);
           (VmbFeatureIntRangeQuery "Width", rw);
           (VmbFeatureIntSet "Width" (resolved_width (properties s) (r_val2 rw)), r4);
           (VmbFeatureIntRangeQuery "Height", rh);
           (VmbFeatureIntSet "Height" (resolved_height (properties s) (r_val2 rh)), r6) ]
         ++ mid
         ++ (VmbFeatureIntRangeQuery "OffsetY", rr) :: queries
         ++ [(VmbFeatureIntSet "OffsetY" (offsety (properties run.2)), r_last)]
       /\ run.1 = r_err r_last.
Proof.
  intros s run.
  split; [vm_compute; reflexivity |]. split; [vm_compute; reflexivity |].
  destruct (set_roi_centres_offsety s)
    as (r1 & r2 & rw & r4 & rh & r6 & mid & rr & queries & r_last & Hcalls & Hres & _);
    [reflexivity |].
  exists r1, r2, rw, r4, rh, r6, mid, rr, queries, r_last.
  split; [exact Hcalls | exact Hres].
Defined.

(** ** Properties read back *)



Section RegionOfInterestAfterRead.
Variable RoundToNearestValidValue : Z -> Z -> Z -> Z -> Z.

(** X23.  Reading the offsetx property from a camera that answers
    replaces the stored value by the value of the camera.  When the
    property held -1, the request to centre, and the camera reports an
    offset between 0 and INT_MAX, the next [set_roi] does not centre: it
    sets OffsetX, after the reset, to the value that was read. *)
Theorem get_property_offsetx_cancels_centring (s : GstVmbSrc) (reported : Z) :
  offsetx (properties s) = -1 ->
  r_err (device s (sdk_log s) (VmbFeatureIntGet "OffsetX")) = VmbErrorSuccess ->
  r_val (device s (sdk_log s) (VmbFeatureIntGet "OffsetX")) = reported ->
  0 <= reported <= INT_MAX ->
  let read := get_property_offsetx s in
  let s' := (set_roi RoundToNearestValidValue read.2).2 in
  read.1 = reported
  /\ offsetx (properties read.2) = reported
  /\ int_sets "OffsetX" (calls_since read.2 s')
     = [VmbFeatureIntSet "OffsetX" 0; VmbFeatureIntSet "OffsetX" reported]
  /\ offsetx (properties s') = reported.
Proof.
  intros Hauto Hok Hval Hrange read s'.
  assert (Hread : read.1 = reported /\ offsetx (properties read.2) = reported).
  { subst read. unfold get_property_offsetx, get_property_int.
    rewrite !bind_run. cbn [sdk fst snd]. rewrite Hok.
    rewrite (decide_True (P := VmbErrorSuccess = VmbErrorSuccess)) by reflexivity.
    cbn. rewrite Hval. rewrite to_int_small by (unfold INT_MAX in Hrange; lia).
    by split. }
  destruct Hread as [Hr1 Hx0]. split; [exact Hr1 |]. split; [exact Hx0 |].
  set (s0 := read.2) in *. clearbody s0. clear read Hr1.
  assert (HQ : exists s10 evs,
             after_offsetx s10 s'
             /\ sdk_log s10 = sdk_log s0 ++ evs
             /\ int_sets "OffsetX" evs
                = [VmbFeatureIntSet "OffsetX" 0; VmbFeatureIntSet "OffsetX" reported]
             /\ offsetx (properties s10) = reported).
  { subst s'. unfold set_roi.
    step_sdk s0 r1 s1 R1 L1 D1 P1. step_sdk s1 r2 s2 R2 L2 D2 P2.
    step_sdk s2 rw s3 Rw L3 D3 P3.
    step_get_at s3.
    match goal with |- context [bind ?m ?k s3] =>
      rewrite (bind_run m k s3); cbv beta;
      destruct (roi_width_step (r_val2 rw) s3) as (L4 & D4 & W4 & X4);
      set (s4 := (m s3).2) in *; clearbody s4 end.
    step_get_at s4. step_sdk s4 r5 s5 R5 L5 D5 P5.
    step_sdk s5 rh s6 Rh L6 D6 P6.
    step_get_at s6.
    match goal with |- context [bind ?m ?k s6] =>
      rewrite (bind_run m k s6); cbv beta;
      destruct (roi_height_step (r_val2 rh) s6) as (L7 & D7 & W7 & X7);
      set (s7 := (m s6).2) in *; clearbody s7 end.
    step_get_at s7. step_sdk s7 r8 s8 R8 L8 D8 P8.
    step_get_at s8.
    assert (Hx8 : offsetx (properties s8) = reported) by congruence.
    rewrite (decide_False (P := offsetx (properties s8) = -1)) by lia.
    match goal with |- context [bind (ret tt) ?k s8] =>
      change (bind (ret tt) k s8) with (k tt s8); cbv beta end.
    step_get_at s8. rewrite Hx8.
    step_sdk s8 r9 s9 R9 L9 D9 P9.
    match goal with |- context [(?m s9).2] =>
      assert (Hrest : keeps after_offsetx m) by (repeat after_offsetx_step) end.
    eexists s9, _. split; [apply Hrest |].
    split.
    { rewrite L9, L8, L7, L6, L5, L4, L3, L2, L1.
      rewrite <- !app_assoc. reflexivity. }
    split; [reflexivity |]. congruence. }
  destruct HQ as (s10 & evs & ((rest & Lr & Cr) & Xr & Wr) & L10 & Hxs & X10).
  assert (Hlog : sdk_log s' = sdk_log s0 ++ evs ++ rest).
  { rewrite Lr, L10. by rewrite <- app_assoc. }
  rewrite (calls_since_app _ _ _ Hlog), !int_sets_app.
  rewrite (int_sets_none "OffsetX" rest), !app_nil_r.
  - split; [exact Hxs | congruence].
  - eapply Forall_impl; [exact Cr |]. cbn. tauto.
Qed.

End RegionOfInterestAfterRead.

(** The camera reports an OffsetX of 16 to an element asked to centre. *)
Lemma get_property_offsetx_cancels_centring_witness :
  let s := started_element offset_reporting_camera 3 centred_roi in
  let read := get_property_offsetx s in
  let s' := (set_roi RoundToNearestValidValue_model read.2).2 in
  offsetx (properties s) = -1
  /\ read.1 = 16
  /\ offsetx (properties read.2) = 16
  /\ int_sets "OffsetX" (calls_since read.2 s')
     = [VmbFeatureIntSet "OffsetX" 0; VmbFeatureIntSet "OffsetX" 16]
  /\ offsetx (properties s') = 16.
Proof.
  intros s. split; [reflexivity |].
  apply (get_property_offsetx_cancels_centring RoundToNearestValidValue_model s 16).
  - reflexivity.
  - reflexivity.
  - reflexivity.
  - vm_compute. split; discriminate.
Defined.

(** ** The lifetime of the API *)

Lemma live_elements_app (a b : list Lifecycle) :
  forall alive, live_elements alive (a ++ b) = live_elements (live_elements alive a) b.
Proof.
  induction a as [|[|c] a IH]; intros alive; cbn; [reflexivity | apply IH | apply IH].
Qed.

Lemma balanced_app (a b : list Lifecycle) :
  forall alive,
    balanced alive (a ++ b) = balanced alive a && balanced (live_elements alive a) b.
Proof.
  induction a as [|e a IH]; intros alive; [reflexivity |].
  cbn [app balanced]. rewrite IH. destruct e; cbn; by rewrite andb_assoc.
Qed.

Lemma api_protocol_app (a b : list VmbApiCall) :
  forall up,
    api_protocol up (a ++ b)
    = match api_protocol up a with
      | Some up' => api_protocol up' b
      | None => None
      end.
Proof.
  induction a as [|c a IH]; intros up; [reflexivity |].
  destruct c, up; cbn; by rewrite ?IH.
Qed.

Lemma balanced_live_elements (events : list Lifecycle) :
  forall alive,
    0 <= alive -> balanced alive events = true -> 0 <= live_elements alive events.
Proof.
  induction events as [|e events IH]; intros alive Ha Hb; [exact Ha |].
  cbn [balanced] in Hb. apply andb_true_iff in Hb as [Hb Hrest].
  apply andb_true_iff in Hb as [Hlo _]. apply Z.leb_le in Hlo.
  destruct e; cbn [live_elements] in *; by apply IH.
Qed.

Lemma lifecycle_snoc (events : list Lifecycle) (e : Lifecycle) (api : VmbApi) :
  lifecycle (events ++ [e]) api = lifecycle_step (lifecycle events api) e.
Proof. unfold lifecycle. by rewrite fold_left_app. Qed.

(** X24.  The API is up exactly while an element exists.  Take a plugin
    that has just been loaded and let elements be created and finalized
    in any order, as long as only elements that exist are finalized.
    Then [vmb_open_count] is the number of elements alive; [VmbStartup]
    was called only with the API down and [VmbShutdown] only with the
    API up, no other call was made while it was down, and in the end the
    API is up if and only if an element is alive. *)
Theorem api_is_up_while_an_element_lives (events : list Lifecycle) :
  balanced 0 events = true ->
  let api := lifecycle events loaded_plugin in
  vmb_open_count api = live_elements 0 events
  /\ api_protocol false (api_log api) = Some (bool_decide (0 < live_elements 0 events)).
Proof.
  induction events as [|e events IH] using rev_ind; intros Hb api; subst api.
  - by split.
  - rewrite balanced_app in Hb. apply andb_true_iff in Hb as [Hb He].
    destruct (IH Hb) as [Hcount Hlog].
    pose proof (balanced_live_elements events 0 (Z.le_refl 0) Hb) as Halive.
    rewrite lifecycle_snoc, live_elements_app.
    set (api := lifecycle events loaded_plugin) in *.
    set (alive := live_elements 0 events) in *.
    cbn [balanced] in He. rewrite andb_true_r in He.
    apply andb_true_iff in He as [Hlo Hhi].
    apply Z.leb_le in Hlo. apply Z.ltb_lt in Hhi.
    clearbody alive api. clear IH Hb.
    destruct e as [|connected]; cbn [lifecycle_step live_elements] in *.
    + unfold gst_vmbsrc_init. cbn [vmb_open_count api_log]. rewrite Hcount.
      unfold to_uint. rewrite Z.mod_small by lia. split; [reflexivity |].
      rewrite !api_protocol_app, Hlog.
      rewrite (bool_decide_eq_true_2 (0 < alive + 1)) by lia.
      destruct (decide (0 = alive)) as [<-|Hne].
      * reflexivity.
      * rewrite bool_decide_eq_true_2 by lia. reflexivity.
    + unfold gst_vmbsrc_finalize. cbn [vmb_open_count api_log]. rewrite Hcount.
      unfold to_uint. rewrite Z.mod_small by lia. split; [reflexivity |].
      rewrite !api_protocol_app, Hlog.
      rewrite (bool_decide_eq_true_2 (0 < alive)) by lia.
      assert (Hclose : api_protocol true (if connected then [VmbCameraClose] else [])
                       = Some true) by (by destruct connected).
      rewrite Hclose.
      destruct (decide (0 = alive - 1)) as [<-|Hne].
      * reflexivity.
      * rewrite bool_decide_eq_true_2 by lia. reflexivity.
Qed.

(** Two elements are created; the first is finalized while connected,
    then the second, which never was; a third comes and goes. *)
Lemma api_is_up_while_an_element_lives_witness :
  let events := [ element_created; element_created; element_finalized true;
                  element_finalized false; element_created; element_finalized true ] in
  let api := lifecycle events loaded_plugin in
  api_log api
  = [ VmbStartup; VmbVersionQuery; VmbVersionQuery; VmbCameraClose; VmbShutdown;
      VmbStartup; VmbVersionQuery; VmbCameraClose; VmbShutdown ]
  /\ vmb_open_count api = live_elements 0 events
  /\ api_protocol false (api_log api) = Some (bool_decide (0 < live_elements 0 events)).
Proof.
  intros events. split; [reflexivity |].
  apply (api_is_up_while_an_element_lives events). reflexivity.
Defined.
